(** * Sohraa booking admission engine: overlap test, availability, admission

    A shallow embedding of [src/back/server.ts] (the Fastify handlers
    [GET /properties/:propertyId/rooms], [GET /availability] and
    [POST /bookings], and the helper [datesOverlap]) over the tables of
    [src/back/migrations/001_init.sql].

    Conventions of the embedding.
    - Identifiers are JavaScript strings.  The dates of a request are
      JavaScript strings too, and the handlers compare them as strings; the
      [date] columns of the database hold calendar dates, and the queries
      compare them as dates.  How PostgreSQL reads a date literal is an
      input, [date_in]; [Pg.date_in] reads year-month-day literals.
    - A field of a JSON body or query string is an [option]: [None] is an
      absent ([undefined] / [null]) field.
    - A call to the database either takes effect and returns, or throws and
      has no effect.  Which calls throw for reasons outside the program
      (connection loss, a literal that PostgreSQL rejects, and the like) is
      an input, [fails]; the constraints of the schema (primary and foreign
      keys) are checked by the INSERTs.
    - No query of the program has an ORDER BY: the order in which a SELECT
      returns its rows is an input, [scan].
    - The handlers are embedded twice: as one run on one connection
      ([post_bookings], [get_availability], [get_rooms]), and, for the
      admission transaction, call by call ([Tx.step]), so that several
      transactions can be interleaved under the advisory lock. *)

From Stdlib Require Import String Ascii ZArith Bool List Lia.
From stdpp Require Import base option list gmap strings.
Import ListNotations.

Open Scope string_scope.
Open Scope list_scope.

(** ** JavaScript values *)

Module Js.

(** [a < b] on two strings: code units compared from the left, a proper
    prefix is smaller. *)
Definition lt (a b : string) : bool := String.ltb a b.

(** [a > b] is [b < a]. *)
Definition gt (a b : string) : bool := lt b a.

(** [a <= b] is [!(b < a)], and [a >= b] is [!(a < b)], on strings. *)
Definition le (a b : string) : bool := negb (lt b a).
Definition ge (a b : string) : bool := negb (lt a b).

(** ToBoolean, as used by [!x], [x || y] and [c ? x : y]. *)
Class Truthy (A : Type) := truthy : A -> bool.

#[global] Instance truthy_string : Truthy string :=
  fun s => match s with EmptyString => false | String _ _ => true end.
#[global] Instance truthy_bool : Truthy bool := fun b => b.
#[global] Instance truthy_number : Truthy Z := fun n => negb (Z.eqb n 0).
#[global] Instance truthy_option {A} `{Truthy A} : Truthy (option A) :=
  fun o => match o with Some a => truthy a | None => false end.

(** [x || d] where [x] may be absent and [d] is a value. *)
Definition or_else {A} `{Truthy A} (x : option A) (d : A) : A :=
  match x with
  | Some a => if truthy a then a else d
  | None => d
  end.

(** [x || null]. *)
Definition or_null {A} `{Truthy A} (x : option A) : option A :=
  if truthy x then x else None.

End Js.

(** ** The overlap predicate, server.ts lines 14-17 *)

Definition datesOverlap (startA endA startB endB : string) : bool :=
  Js.lt startA endB && Js.gt endA startB.

(** ** SQL comparisons on the date columns *)

(** A value of a [date] column: a calendar date, written as the number
    [yyyymmdd].  The program only compares dates, and on this number the
    order of calendar dates is the order of integers. *)
Definition date := Z.

Module Sql.

Definition le (a b : date) : bool := (a <=? b)%Z.
Definition ge (a b : date) : bool := (b <=? a)%Z.

(** [NOT (end_date <= $2 OR start_date >= $3)], the window filter of both
    queries on [bookings]; [$2] and [$3] are read as dates. *)
Definition window_filter (start_date end_date p2 p3 : date) : bool :=
  negb (le end_date p2 || ge start_date p3).

(** [status IN ('confirmed','hold')]. *)
Definition status_active (status : string) : bool :=
  String.eqb status "confirmed" || String.eqb status "hold".

(** [col = $n] on a nullable column: NULL never matches. *)
Definition eq_param (col : option string) (p : string) : bool :=
  match col with
  | Some v => String.eqb v p
  | None => false
  end.

End Sql.

(** ** Date literals *)

Module Pg.

(** The value of a decimal digit. *)
Definition digit (c : ascii) : option Z :=
  let n := Z.of_N (N_of_ascii c) in
  if (48 <=? n)%Z && (n <=? 57)%Z then Some (n - 48)%Z else None.

(** The decimal fields of a literal, separated by ['-']; [cur] is the field
    being read, if a digit of it has been seen. *)
Fixpoint fields (s : string) (cur : option Z) : option (list Z) :=
  match s with
  | EmptyString =>
      match cur with
      | Some n => Some [n]
      | None => None
      end
  | String c s' =>
      if Ascii.eqb c "-" then
        match cur, fields s' None with
        | Some n, Some l => Some (n :: l)
        | _, _ => None
        end
      else
        match digit c with
        | Some v => fields s' (Some (10 * default 0%Z cur + v)%Z)
        | None => None
        end
  end.

(** A year-month-day literal, month and day of one or two digits, as
    PostgreSQL reads it with the default [DateStyle]: ['2025-09-9'] is the
    ninth of September 2025. *)
Definition ymd (s : string) : option date :=
  match fields s None with
  | Some [y; m; d] =>
      if (1 <=? m)%Z && (m <=? 12)%Z && (1 <=? d)%Z && (d <=? 31)%Z
      then Some (10000 * y + 100 * m + d)%Z
      else None
  | _ => None
  end.

(** A reading of date literals for the sample data: year-month-day
    literals as above.  Any other literal is one that makes the call
    throw; the value given for it is never used. *)
Definition date_in (s : string) : date := default 0%Z (ymd s).

(** The value of a zero-padded ISO date [YYYY-MM-DD]: the number written
    by its eight digits. *)
Definition iso_value (s : string) : option date :=
  match s with
  | String y1 (String y2 (String y3 (String y4 (String h1
      (String m1 (String m2 (String h2 (String d1 (String d2 EmptyString))))))))) =>
      if Ascii.eqb h1 "-" && Ascii.eqb h2 "-" then
        match digit y1, digit y2, digit y3, digit y4,
              digit m1, digit m2, digit d1, digit d2 with
        | Some a1, Some a2, Some a3, Some a4, Some a5, Some a6, Some a7, Some a8 =>
            Some (10000000 * a1 + 1000000 * a2 + 100000 * a3 + 10000 * a4
                  + 1000 * a5 + 100 * a6 + 10 * a7 + a8)%Z
        | _, _, _, _, _, _, _, _ => None
        end
      else None
  | _ => None
  end.

End Pg.

(** ** Tables, 001_init.sql *)

(** Timestamps are instants on the database clock. *)
Definition timestamptz := Z.

Module Property.
Record t := mk
  { id : string;
    name : string;
    created_at : option timestamptz }.
End Property.

Module Room.
Record t := mk
  { id : string;
    property_id : option string;
    room_number : string;
    room_type : option string;
    capacity : option Z;
    created_at : option timestamptz }.
End Room.

(** A JSON object kept as its text; every object is truthy, the empty one
    included. *)
Inductive json_object := JsonObject (text : string).

#[global] Instance truthy_object : Js.Truthy json_object := fun _ => true.

Module Customer.
(** Modelled from the spec: the column [metadata], which server.ts writes
    and 001_init.sql does not declare; customer attributes are opaque to
    the engine, so the column is nullable and unconstrained. *)
Record t := mk
  { id : string;
    first_name : option string;
    last_name : option string;
    email : option string;
    phone : option string;
    metadata : option json_object;
    created_at : option timestamptz }.
End Customer.

Module Booking.
(** Modelled from the spec: the columns [total_amount] and [currency],
    which server.ts writes and 001_init.sql does not declare; the spec has
    them as optional monetary fields passed through opaquely, so they are
    nullable and unconstrained. *)
Record t := mk
  { id : string;
    property_id : option string;
    room_id : option string;
    customer_id : option string;
    status : string;
    start_date : date;
    end_date : date;
    total_amount : option Z;
    currency : option string;
    created_at : option timestamptz;
    updated_at : option timestamptz }.
End Booking.

(** The persisted state: one list of rows per table. *)
Record db := mkdb
  { properties : list Property.t;
    rooms : list Room.t;
    customers : list Customer.t;
    bookings : list Booking.t }.

(** ** Requests and replies *)

(** [customer] of the body of [POST /bookings]. *)
Module CustomerIn.
Record t := mk
  { id : option string;
    first_name : option string;
    last_name : option string;
    email : option string;
    phone : option string;
    metadata : option json_object }.
End CustomerIn.

#[global] Instance truthy_customer : Js.Truthy CustomerIn.t := fun _ => true.

(** Body of [POST /bookings]. *)
Module Body.
Record t := mk
  { property_id : option string;
    room_id : option string;
    customer : option CustomerIn.t;
    start_date : option string;
    end_date : option string;
    hold : option bool;
    total_amount : option Z;
    currency : option string }.
End Body.

(** Query string of [GET /availability]. *)
Module Query.
Record t := mk
  { propertyId : option string;
    from : option string;
    to : option string }.
End Query.

(** A row of [SELECT id, room_number, room_type FROM rooms]. *)
Module RoomRow.
Record t := mk
  { id : string;
    room_number : string;
    room_type : option string }.
End RoomRow.

(** A row of [SELECT room_id, start_date, end_date, status FROM bookings]. *)
Module BookingRow.
Record t := mk
  { room_id : option string;
    start_date : date;
    end_date : date;
    status : string }.
End BookingRow.

Inductive payload :=
| Error (error : string)
| BookingCreated (booking_id status : string)
| Available (from to : string) (available : list RoomRow.t).

(** What a handler hands to the framework: [reply.status(code).send(body)],
    a returned object (sent with status 200), or an exception that escapes
    the handler (Fastify answers 500). *)
Inductive reply :=
| Send (code : Z) (body : payload)
| Raised.

(** ** The database session *)

(** What the program takes from outside: the results of successive
    [uuidv4()] calls, the database clock, PostgreSQL's [hashtext], the date
    PostgreSQL reads a literal as, the order in which each call returns its
    rows (a rank for every position of the table, lower ranks first), and
    which calls to the pool or the connection (numbered in the order the
    handler makes them) throw for reasons outside the program. *)
Record env := mkenv
  { uuidv4 : nat -> string;
    now : timestamptz;
    hashtext : string -> Z;
    date_in : string -> date;
    scan : nat -> nat -> nat;
    fails : nat -> bool }.

(** The rows of a SELECT in the order their ranks give, rows of equal rank
    in table order. *)
Fixpoint insert_ranked {A} (x : nat * A) (l : list (nat * A)) : list (nat * A) :=
  match l with
  | [] => [x]
  | y :: l' => if (fst x <=? fst y)%nat then x :: l else y :: insert_ranked x l'
  end.

Fixpoint ranked {A} (rank : nat -> nat) (i : nat) (l : list A) : list (nat * A) :=
  match l with
  | [] => []
  | a :: l' => insert_ranked (rank i, a) (ranked rank (S i) l')
  end.

Definition arrange {A} (rank : nat -> nat) (l : list A) : list A :=
  map snd (ranked rank 0 l).

(** A connection: the committed state (what every other reader sees), the
    working state of the open transaction if there is one, the advisory
    transaction locks it holds, and counters of the calls made to the pool
    or the connection and of the uuids drawn. *)
Record conn := mkconn
  { committed : db;
    pending : option db;
    held : list Z;
    sent : nat;
    drawn : nat }.

(** A computation on a connection returns a value or throws; both leave a
    connection behind. *)
Inductive outcome (A : Type) :=
| Return (a : A) (c : conn)
| Throw (c : conn).
Arguments Return {A} a c.
Arguments Throw {A} c.

Definition M (A : Type) := conn -> outcome A.

Definition ret {A} (a : A) : M A := fun c => Return a c.

Definition bind {A B} (m : M A) (k : A -> M B) : M B :=
  fun c => match m c with
           | Return a c' => k a c'
           | Throw c' => Throw c'
           end.

Notation "'do' x <- m ; k" := (bind m (fun x => k))
  (at level 10, x name, m at level 100, k at level 200).
Notation "'exec' m ; k" := (bind m (fun _ => k))
  (at level 10, m at level 100, k at level 200).

(** [try { m } catch (err) { h }]. *)
Definition try_catch {A} (m h : M A) : M A :=
  fun c => match m c with
           | Return a c' => Return a c'
           | Throw c' => h c'
           end.

(** The state a statement on this connection reads and writes. *)
Definition view (c : conn) : db :=
  match pending c with
  | Some d => d
  | None => committed c
  end.

(** A write goes to the open transaction, or straight to the committed
    state when none is open (autocommit). *)
Definition write (d : db) (c : conn) : conn :=
  match pending c with
  | Some _ => mkconn (committed c) (Some d) (held c) (sent c) (drawn c)
  | None => mkconn d None (held c) (sent c) (drawn c)
  end.

(** One call ([pool.connect], [pool.query], [client.query]): counted, it
    throws when [fails] says so or when the database rejects the statement
    ([None]), and has its effect otherwise. *)
Definition statement {A} (e : env) (run : conn -> option (A * conn)) : M A :=
  fun c =>
    let c1 := mkconn (committed c) (pending c) (held c) (S (sent c)) (drawn c) in
    if fails e (sent c) then Throw c1
    else match run c1 with
         | Some (a, c2) => Return a c2
         | None => Throw c1
         end.

(** [uuidv4()]. *)
Definition uuid (e : env) : M string :=
  fun c => Return (uuidv4 e (drawn c))
             (mkconn (committed c) (pending c) (held c) (sent c) (S (drawn c))).

(** [BEGIN]; inside a transaction it only warns. *)
Definition sql_begin (e : env) : M unit :=
  statement e (fun c =>
    Some (tt, mkconn (committed c) (Some (view c)) (held c) (sent c) (drawn c))).

(** [COMMIT]: the working state becomes the committed one and the
    transaction's advisory locks go. *)
Definition sql_commit (e : env) : M unit :=
  statement e (fun c =>
    Some (tt, mkconn (view c) None [] (sent c) (drawn c))).

(** [ROLLBACK]: the working state is dropped, the locks go. *)
Definition sql_rollback (e : env) : M unit :=
  statement e (fun c =>
    Some (tt, mkconn (committed c) None [] (sent c) (drawn c))).

(** [SELECT pg_advisory_xact_lock(hashtext($1)::bigint)].  With one
    connection at work the lock is always free. *)
Definition sql_advisory_xact_lock (e : env) (room_id : string) : M unit :=
  statement e (fun c =>
    Some (tt, mkconn (committed c) (pending c)
                (match pending c with
                 | Some _ => hashtext e room_id :: held c
                 | None => held c
                 end)
                (sent c) (drawn c))).

(** The rows of the call in progress on [c], in the order [scan] gives
    them. *)
Definition returned {A} (e : env) (c : conn) (rows : list A) : list A :=
  arrange (scan e (sent c)) rows.

(** [SELECT id, status FROM bookings WHERE room_id = $1
      AND NOT (end_date <= $2 OR start_date >= $3)
      AND status IN ('confirmed','hold') FOR UPDATE]; the parameters [$2]
    and [$3], compared with [date] columns, are read as dates. *)
Definition conflict_where (p1 : string) (p2 p3 : date) (b : Booking.t) : bool :=
  Sql.eq_param (Booking.room_id b) p1
  && Sql.window_filter (Booking.start_date b) (Booking.end_date b) p2 p3
  && Sql.status_active (Booking.status b).

Definition sql_select_conflicts (e : env) (p1 p2 p3 : string)
  : M (list (string * string)) :=
  statement e (fun c =>
    Some (returned e c
            (map (fun b => (Booking.id b, Booking.status b))
                 (List.filter (conflict_where p1 (date_in e p2) (date_in e p3))
                              (bookings (view c)))),
          c)).

(** [SELECT id, room_number, room_type FROM rooms WHERE property_id = $1]. *)
Definition sql_select_rooms (e : env) (p1 : string) : M (list RoomRow.t) :=
  statement e (fun c =>
    Some (returned e c
            (map (fun r => RoomRow.mk (Room.id r) (Room.room_number r) (Room.room_type r))
                 (List.filter (fun r => Sql.eq_param (Room.property_id r) p1)
                              (rooms (view c)))),
          c)).

(** [SELECT room_id, start_date, end_date, status FROM bookings
      WHERE property_id = $1 AND NOT (end_date <= $2 OR start_date >= $3)
      AND status IN ('confirmed','hold')]. *)
Definition blocking_where (p1 : string) (p2 p3 : date) (b : Booking.t) : bool :=
  Sql.eq_param (Booking.property_id b) p1
  && Sql.window_filter (Booking.start_date b) (Booking.end_date b) p2 p3
  && Sql.status_active (Booking.status b).

Definition sql_select_blocking (e : env) (p1 p2 p3 : string)
  : M (list BookingRow.t) :=
  statement e (fun c =>
    Some (returned e c
            (map (fun b => BookingRow.mk (Booking.room_id b) (Booking.start_date b)
                             (Booking.end_date b) (Booking.status b))
                 (List.filter (blocking_where p1 (date_in e p2) (date_in e p3))
                              (bookings (view c)))),
          c)).

(** Constraints of the schema that an INSERT can violate. *)
Definition has_key {R} (key : R -> string) (rows : list R) (k : string) : bool :=
  existsb (fun r => String.eqb (key r) k) rows.

(** [col REFERENCES t(id)]: NULL passes, a value must be a key of [t]. *)
Definition references {R} (key : R -> string) (rows : list R) (col : option string) : bool :=
  match col with
  | Some k => has_key key rows k
  | None => true
  end.

(** [INSERT INTO customers (id, first_name, last_name, email, phone, metadata)
      VALUES ($1,$2,$3,$4,$5,$6) RETURNING id]; [created_at] takes its
    default. *)
Definition sql_insert_customer (e : env) (p1 : string)
    (p2 p3 p4 p5 : option string) (p6 : json_object) : M (list string) :=
  statement e (fun c =>
    let d := view c in
    if has_key Customer.id (customers d) p1 then None
    else
      let row := Customer.mk p1 p2 p3 p4 p5 (Some p6) (Some (now e)) in
      Some ([p1],
            write (mkdb (properties d) (rooms d) (customers d ++ [row]) (bookings d)) c)).

(** [INSERT INTO bookings (id, property_id, room_id, customer_id, status,
      start_date, end_date, total_amount, currency, created_at, updated_at)
      VALUES ($1,...,$9, now(), now())]; the row holds the dates that [$6]
    and [$7] are read as. *)
Definition sql_insert_booking (e : env) (p1 p2 p3 p4 p5 p6 p7 : string)
    (p8 : option Z) (p9 : string) : M unit :=
  statement e (fun c =>
    let d := view c in
    if has_key Booking.id (bookings d) p1
       || negb (references Property.id (properties d) (Some p2))
       || negb (references Room.id (rooms d) (Some p3))
       || negb (references Customer.id (customers d) (Some p4))
    then None
    else
      let row := Booking.mk p1 (Some p2) (Some p3) (Some p4) p5
                   (date_in e p6) (date_in e p7) p8 (Some p9)
                   (Some (now e)) (Some (now e)) in
      Some (tt,
            write (mkdb (properties d) (rooms d) (customers d) (bookings d ++ [row])) c)).

(** [throw]: an exception raised by the handler's own code. *)
Definition throw {A} : M A := fun c => Throw c.

(** [await pool.connect()]. *)
Definition pool_connect (e : env) : M unit :=
  statement e (fun c => Some (tt, c)).

(** ** The handlers *)

(** A required field: [Some] of its value when the field is truthy. *)
Definition present {A} `{Js.Truthy A} (x : option A) : option A := Js.or_null x.

(** The property key that [blockedByRoom[b.room_id]] writes. *)
Definition property_key (room_id : option string) : string :=
  match room_id with
  | Some k => k
  | None => "null"
  end.

(** [for (const b of bookingsRes.rows) blockedByRoom[b.room_id] = true].
    The keys read back are room ids, which are uuids, so none of them names
    a property that a JavaScript object inherits. *)
Definition blockedByRoom (rows : list BookingRow.t) : gmap string bool :=
  fold_left (fun m b => <[property_key (BookingRow.room_id b) := true]> m) rows ∅.

(** [GET /availability], server.ts lines 33-59.  Both reads go through
    [pool.query], outside any transaction. *)
Definition get_availability (e : env) (q : Query.t) : M reply :=
  match present (Query.propertyId q), present (Query.from q), present (Query.to q) with
  | Some propertyId, Some from, Some to =>
      do rooms <- sql_select_rooms e propertyId;
      do bookingsRes <- sql_select_blocking e propertyId from to;
      let blocked := blockedByRoom bookingsRes in
      let available :=
        List.filter (fun r => negb (Js.truthy (blocked !! RoomRow.id r))) rooms in
      ret (Send 200 (Available from to available))
  | _, _, _ => ret (Send 400 (Error "propertyId, from, to required"))
  end.

(** The customer step of [POST /bookings], lines 104-113. *)
Definition customer_id_for (e : env) (customer : CustomerIn.t) : M string :=
  match present (CustomerIn.id customer) with
  | Some customerId => ret customerId
  | None =>
      do id <- uuid e;
      do insertCust <-
        sql_insert_customer e id
          (CustomerIn.first_name customer) (CustomerIn.last_name customer)
          (CustomerIn.email customer) (CustomerIn.phone customer)
          (Js.or_else (CustomerIn.metadata customer) (JsonObject "{}"));
      match insertCust with
      | row :: _ => ret row
      | [] => throw
      end
  end.

(** The transaction of [POST /bookings], the [try] block of lines 83-125. *)
Definition admission_try (e : env) (body : Body.t)
    (property_id room_id start_date end_date : string) (customer : CustomerIn.t)
  : M reply :=
  exec sql_begin e;
  exec sql_advisory_xact_lock e room_id;
  do conflictRes <- sql_select_conflicts e room_id start_date end_date;
  if (0 <? length conflictRes)%nat then
    exec sql_rollback e;
    ret (Send 409 (Error "room not available for given dates"))
  else
    do customerId <- customer_id_for e customer;
    do bookingId <- uuid e;
    let status := if Js.truthy (Body.hold body) then "hold" else "confirmed" in
    exec sql_insert_booking e bookingId property_id room_id customerId status
           start_date end_date
           (Js.or_null (Body.total_amount body))
           (Js.or_else (Body.currency body) "USD");
    exec sql_commit e;
    ret (Send 201 (BookingCreated bookingId status)).

(** The [catch] block, lines 126-129. *)
Definition admission_catch (e : env) : M reply :=
  exec sql_rollback e;
  ret (Send 500 (Error "internal_error")).

(** [POST /bookings], server.ts lines 71-133.  [client.release()] in the
    [finally] block hands the connection back and touches no table. *)
Definition post_bookings (e : env) (body : Body.t) : M reply :=
  match present (Body.property_id body), present (Body.room_id body),
        present (Body.start_date body), present (Body.end_date body),
        present (Body.customer body) with
  | Some property_id, Some room_id, Some start_date, Some end_date, Some customer =>
      if negb (Js.lt start_date end_date) then
        ret (Send 400 (Error "start_date must be before end_date"))
      else
        exec pool_connect e;
        try_catch
          (admission_try e body property_id room_id start_date end_date customer)
          (admission_catch e)
  | _, _, _, _, _ => ret (Send 400 (Error "missing fields"))
  end.

(** A request served on a fresh connection over the state [d]: the reply,
    and the connection as the handler leaves it.  An exception that escapes
    the handler is [Raised]. *)
Definition connect (d : db) : conn := mkconn d None [] 0 0.

Definition serve (h : M reply) (d : db) : reply * conn :=
  match h (connect d) with
  | Return r c => (r, c)
  | Throw c => (Raised, c)
  end.

(** The reply to an availability query over the state [d]. *)
Definition availability (e : env) (q : Query.t) (d : db) : reply :=
  fst (serve (get_availability e q) d).

(** One admission request over the state [d]: the reply, and the committed
    state it leaves, which is what every later request reads. *)
Definition admission (e : env) (body : Body.t) (d : db) : reply * db :=
  let (r, c) := serve (post_bookings e body) d in (r, committed c).

(** ** The spec's vocabulary *)

(** The failure kinds of the spec and the replies they are mapped to:
    client error 400 for [MissingField] and [InvalidRange], conflict 409
    for [RoomUnavailable], server error 500 for [StorageFailure]. *)
Inductive failure := MissingField | InvalidRange | RoomUnavailable | StorageFailure.

Definition failure_of (r : reply) : option failure :=
  match r with
  | Raised => Some StorageFailure
  | Send code (Error msg) =>
      if (code =? 400)%Z then
        if String.eqb msg "start_date must be before end_date"
        then Some InvalidRange else Some MissingField
      else if (code =? 409)%Z then Some RoomUnavailable
      else Some StorageFailure
  | Send _ _ => None
  end.

(** A reply that reports a storage failure. *)
Definition storage_failed (r : reply) : bool :=
  match failure_of r with
  | Some StorageFailure => true
  | _ => false
  end.

(** An active booking: status [hold] or [confirmed]. *)
Definition active (b : Booking.t) : bool := Sql.status_active (Booking.status b).

(** A booking of room [r]. *)
Definition of_room (r : string) (b : Booking.t) : bool :=
  Sql.eq_param (Booking.room_id b) r.

(** The active bookings of room [r]. *)
Definition active_bookings (r : string) (d : db) : list Booking.t :=
  List.filter (fun b => of_room r b && active b) (bookings d).

(** The overlap test of two date intervals [[a1, a2)] and [[b1, b2)]:
    [a1 < b2] and [a2 > b1], on dates. *)
Definition date_overlap (a1 a2 b1 b2 : date) : bool :=
  (a1 <? b2)%Z && (b1 <? a2)%Z.

(** Two bookings overlap when their date intervals do. *)
Definition overlap (a b : Booking.t) : bool :=
  date_overlap (Booking.start_date a) (Booking.end_date a)
               (Booking.start_date b) (Booking.end_date b).

(** A booking overlaps the window [[from, to)]. *)
Definition overlaps_window (from to : date) (b : Booking.t) : bool :=
  date_overlap (Booking.start_date b) (Booking.end_date b) from to.

(** [ok] holds of every two rows of a list at distinct positions, the
    earlier row first. *)
Fixpoint pairwise {A} (ok : A -> A -> bool) (l : list A) : bool :=
  match l with
  | [] => true
  | a :: l' => forallb (ok a) l' && pairwise ok l'
  end.

(** The invariant of the data model for room [r]: its active bookings are
    pairwise non-overlapping. *)
Definition room_invariant (r : string) (d : db) : bool :=
  pairwise (fun a b => negb (overlap a b)) (active_bookings r d).

(** The active bookings of room [r] that overlap [[from, to)]. *)
Definition conflicts (r : string) (from to : date) (d : db) : list Booking.t :=
  List.filter (overlaps_window from to) (active_bookings r d).

(** Some active booking of the room has an interval that overlaps the
    window [[from, to)]. *)
Definition busy (d : db) (room : string) (from to : date) : Prop :=
  exists b, In b (bookings d)
            /\ Booking.room_id b = Some room
            /\ active b = true
            /\ date_overlap (Booking.start_date b) (Booking.end_date b) from to = true.

(** Whether the blocking query returns a row that blocks the key [k]. *)
Definition blocked_in (d : db) (property : string) (from to : date) (k : string) : bool :=
  existsb (fun b => blocking_where property from to b
                    && String.eqb (property_key (Booking.room_id b)) k)
          (bookings d).

(** The rooms the availability handler lists, in closed form. *)
Definition listed (d : db) (property : string) (from to : date) : list RoomRow.t :=
  map (fun r => RoomRow.mk (Room.id r) (Room.room_number r) (Room.room_type r))
      (List.filter (fun r => Sql.eq_param (Room.property_id r) property
                             && negb (blocked_in d property from to (Room.id r)))
                   (rooms d)).

(** The list the availability handler sends, in closed form: the rooms of
    the property in the order the first read returned them, without those
    the second read blocks. *)
Definition offered (e : env) (d : db) (property from to : string) : list RoomRow.t :=
  List.filter
    (fun r => negb (blocked_in d property (date_in e from) (date_in e to) (RoomRow.id r)))
    (arrange (scan e 1)
       (map (fun r => RoomRow.mk (Room.id r) (Room.room_number r) (Room.room_type r))
            (List.filter (fun r => Sql.eq_param (Room.property_id r) property)
                         (rooms d)))).

(** Every active booking of a room of the table is recorded under that
    room's property; the admission handler takes [property_id] and
    [room_id] from the body and does not compare them. *)
Definition bookings_under_room_property (d : db) : Prop :=
  forall b r, In b (bookings d) -> In r (rooms d) -> active b = true ->
              property_key (Booking.room_id b) = Room.id r ->
              Booking.room_id b = Some (Room.id r)
              /\ Booking.property_id b = Room.property_id r.

(** The rows a committed admission adds, read off lines 104-122. *)
Definition new_customers (e : env) (customer : CustomerIn.t) : list Customer.t :=
  match present (CustomerIn.id customer) with
  | Some _ => []
  | None =>
      [Customer.mk (uuidv4 e 0)
         (CustomerIn.first_name customer) (CustomerIn.last_name customer)
         (CustomerIn.email customer) (CustomerIn.phone customer)
         (Some (Js.or_else (CustomerIn.metadata customer) (JsonObject "{}")))
         (Some (now e))]
  end.

Definition new_customer_id (e : env) (customer : CustomerIn.t) : string :=
  match present (CustomerIn.id customer) with
  | Some customerId => customerId
  | None => uuidv4 e 0
  end.

Definition new_booking_id (e : env) (customer : CustomerIn.t) : string :=
  match present (CustomerIn.id customer) with
  | Some _ => uuidv4 e 0
  | None => uuidv4 e 1
  end.

Definition new_status (body : Body.t) : string :=
  if Js.truthy (Body.hold body) then "hold" else "confirmed".

Definition new_booking (e : env) (body : Body.t)
    (property_id room_id start_date end_date : string) (customer : CustomerIn.t)
  : Booking.t :=
  Booking.mk (new_booking_id e customer) (Some property_id) (Some room_id)
    (Some (new_customer_id e customer)) (new_status body)
    (date_in e start_date) (date_in e end_date)
    (Js.or_null (Body.total_amount body))
    (Some (Js.or_else (Body.currency body) "USD"))
    (Some (now e)) (Some (now e)).

(** The state after a committed admission. *)
Definition committed_state (e : env) (body : Body.t)
    (property_id room_id start_date end_date : string) (customer : CustomerIn.t)
    (d : db) : db :=
  mkdb (properties d) (rooms d)
       (customers d ++ new_customers e customer)
       (bookings d ++ [new_booking e body property_id room_id start_date end_date customer]).

(** The schema's constraints on the rows of a committed admission: fresh
    primary keys, and the booking's foreign keys resolved (the customer key
    against the customers as they are after the customer step). *)
Definition constraints_hold (e : env) (property_id room_id : string)
    (customer : CustomerIn.t) (d : db) : bool :=
  forallb (fun c => negb (has_key Customer.id (customers d) (Customer.id c)))
          (new_customers e customer)
  && negb (has_key Booking.id (bookings d) (new_booking_id e customer))
  && has_key Property.id (properties d) property_id
  && has_key Room.id (rooms d) room_id
  && has_key Customer.id (customers d ++ new_customers e customer)
       (new_customer_id e customer).

(** The body carries every required field, with these values. *)
Definition well_formed (body : Body.t)
    (property_id room_id start_date end_date : string) (customer : CustomerIn.t)
  : Prop :=
  present (Body.property_id body) = Some property_id
  /\ present (Body.room_id body) = Some room_id
  /\ present (Body.start_date body) = Some start_date
  /\ present (Body.end_date body) = Some end_date
  /\ present (Body.customer body) = Some customer.

(** ** Sample data: the end-to-end scenario of the spec *)

Module Sample.

(** No call fails; the first two uuids drawn are fixed; every call returns
    its rows in table order; all rooms share one lock key. *)
Definition e0 : env :=
  mkenv (fun n => match n with
                  | O => "0b5f1f0e-0000-4000-8000-000000000001"
                  | _ => "0b5f1f0e-0000-4000-8000-000000000002"
                  end)
        1757462400%Z (fun _ => 0%Z) Pg.date_in (fun _ _ => O) (fun _ => false).

(** Two properties; room [R] belongs to [P]; [R] has a confirmed booking
    [[2025-09-10, 2025-09-12)]. *)
Definition d0 : db :=
  mkdb [Property.mk "P" "Hampi Stay" None; Property.mk "Q" "Sohraa Inn" None]
       [Room.mk "R" (Some "P") "101" (Some "double") (Some 2%Z) None]
       [Customer.mk "C" (Some "Asha") None None None None None]
       [Booking.mk "B" (Some "P") (Some "R") (Some "C") "confirmed"
          20250910%Z 20250912%Z None None None None].

Definition guest : CustomerIn.t :=
  CustomerIn.mk None (Some "Ravi") None None None None.

Definition request (property_id start_date end_date : string) : Body.t :=
  Body.mk (Some property_id) (Some "R") (Some guest)
          (Some start_date) (Some end_date) None None None.

(** Touching the existing booking: admitted. *)
Definition touching : Body.t := request "P" "2025-09-12" "2025-09-14".

(** Overlapping the existing booking: rejected. *)
Definition overlapping : Body.t := request "P" "2025-09-09" "2025-09-11".

(** Room [R] booked under the other property [Q]. *)
Definition other_property : Body.t := request "Q" "2025-09-20" "2025-09-22".

(** A hold by the existing customer [C], amount [0] and currency [''] given. *)
Definition zero_amount : Body.t :=
  Body.mk (Some "P") (Some "R")
          (Some (CustomerIn.mk (Some "C") None None None None None))
          (Some "2025-09-12") (Some "2025-09-14") (Some true) (Some 0%Z) (Some "").

(** The state after that admission. *)
Definition d1 : db := snd (admission e0 other_property d0).

(** The window of that booking, asked of property [P]. *)
Definition booked_window : Query.t :=
  Query.mk (Some "P") (Some "2025-09-20") (Some "2025-09-22").

(** An inverted window. *)
Definition inverted : Query.t :=
  Query.mk (Some "P") (Some "2025-09-12") (Some "2025-09-10").

End Sample.

(** ** The room list, sequences of requests, schema constraints *)

(** [SELECT * FROM rooms WHERE property_id = $1]. *)
Definition sql_select_all_rooms (e : env) (p1 : string) : M (list Room.t) :=
  statement e (fun c =>
    Some (returned e c
            (List.filter (fun r => Sql.eq_param (Room.property_id r) p1)
                         (rooms (view c))),
          c)).

(** [GET /properties/:propertyId/rooms], server.ts lines 23-27: the rows
    are the handler's return value. *)
Definition get_rooms (e : env) (propertyId : string) : M (list Room.t) :=
  do res <- sql_select_all_rooms e propertyId;
  ret res.

(** The room list served over the state [d]; [None] when the read throws
    and the exception escapes the handler. *)
Definition room_list (e : env) (propertyId : string) (d : db) : option (list Room.t) :=
  match get_rooms e propertyId (connect d) with
  | Return rows _ => Some rows
  | Throw _ => None
  end.

(** The columns of a room that the availability handler selects. *)
Definition room_row (r : Room.t) : RoomRow.t :=
  RoomRow.mk (Room.id r) (Room.room_number r) (Room.room_type r).

(** A reply that reports a created booking. *)
Definition admitted (r : reply) : bool :=
  match r with
  | Send _ (BookingCreated _ _) => true
  | _ => false
  end.

(** Admission requests served one after the other, each with its own
    outside world, each on the state the previous one left. *)
Fixpoint admissions (reqs : list (env * Body.t)) (d : db) : list reply * db :=
  match reqs with
  | [] => ([], d)
  | (e, body) :: rest =>
      let (r, d1) := admission e body d in
      let (rs, d2) := admissions rest d1 in
      (r :: rs, d2)
  end.

(** Two requests that ask for the same room on windows which, read as
    dates, overlap. *)
Definition rivals (q1 q2 : env * Body.t) : bool :=
  match Body.room_id (snd q1), Body.start_date (snd q1), Body.end_date (snd q1),
        Body.room_id (snd q2), Body.start_date (snd q2), Body.end_date (snd q2) with
  | Some r1, Some s1, Some t1, Some r2, Some s2, Some t2 =>
      String.eqb r1 r2
      && date_overlap (date_in (fst q1) s1) (date_in (fst q1) t1)
                      (date_in (fst q2) s2) (date_in (fst q2) t2)
  | _, _, _, _, _, _ => false
  end.

(** [PRIMARY KEY]: no two rows of a table share their [id]. *)
Definition primary_key {R} (key : R -> string) (rows : list R) : bool :=
  pairwise (fun a b => negb (String.eqb (key a) (key b))) rows.

(** The [REFERENCES] clauses of [rooms] and [bookings]. *)
Definition foreign_keys (d : db) : bool :=
  forallb (fun r => references Property.id (properties d) (Room.property_id r))
          (rooms d)
  && forallb (fun b => references Property.id (properties d) (Booking.property_id b)
                       && references Room.id (rooms d) (Booking.room_id b)
                       && references Customer.id (customers d) (Booking.customer_id b))
             (bookings d).

(** The key constraints of 001_init.sql on a state. *)
Definition schema_keys (d : db) : bool :=
  primary_key Property.id (properties d)
  && primary_key Room.id (rooms d)
  && primary_key Customer.id (customers d)
  && primary_key Booking.id (bookings d)
  && foreign_keys d.

(** An active booking recorded under [property] whose room key is [k] and
    whose interval overlaps [[from, to)]: what the blocking query of the
    availability handler looks for. *)
Definition blocks (d : db) (property : string) (from to : date) (k : string) : Prop :=
  exists b, In b (bookings d)
            /\ Booking.property_id b = Some property
            /\ property_key (Booking.room_id b) = k
            /\ active b = true
            /\ date_overlap (Booking.start_date b) (Booking.end_date b) from to = true.

(** A request is blocked in a state when its room is busy there on its
    window, read as dates. *)
Definition blocked (q : env * Body.t) (d : db) : Prop :=
  exists r s t, Body.room_id (snd q) = Some r /\ Body.start_date (snd q) = Some s
                /\ Body.end_date (snd q) = Some t
                /\ busy d r (date_in (fst q) s) (date_in (fst q) t).

(** A request that passes validation and whose window meets no active
    booking of its room in the state [d]. *)
Definition admissible (q : env * Body.t) (d : db) : bool :=
  match present (Body.property_id (snd q)), present (Body.room_id (snd q)),
        present (Body.start_date (snd q)), present (Body.end_date (snd q)),
        present (Body.customer (snd q)) with
  | Some _, Some r, Some s, Some t, Some _ =>
      Js.lt s t
      && match conflicts r (date_in (fst q) s) (date_in (fst q) t) d with
         | [] => true
         | _ :: _ => false
         end
  | _, _, _, _, _ => false
  end.

(** [date_in] reads each of these strings as the ISO date it writes. *)
Definition reads_iso (e : env) (l : list string) : bool :=
  forallb (fun s => match Pg.iso_value s with
                    | Some v => (date_in e s =? v)%Z
                    | None => false
                    end) l.

(** [POST /bookings] on any request: line 73 destructures [req.body]
    before the [try], and throws when the request has no body ([null] or
    [undefined]). *)
Definition post_bookings_request (e : env) (body : option Body.t) : M reply :=
  match body with
  | Some b => post_bookings e b
  | None => throw
  end.

(** ** Further sample data *)

Module Cases.

(** An outside world in which every call fails. *)
Definition offline : env :=
  mkenv (uuidv4 Sample.e0) (now Sample.e0) (hashtext Sample.e0) Pg.date_in
        (scan Sample.e0) (fun _ => true).

(** A window that is not before its end. *)
Definition backwards : Body.t := Sample.request "P" "2025-09-14" "2025-09-12".

(** A second request that overlaps [Sample.touching]. *)
Definition late : Body.t := Sample.request "P" "2025-09-13" "2025-09-15".

(** A request for a room that is not in the table. *)
Definition no_such_room : Body.t :=
  Body.mk (Some "P") (Some "S") (Some Sample.guest)
          (Some "2025-09-12") (Some "2025-09-14") None None None.

(** A later outside world, with uuids of its own. *)
Definition e1 : env :=
  mkenv (fun n => match n with
                  | O => "0b5f1f0e-0000-4000-8000-000000000003"
                  | _ => "0b5f1f0e-0000-4000-8000-000000000004"
                  end)
        1757548800%Z (hashtext Sample.e0) Pg.date_in (scan Sample.e0) (fun _ => false).

End Cases.


(** ** The admission transaction, call by call

    [POST /bookings] once more, cut at its [await]s, so that the requests
    of several clients can be interleaved.  Every request has a connection
    of its own.  The tables hold what has been committed; a transaction
    reads the committed rows and the rows it has written itself (READ
    COMMITTED, PostgreSQL's default, which server.ts does not change), and
    its rows reach the tables when it commits.  Three calls can wait for
    another transaction: [pg_advisory_xact_lock] while another transaction
    holds the key, and the two INSERTs while another open transaction has
    written a row under the same primary key.  The row locks of [FOR UPDATE]
    are taken on bookings of the room by a transaction that holds the
    room's advisory lock, and are left out. *)

Module Tx.

(** Where a request is: about to make the call of the lines named, or
    answered. *)
Inductive phase :=
| Connect                                (* lines 72-82: validation, pool.connect() *)
| Begin                                  (* line 84 *)
| Lock                                   (* line 89 *)
| Conflicts                              (* lines 92-99 *)
| Reject                                 (* line 100 *)
| InsertCustomer                         (* lines 106-111 *)
| InsertBooking (customerId : string)    (* lines 115-122 *)
| Commit (bookingId status : string)     (* line 124 *)
| Catch                                  (* line 127 *)
| Replied (r : reply).

(** A request in progress: its outside world and body, where it is, the
    advisory locks its transaction holds, the calls it has made, the uuids
    it has drawn, and the rows it has written and not yet committed. *)
Record t := mk
  { world : env;
    body : Body.t;
    at_ : phase;
    held : list Z;
    sent : nat;
    drawn : nat;
    written_customers : list Customer.t;
    written_bookings : list Booking.t }.

(** The constants of line 73, once lines 75-80 have let them through. *)
Definition property_id (x : t) : string :=
  default "" (present (Body.property_id (body x))).
Definition room_id (x : t) : string :=
  default "" (present (Body.room_id (body x))).
Definition start_date (x : t) : string :=
  default "" (present (Body.start_date (body x))).
Definition end_date (x : t) : string :=
  default "" (present (Body.end_date (body x))).
Definition customer (x : t) : CustomerIn.t :=
  default (CustomerIn.mk None None None None None None) (present (Body.customer (body x))).

(** Lines 75-80: the reply, if the request is turned away. *)
Definition validation (b : Body.t) : option reply :=
  match present (Body.property_id b), present (Body.room_id b),
        present (Body.start_date b), present (Body.end_date b),
        present (Body.customer b) with
  | Some _, Some _, Some start_date, Some end_date, Some _ =>
      if negb (Js.lt start_date end_date)
      then Some (Send 400 (Error "start_date must be before end_date"))
      else None
  | _, _, _, _, _ => Some (Send 400 (Error "missing fields"))
  end.

(** The lock key of the request, and its window as PostgreSQL reads it. *)
Definition key (x : t) : Z := hashtext (world x) (room_id x).
Definition from (x : t) : date := date_in (world x) (start_date x).
Definition to (x : t) : date := date_in (world x) (end_date x).

(** What the statements of the transaction read. *)
Definition view (d : db) (x : t) : db :=
  mkdb (properties d) (rooms d)
       (customers d ++ written_customers x)
       (bookings d ++ written_bookings x).

(** Whether the next call throws for a reason outside the program. *)
Definition failed (x : t) : bool := fails (world x) (sent x).

(** The call returns: one more call made, on to [p]. *)
Definition returns (x : t) (p : phase) (locks : list Z) (draws : nat)
    (cs : list Customer.t) (bs : list Booking.t) : t :=
  mk (world x) (body x) p locks (S (sent x)) draws cs bs.

(** The call throws inside the [try]: on to the [catch] block. *)
Definition throws (x : t) (draws : nat) : t :=
  returns x Catch (held x) draws (written_customers x) (written_bookings x).

(** The transaction ends: its locks and its uncommitted rows go. *)
Definition ends (x : t) (r : reply) : t :=
  returns x (Replied r) [] (drawn x) [] [].

(** The keys locked, and the primary keys written, by other transactions
    that are still open. *)
Definition locked (others : list t) : list Z := flat_map held others.
Definition customer_keys (others : list t) : list string :=
  map Customer.id (flat_map written_customers others).
Definition booking_keys (others : list t) : list string :=
  map Booking.id (flat_map written_bookings others).

(** The next call of request [x], over the tables [d] and beside the
    requests [others]: the tables and the request after the call, or [None]
    when the call waits (or the request has been answered). *)
Definition step (d : db) (others : list t) (x : t) : option (db * t) :=
  let e := world x in
  match at_ x with
  | Connect =>
      match validation (body x) with
      | Some r =>
          Some (d, mk e (body x) (Replied r) (held x) (sent x) (drawn x)
                     (written_customers x) (written_bookings x))
      | None =>
          if failed x
          then Some (d, returns x (Replied Raised) (held x) (drawn x)
                          (written_customers x) (written_bookings x))
          else Some (d, returns x Begin (held x) (drawn x)
                          (written_customers x) (written_bookings x))
      end
  | Begin =>
      if failed x then Some (d, throws x (drawn x))
      else Some (d, returns x Lock (held x) (drawn x)
                      (written_customers x) (written_bookings x))
  | Lock =>
      if failed x then Some (d, throws x (drawn x))
      else if existsb (Z.eqb (key x)) (locked others) then None
      else Some (d, returns x Conflicts (key x :: held x) (drawn x)
                      (written_customers x) (written_bookings x))
  | Conflicts =>
      if failed x then Some (d, throws x (drawn x))
      else
        let conflictRes :=
          arrange (scan e (S (sent x)))
            (map (fun b => (Booking.id b, Booking.status b))
               (List.filter (conflict_where (room_id x) (from x) (to x))
                            (bookings (view d x)))) in
        if (0 <? length conflictRes)%nat
        then Some (d, returns x Reject (held x) (drawn x)
                        (written_customers x) (written_bookings x))
        else
          match present (CustomerIn.id (customer x)) with
          | Some customerId =>
              Some (d, returns x (InsertBooking customerId) (held x) (drawn x)
                         (written_customers x) (written_bookings x))
          | None =>
              Some (d, returns x InsertCustomer (held x) (drawn x)
                         (written_customers x) (written_bookings x))
          end
  | Reject =>
      if failed x then Some (d, throws x (drawn x))
      else Some (d, ends x (Send 409 (Error "room not available for given dates")))
  | InsertCustomer =>
      let id := uuidv4 e (drawn x) in
      if failed x then Some (d, throws x (S (drawn x)))
      else if has_key Customer.id (customers (view d x)) id
      then Some (d, throws x (S (drawn x)))
      else if existsb (String.eqb id) (customer_keys others) then None
      else
        let row :=
          Customer.mk id
            (CustomerIn.first_name (customer x)) (CustomerIn.last_name (customer x))
            (CustomerIn.email (customer x)) (CustomerIn.phone (customer x))
            (Some (Js.or_else (CustomerIn.metadata (customer x)) (JsonObject "{}")))
            (Some (now e)) in
        Some (d, returns x (InsertBooking id) (held x) (S (drawn x))
                   (written_customers x ++ [row]) (written_bookings x))
  | InsertBooking customerId =>
      let bookingId := uuidv4 e (drawn x) in
      let status := if Js.truthy (Body.hold (body x)) then "hold" else "confirmed" in
      if failed x then Some (d, throws x (S (drawn x)))
      else if has_key Booking.id (bookings (view d x)) bookingId
      then Some (d, throws x (S (drawn x)))
      else if existsb (String.eqb bookingId) (booking_keys others) then None
      else if negb (references Property.id (properties (view d x)) (Some (property_id x)))
              || negb (references Room.id (rooms (view d x)) (Some (room_id x)))
              || negb (references Customer.id (customers (view d x)) (Some customerId))
      then Some (d, throws x (S (drawn x)))
      else
        let row :=
          Booking.mk bookingId (Some (property_id x)) (Some (room_id x))
            (Some customerId) status (from x) (to x)
            (Js.or_null (Body.total_amount (body x)))
            (Some (Js.or_else (Body.currency (body x)) "USD"))
            (Some (now e)) (Some (now e)) in
        Some (d, returns x (Commit bookingId status) (held x) (S (drawn x))
                   (written_customers x) (written_bookings x ++ [row]))
  | Commit bookingId status =>
      if failed x then Some (d, throws x (drawn x))
      else Some (view d x, ends x (Send 201 (BookingCreated bookingId status)))
  | Catch =>
      if failed x
      then Some (d, returns x (Replied Raised) (held x) (drawn x)
                      (written_customers x) (written_bookings x))
      else Some (d, ends x (Send 500 (Error "internal_error")))
  | Replied _ => None
  end.

(** The tables and the requests in progress. *)
Record config := mkconfig
  { store : db;
    txs : list t }.

(** The requests [reqs] arrive over the tables [d]. *)
Definition start (d : db) (reqs : list (env * Body.t)) : config :=
  mkconfig d (map (fun q => mk (fst q) (snd q) Connect [] 0 0 [] []) reqs).

(** Request [i] makes its next call. *)
Definition fire (i : nat) (cfg : config) : option config :=
  match txs cfg !! i with
  | Some x =>
      match step (store cfg) (delete i (txs cfg)) x with
      | Some (d, x') => Some (mkconfig d (<[i := x']> (txs cfg)))
      | None => None
      end
  | None => None
  end.

(** A schedule: which request makes a call, call after call.  [None] when
    the schedule asks for a call that waits. *)
Fixpoint run (sched : list nat) (cfg : config) : option config :=
  match sched with
  | [] => Some cfg
  | i :: rest =>
      match fire i cfg with
      | Some cfg' => run rest cfg'
      | None => None
      end
  end.

Definition reply_of (x : t) : option reply :=
  match at_ x with
  | Replied r => Some r
  | _ => None
  end.

(** Every request has been answered. *)
Definition finished (cfg : config) : bool :=
  forallb (fun x => match reply_of x with Some _ => true | None => false end) (txs cfg).

(** No request has been answered with a storage failure. *)
Definition no_storage_failure (cfg : config) : bool :=
  forallb (fun x => match reply_of x with
                    | Some r => negb (storage_failed r)
                    | None => true
                    end) (txs cfg).

(** The request was answered 201 and its booking is in the tables [d]. *)
Definition committed_in (d : db) (x : t) : Prop :=
  exists bookingId status b,
    at_ x = Replied (Send 201 (BookingCreated bookingId status))
    /\ In b (bookings d)
    /\ Booking.id b = bookingId
    /\ Booking.room_id b = Some (room_id x)
    /\ Booking.start_date b = from x /\ Booking.end_date b = to x
    /\ active b = true.

(** The request was answered 409, [RoomUnavailable]. *)
Definition unavailable (x : t) : Prop :=
  at_ x = Replied (Send 409 (Error "room not available for given dates")).

(** One request alone, run until it is answered. *)
Fixpoint solo (fuel : nat) (cfg : config) : config :=
  match fuel with
  | O => cfg
  | S fuel' =>
      match fire 0 cfg with
      | Some cfg' => solo fuel' cfg'
      | None => cfg
      end
  end.

(** How far a request is: every call moves it on. *)
Definition rank (p : phase) : nat :=
  match p with
  | Connect => 0
  | Begin => 1
  | Lock => 2
  | Conflicts => 3
  | InsertCustomer => 4
  | InsertBooking _ => 5
  | Commit _ _ => 6
  | Reject => 7
  | Catch => 8
  | Replied _ => 9
  end.

(** *** What holds of every configuration that a schedule reaches *)

(** The row that the INSERT of lines 118-122 writes for the request. *)
Definition written_row (x : t) (bookingId : string) (b : Booking.t) : Prop :=
  Booking.id b = bookingId
  /\ Booking.room_id b = Some (room_id x)
  /\ Booking.start_date b = from x /\ Booking.end_date b = to x
  /\ active b = true.

(** The primary keys a request writes are uuids it has drawn. *)
Definition own_keys (x : t) : Prop :=
  (forall c, In c (written_customers x) -> exists n, Customer.id c = uuidv4 (world x) n)
  /\ (forall b, In b (written_bookings x) -> exists n, Booking.id b = uuidv4 (world x) n).

(** The replies: those of the validation, 409, 201, and the storage
    failures. *)
Definition answered (x : t) : Prop :=
  forall r, at_ x = Replied r ->
    validation (body x) = Some r
    \/ storage_failed r = true
    \/ r = Send 409 (Error "room not available for given dates")
    \/ exists bookingId status, r = Send 201 (BookingCreated bookingId status).

(** What a request holds, where. *)
Definition holding (x : t) : Prop :=
  match at_ x with
  | Connect | Begin | Lock =>
      held x = [] /\ written_customers x = [] /\ written_bookings x = []
  | Conflicts | Reject | InsertCustomer =>
      held x = [key x] /\ written_customers x = [] /\ written_bookings x = []
  | InsertBooking _ => held x = [key x] /\ written_bookings x = []
  | Commit bookingId _ =>
      held x = [key x]
      /\ exists b, written_bookings x = [b] /\ written_row x bookingId b
  | Catch => held x = [] \/ held x = [key x]
  | Replied Raised =>
      (held x = [] \/ held x = [key x]) /\ exists n, fails (world x) n = true
  | Replied _ => held x = [] /\ written_customers x = [] /\ written_bookings x = []
  end.

Definition shape (x : t) : Prop := own_keys x /\ answered x /\ holding x.

(** The conflict check of the request has found nothing, and its
    transaction is still open. *)
Definition passed (x : t) : Prop :=
  match at_ x with
  | InsertCustomer | InsertBooking _ | Commit _ _ => True
  | _ => False
  end.

(** The conflict check of the request has found a row. *)
Definition turned_away (x : t) : Prop := at_ x = Reject \/ unavailable x.

(** The request was answered 201. *)
Definition created (x : t) : bool :=
  match at_ x with
  | Replied r => admitted r
  | _ => false
  end.

Record invariant (d0 : db) (reqs : list (env * Body.t)) (cfg : config) : Prop :=
  { inv_static : map (fun x => (world x, body x)) (txs cfg) = reqs;
    inv_shape : forall i x, txs cfg !! i = Some x -> shape x;
    inv_mutex :
      forall i j x y k, i <> j -> txs cfg !! i = Some x -> txs cfg !! j = Some y ->
                        In k (held x) -> In k (held y) -> False;
    inv_clear :
      forall i x, txs cfg !! i = Some x -> passed x ->
                  conflicts (room_id x) (from x) (to x) (store cfg) = [];
    inv_created :
      forall i x, txs cfg !! i = Some x -> created x = true ->
                  committed_in (store cfg) x;
    inv_turned_away :
      forall i x, txs cfg !! i = Some x -> turned_away x ->
                  busy (store cfg) (room_id x) (from x) (to x);
    inv_provenance :
      forall b, In b (bookings (store cfg)) ->
                In b (bookings d0)
                \/ exists i x, txs cfg !! i = Some x /\ created x = true
                               /\ Booking.room_id b = Some (room_id x)
                               /\ Booking.start_date b = from x
                               /\ Booking.end_date b = to x;
    inv_separation :
      forall i j x y, i <> j -> txs cfg !! i = Some x -> txs cfg !! j = Some y ->
                      created x = true -> created y = true ->
                      room_id x = room_id y ->
                      date_overlap (from x) (to x) (from y) (to y) = false }.

End Tx.

(** Requests that are sent to one server: they share PostgreSQL's
    [hashtext]. *)
Definition one_server (reqs : list (env * Body.t)) : Prop :=
  forall q q', In q reqs -> In q' reqs -> forall r, hashtext (fst q) r = hashtext (fst q') r.

(** A request for room [room] that passes validation and whose window,
    read as dates, meets no active booking of the room in [d]. *)
Definition asks_free (room : string) (d : db) (q : env * Body.t) : Prop :=
  exists p s t c,
    well_formed (snd q) p room s t c /\ Js.lt s t = true
    /\ ~ busy d room (date_in (fst q) s) (date_in (fst q) t).

(** ** Sample data: requests in flight together *)

Module Race.

(** Two requests for room [R] whose windows overlap. *)
Definition rivals : list (env * Body.t) :=
  [(Sample.e0, Sample.touching); (Cases.e1, Cases.late)].

(** Two requests for room [R] whose windows are disjoint. *)
Definition apart : list (env * Body.t) :=
  [(Sample.e0, Sample.touching); (Cases.e1, Sample.request "P" "2025-09-14" "2025-09-16")].

(** The tables with a second room, [S], and a request for each room. *)
Definition two_room_db : db :=
  mkdb (properties Sample.d0)
       (rooms Sample.d0 ++ [Room.mk "S" (Some "P") "102" (Some "single") (Some 1%Z) None])
       (customers Sample.d0) (bookings Sample.d0).

Definition for_room_s : Body.t :=
  Body.mk (Some "P") (Some "S") (Some Sample.guest)
          (Some "2025-09-12") (Some "2025-09-14") None None None.

Definition two_rooms : list (env * Body.t) :=
  [(Sample.e0, Sample.touching); (Cases.e1, for_room_s)].

(** Two requests for room [R] on a window that is taken already. *)
Definition both_late : list (env * Body.t) :=
  [(Sample.e0, Sample.overlapping); (Cases.e1, Sample.overlapping)].

(** Schedules: the two requests connect and begin in turn and the first
    takes the lock; the second request runs first; the first takes the lock
    and the second asks for it. *)
Definition in_turn : list nat := [0; 1; 0; 1; 0; 0; 0; 0; 0; 1; 1; 1]%nat.
Definition in_turn_apart : list nat := [0; 1; 0; 1; 0; 0; 0; 0; 0; 1; 1; 1; 1; 1]%nat.
Definition in_turn_late : list nat := [0; 1; 0; 1; 0; 0; 0; 1; 1; 1]%nat.
Definition second_first : list nat := [1; 1; 1; 1; 1; 1; 1; 0; 0; 0; 0; 0]%nat.
Definition first_locks : list nat := [0; 0; 0; 1; 1]%nat.

End Race.

(** ** Order facts on strings *)

Section StringOrder.

Lemma leb_negb_ltb (a b : string) : String.leb a b = negb (String.ltb b a).
Proof.
  unfold String.leb, String.ltb.
  rewrite (String.compare_antisym b a).
  destruct (String.compare a b); reflexivity.
Qed.

Lemma compare_refl (a : string) : String.compare a a = Eq.
Proof.
  induction a as [|c a IH]; simpl; [reflexivity|].
  assert (Hc : Ascii.compare c c = Eq).
  { unfold Ascii.compare. apply N.compare_refl. }
  rewrite Hc. exact IH.
Qed.

Lemma ltb_irrefl (a : string) : String.ltb a a = false.
Proof. unfold String.ltb. rewrite compare_refl. reflexivity. Qed.

End StringOrder.

(** ** The overlap predicate and the window filter *)

Section Overlap.

Lemma datesOverlap_sym (a1 a2 b1 b2 : string) :
  datesOverlap a1 a2 b1 b2 = datesOverlap b1 b2 a1 a2.
Proof. unfold datesOverlap, Js.gt. apply andb_comm. Qed.

Lemma date_overlap_sym (a1 a2 b1 b2 : date) :
  date_overlap a1 a2 b1 b2 = date_overlap b1 b2 a1 a2.
Proof. unfold date_overlap. apply andb_comm. Qed.

(** The SQL window filter on a row is the overlap test of the row's
    interval and the window, on dates. *)
Lemma window_filter_date_overlap (s t from to : date) :
  Sql.window_filter s t from to = date_overlap s t from to.
Proof.
  unfold Sql.window_filter, Sql.le, Sql.ge, date_overlap.
  destruct (Z.leb_spec t from), (Z.leb_spec to s), (Z.ltb_spec s to),
    (Z.ltb_spec from t); simpl; try reflexivity; lia.
Qed.

End Overlap.

(** ** Rows in the order of a scan *)

Section Arrange.

Context {A : Type}.

Lemma In_insert_ranked (x y : nat * A) (l : list (nat * A)) :
  In y (insert_ranked x l) <-> y = x \/ In y l.
Proof.
  induction l as [|z l IH]; simpl; [intuition|].
  destruct (fst x <=? fst z)%nat; simpl; [intuition|].
  rewrite IH. intuition.
Qed.

Lemma length_insert_ranked (x : nat * A) (l : list (nat * A)) :
  length (insert_ranked x l) = S (length l).
Proof.
  induction l as [|z l IH]; simpl; [reflexivity|].
  destruct (fst x <=? fst z)%nat; simpl; [reflexivity|]. rewrite IH. reflexivity.
Qed.

Lemma In_ranked (rank : nat -> nat) (l : list A) (i : nat) (a : A) :
  In a (map snd (ranked rank i l)) <-> In a l.
Proof.
  revert i. induction l as [|b l IH]; intros i; simpl; [reflexivity|].
  rewrite in_map_iff. split.
  - intros ([n a'] & Ha & Hin). simpl in Ha. subst a'.
    apply In_insert_ranked in Hin. destruct Hin as [Heq | Hin].
    + injection Heq as _ ->. left. reflexivity.
    + right. apply (IH (S i)). apply in_map_iff. exists (n, a). auto.
  - intros [-> | Hin].
    + exists (rank i, a). split; [reflexivity|]. apply In_insert_ranked. left. reflexivity.
    + apply (IH (S i)) in Hin. apply in_map_iff in Hin.
      destruct Hin as ([n a'] & Ha & Hin). simpl in Ha. subst a'.
      exists (n, a). split; [reflexivity|]. apply In_insert_ranked. right. exact Hin.
Qed.

(** A scan returns each row of the table, in some order. *)
Lemma In_arrange (rank : nat -> nat) (l : list A) (a : A) :
  In a (arrange rank l) <-> In a l.
Proof. apply In_ranked. Qed.

Lemma length_arrange (rank : nat -> nat) (l : list A) :
  length (arrange rank l) = length l.
Proof.
  unfold arrange. rewrite length_map. generalize 0%nat.
  induction l as [|a l IH]; intros i; simpl; [reflexivity|].
  rewrite length_insert_ranked, IH. reflexivity.
Qed.

Lemma existsb_arrange (rank : nat -> nat) (P : A -> bool) (l : list A) :
  existsb P (arrange rank l) = existsb P l.
Proof.
  destruct (existsb P l) eqn:H.
  - apply existsb_exists in H. destruct H as (a & Hin & Ha).
    apply existsb_exists. exists a. split; [apply In_arrange; exact Hin | exact Ha].
  - destruct (existsb P (arrange rank l)) eqn:H'; [|reflexivity].
    apply existsb_exists in H'. destruct H' as (a & Hin & Ha).
    apply In_arrange in Hin.
    assert (Ht : existsb P l = true) by (apply existsb_exists; eauto).
    rewrite Ht in H. discriminate H.
Qed.

Lemma insert_ranked_permutation (x : nat * A) (l : list (nat * A)) :
  Permutation (insert_ranked x l) (x :: l).
Proof.
  induction l as [|z l IH]; simpl; [reflexivity|].
  destruct (fst x <=? fst z)%nat; [reflexivity|].
  rewrite IH. apply perm_swap.
Qed.

(** A scan returns the rows of the table, each as often as it is there. *)
Lemma arrange_permutation (rank : nat -> nat) (l : list A) :
  Permutation (arrange rank l) l.
Proof.
  unfold arrange. generalize 0%nat.
  induction l as [|a l IH]; intros i; simpl; [reflexivity|].
  rewrite insert_ranked_permutation. simpl. rewrite IH. reflexivity.
Qed.

(** With one rank for all positions the rows come in table order. *)
Lemma arrange_constant (n : nat) (l : list A) : arrange (fun _ => n) l = l.
Proof.
  unfold arrange. generalize 0%nat.
  induction l as [|a l IH]; intros i; simpl; [reflexivity|].
  specialize (IH (S i)).
  destruct (ranked (fun _ => n) (S i) l) as [|[m b] rest] eqn:Hr; simpl in *.
  - rewrite <- IH. reflexivity.
  - assert (Hm : m = n).
    { assert (Hall : forall k (l' : list A) x, In x (ranked (fun _ => n) k l') -> fst x = n).
      { intros k l'. revert k. induction l' as [|c l' IHl]; intros k x; simpl; [tauto|].
        intros Hin. apply In_insert_ranked in Hin. destruct Hin as [-> | Hin];
          [reflexivity | eapply IHl; exact Hin]. }
      apply (Hall (S i) l (m, b)). rewrite Hr. left. reflexivity. }
    subst m. rewrite Nat.leb_refl. simpl. rewrite <- IH. reflexivity.
Qed.

End Arrange.

(** ** ISO dates: the order of the strings is the order of the dates *)

Section IsoOrder.

Lemma digit_bounds (c : ascii) (v : Z) :
  Pg.digit c = Some v -> (0 <= v <= 9)%Z /\ Z.of_N (N_of_ascii c) = (v + 48)%Z.
Proof.
  unfold Pg.digit.
  destruct (Z.leb_spec 48 (Z.of_N (N_of_ascii c))),
    (Z.leb_spec (Z.of_N (N_of_ascii c)) 57); simpl; try discriminate.
  intros H'. injection H' as <-. lia.
Qed.

Lemma digit_compare (c c' : ascii) (v v' : Z) :
  Pg.digit c = Some v -> Pg.digit c' = Some v' ->
  Ascii.compare c c' = Z.compare v v'.
Proof.
  intros H H'. apply digit_bounds in H, H'.
  destruct H as [_ H], H' as [_ H'].
  unfold Ascii.compare. rewrite <- N2Z.inj_compare, H, H'.
  rewrite !(Z.add_comm _ 48). apply Z.add_compare_mono_l.
Qed.

Lemma ascii_eqb_compare (c c' : ascii) :
  Ascii.eqb c "-" = true -> Ascii.eqb c' "-" = true -> Ascii.compare c c' = Eq.
Proof.
  intros H H'. apply Ascii.eqb_eq in H, H'. subst. reflexivity.
Qed.

(** On zero-padded ISO dates the order of the strings is the order of the
    dates, as the comment of [datesOverlap] says. *)
Lemma iso_order (x y : string) (a b : date) :
  Pg.iso_value x = Some a -> Pg.iso_value y = Some b ->
  String.ltb x y = (a <? b)%Z.
Proof.
  unfold Pg.iso_value.
  do 10 (destruct x as [|? x]; [discriminate|]). destruct x; [|discriminate].
  do 10 (destruct y as [|? y]; [discriminate|]). destruct y; [|discriminate].
  repeat match goal with
         | |- context [Ascii.eqb ?c "-"] =>
             let E := fresh "E" in destruct (Ascii.eqb c "-") eqn:E; simpl; [|discriminate]
         | |- context [Pg.digit ?c] =>
             let D := fresh "D" in destruct (Pg.digit c) eqn:D; [|discriminate]
         end.
  intros Ha Hb. injection Ha as <-. injection Hb as <-.
  unfold String.ltb. simpl.
  repeat match goal with
         | D1 : Pg.digit ?c = Some _, D2 : Pg.digit ?c' = Some _
           |- context [Ascii.compare ?c ?c'] =>
             rewrite (digit_compare c c' _ _ D1 D2)
         | E1 : Ascii.eqb ?c "-" = true, E2 : Ascii.eqb ?c' "-" = true
           |- context [Ascii.compare ?c ?c'] =>
             rewrite (ascii_eqb_compare c c' E1 E2)
         end.
  repeat match goal with
         | D : Pg.digit _ = Some _ |- _ => apply digit_bounds in D; destruct D as [D _]
         end.
  repeat match goal with
         | |- context [Z.compare ?u ?v] => destruct (Z.compare_spec u v); [subst|..]
         end;
    match goal with
    | |- _ = (?u <? ?v)%Z => destruct (Z.ltb_spec u v); try reflexivity; lia
    end.
Qed.

(** For ISO dates that PostgreSQL reads as written, [start < end] on the
    strings puts the dates in order. *)
Lemma iso_in_order (e : env) (s t : string) :
  Js.lt s t = true -> reads_iso e [s; t] = true -> (date_in e s < date_in e t)%Z.
Proof.
  unfold reads_iso. simpl. intros Hlt H.
  destruct (Pg.iso_value s) as [a|] eqn:Ha; [|discriminate H].
  destruct (Pg.iso_value t) as [b|] eqn:Hb;
    [|rewrite andb_false_r in H; discriminate H].
  rewrite andb_true_r in H. apply andb_true_iff in H. destruct H as [H1 H2].
  apply Z.eqb_eq in H1, H2. rewrite H1, H2. apply Z.ltb_lt.
  rewrite <- (iso_order s t a b Ha Hb). exact Hlt.
Qed.

End IsoOrder.

(** C5 (as amended).  The overlap predicate is a total boolean function
    that is true exactly when [a1 < b2] and [a2 > b1]; touching intervals
    ([a2 = b1]) do not overlap; a zero-length interval [[a, a)] overlaps
    [[b1, b2)] exactly when [b1 < a < b2], so it overlaps no interval that
    it touches and no zero-length interval at its own point. *)
Theorem datesOverlap_spec (a1 a2 b1 b2 : string) :
  (datesOverlap a1 a2 b1 b2 = true <-> Js.lt a1 b2 = true /\ Js.gt a2 b1 = true)
  /\ datesOverlap a1 b1 b1 b2 = false
  /\ (datesOverlap a1 a1 b1 b2 = true <-> Js.lt b1 a1 = true /\ Js.lt a1 b2 = true)
  /\ datesOverlap a1 a1 a1 b2 = false
  /\ datesOverlap a1 a1 b1 a1 = false.
Proof.
  unfold datesOverlap, Js.gt, Js.lt.
  split; [apply andb_true_iff|].
  split; [rewrite ltb_irrefl; apply andb_false_r|].
  split; [rewrite andb_true_iff; tauto|].
  rewrite (ltb_irrefl a1). split; [apply andb_false_r | reflexivity].
Qed.

(** C5, the claim as written fails: the zero-length interval
    [[2025-09-11, 2025-09-11)] overlaps [[2025-09-10, 2025-09-12)]. *)
Lemma zero_length_interval_overlaps :
  datesOverlap "2025-09-11" "2025-09-11" "2025-09-10" "2025-09-12" = true.
Proof. reflexivity. Qed.




(** ** The admission transaction, case by case *)

Section Admission.

Variable e : env.
Variable body : Body.t.
Variable d : db.

Lemma filter_conflict_where (r : string) (from to : date) (l : list Booking.t) :
  List.filter (conflict_where r from to) l
  = List.filter (overlaps_window from to)
      (List.filter (fun b => of_room r b && active b) l).
Proof.
  induction l as [|b l IH]; simpl; [reflexivity|].
  unfold conflict_where at 1. rewrite window_filter_date_overlap.
  unfold of_room, active.
  destruct (Sql.eq_param (Booking.room_id b) r); simpl; [|exact IH].
  destruct (Sql.status_active (Booking.status b)); simpl.
  - unfold overlaps_window at 1. rewrite andb_true_r.
    destruct (date_overlap _ _ from to); rewrite IH; reflexivity.
  - rewrite andb_false_r. exact IH.
Qed.

(** The conflict query returns one row per conflicting booking. *)
Lemma select_conflicts_rows (r : string) (from to : date) (c : conn) :
  length (returned e c
            (map (fun b => (Booking.id b, Booking.status b))
               (List.filter (conflict_where r from to) (bookings d))))
  = length (conflicts r from to d).
Proof.
  unfold returned. rewrite length_arrange, length_map, filter_conflict_where.
  reflexivity.
Qed.

Lemma admission_missing :
  present (Body.property_id body) = None
  \/ present (Body.room_id body) = None
  \/ present (Body.start_date body) = None
  \/ present (Body.end_date body) = None
  \/ present (Body.customer body) = None ->
  admission e body d = (Send 400 (Error "missing fields"), d).
Proof.
  unfold admission, serve, post_bookings.
  intros H.
  destruct (present (Body.property_id body)); [|reflexivity].
  destruct (present (Body.room_id body)); [|reflexivity].
  destruct (present (Body.start_date body)); [|reflexivity].
  destruct (present (Body.end_date body)); [|reflexivity].
  destruct (present (Body.customer body)); [|reflexivity].
  destruct H as [H|[H|[H|[H|H]]]]; discriminate H.
Qed.

Variables property_id room_id start_date end_date : string.
Variable customer : CustomerIn.t.
Hypothesis Hwf : well_formed body property_id room_id start_date end_date customer.

Lemma post_bookings_well_formed :
  post_bookings e body
  = if negb (Js.lt start_date end_date) then
      ret (Send 400 (Error "start_date must be before end_date"))
    else
      exec pool_connect e;
      try_catch
        (admission_try e body property_id room_id start_date end_date customer)
        (admission_catch e).
Proof.
  destruct Hwf as (H1 & H2 & H3 & H4 & H5).
  unfold post_bookings. rewrite H1, H2, H3, H4, H5. reflexivity.
Qed.

Lemma admission_invalid_range :
  Js.lt start_date end_date = false ->
  admission e body d = (Send 400 (Error "start_date must be before end_date"), d).
Proof.
  intros Hlt. unfold admission, serve.
  rewrite post_bookings_well_formed, Hlt. reflexivity.
Qed.

#[local] Arguments Nat.ltb : simpl never.

(** Every run on a well-formed body with [start_date < end_date] ends in
    one of four ways; only the last changes the committed state. *)
Lemma admission_valid_cases :
  Js.lt start_date end_date = true ->
  admission e body d = (Raised, d)
  \/ admission e body d = (Send 500 (Error "internal_error"), d)
  \/ (conflicts room_id (date_in e start_date) (date_in e end_date) d <> []
      /\ admission e body d = (Send 409 (Error "room not available for given dates"), d))
  \/ (conflicts room_id (date_in e start_date) (date_in e end_date) d = []
      /\ constraints_hold e property_id room_id customer d = true
      /\ admission e body d
         = (Send 201 (BookingCreated (new_booking_id e customer) (new_status body)),
            committed_state e body property_id room_id start_date end_date customer d)).
Proof.
  intros Hlt. unfold admission, serve.
  rewrite post_bookings_well_formed, Hlt.
  unfold admission_try, admission_catch, customer_id_for, try_catch, bind, ret, throw,
    pool_connect, sql_begin, sql_advisory_xact_lock, sql_select_conflicts,
    sql_rollback, sql_commit, sql_insert_customer, sql_insert_booking, uuid,
    statement, connect, view, write.
  simpl.
  destruct (fails e 0); [left; reflexivity|]. simpl.
  destruct (fails e 1); simpl. { destruct (fails e 2); simpl; auto. }
  destruct (fails e 2); simpl. { destruct (fails e 3); simpl; auto. }
  destruct (fails e 3); simpl. { destruct (fails e 4); simpl; auto. }
  rewrite select_conflicts_rows.
  unfold committed_state, constraints_hold, new_booking, new_customers,
    new_customer_id, new_booking_id, new_status.
  destruct (conflicts room_id (date_in e start_date) (date_in e end_date) d) as [|b0 l0] eqn:Hc; simpl.
  - destruct (present (CustomerIn.id customer)) as [cid|] eqn:Hid; simpl.
    + destruct (fails e 4); simpl. { destruct (fails e 5); simpl; auto. }
      rewrite app_nil_r.
      destruct (has_key Booking.id (bookings d) (uuidv4 e 0)); simpl.
      { destruct (fails e 5); simpl; auto. }
      destruct (has_key Property.id (properties d) property_id); simpl.
      2:{ destruct (fails e 5); simpl; auto. }
      destruct (has_key Room.id (rooms d) room_id); simpl.
      2:{ destruct (fails e 5); simpl; auto. }
      destruct (has_key Customer.id (customers d) cid); simpl.
      2:{ destruct (fails e 5); simpl; auto. }
      destruct (fails e 5); simpl. { destruct (fails e 6); simpl; auto. }
      right. right. right. repeat split; reflexivity.
    + destruct (fails e 4); simpl. { destruct (fails e 5); simpl; auto. }
      destruct (has_key Customer.id (customers d) (uuidv4 e 0)); simpl.
      { destruct (fails e 5); simpl; auto. }
      destruct (fails e 5); simpl. { destruct (fails e 6); simpl; auto. }
      destruct (has_key Booking.id (bookings d) (uuidv4 e 1)); simpl.
      { destruct (fails e 6); simpl; auto. }
      destruct (has_key Property.id (properties d) property_id); simpl.
      2:{ destruct (fails e 6); simpl; auto. }
      destruct (has_key Room.id (rooms d) room_id); simpl.
      2:{ destruct (fails e 6); simpl; auto. }
      destruct (has_key Customer.id _ (uuidv4 e 0)); simpl.
      2:{ destruct (fails e 6); simpl; auto. }
      destruct (fails e 6); simpl. { destruct (fails e 7); simpl; auto. }
      right. right. right. repeat split; reflexivity.
  - destruct (fails e 4); simpl. { destruct (fails e 5); simpl; auto. }
    right. right. left. split; [discriminate | reflexivity].
Qed.

(** When no call fails for outside reasons the run is determined by the
    conflict check and the schema's constraints. *)
Lemma admission_no_fault :
  (forall n, fails e n = false) ->
  Js.lt start_date end_date = true ->
  admission e body d
  = match conflicts room_id (date_in e start_date) (date_in e end_date) d with
    | [] =>
        if constraints_hold e property_id room_id customer d then
          (Send 201 (BookingCreated (new_booking_id e customer) (new_status body)),
           committed_state e body property_id room_id start_date end_date customer d)
        else (Send 500 (Error "internal_error"), d)
    | _ :: _ => (Send 409 (Error "room not available for given dates"), d)
    end.
Proof.
  intros Hok Hlt. unfold admission, serve.
  rewrite post_bookings_well_formed, Hlt.
  unfold admission_try, admission_catch, customer_id_for, try_catch, bind, ret, throw,
    pool_connect, sql_begin, sql_advisory_xact_lock, sql_select_conflicts,
    sql_rollback, sql_commit, sql_insert_customer, sql_insert_booking, uuid,
    statement, connect, view, write.
  repeat (first [rewrite Hok | progress simpl]).
  rewrite select_conflicts_rows.
  unfold committed_state, constraints_hold, new_booking, new_customers,
    new_customer_id, new_booking_id, new_status.
  destruct (conflicts room_id (date_in e start_date) (date_in e end_date) d) as [|b0 l0]; simpl;
    rewrite ?Hok; simpl; [|reflexivity].
  destruct (present (CustomerIn.id customer)) as [cid|]; simpl; rewrite ?Hok; simpl.
  - rewrite app_nil_r.
    destruct (has_key Booking.id (bookings d) (uuidv4 e 0)); simpl;
      rewrite ?Hok; simpl; [reflexivity|].
    destruct (has_key Property.id (properties d) property_id); simpl;
      rewrite ?Hok; simpl; [|reflexivity].
    destruct (has_key Room.id (rooms d) room_id); simpl;
      rewrite ?Hok; simpl; [|reflexivity].
    destruct (has_key Customer.id (customers d) cid); simpl;
      rewrite ?Hok; simpl; reflexivity.
  - destruct (has_key Customer.id (customers d) (uuidv4 e 0)); simpl;
      rewrite ?Hok; simpl; [reflexivity|].
    destruct (has_key Booking.id (bookings d) (uuidv4 e 1)); simpl;
      rewrite ?Hok; simpl; [reflexivity|].
    destruct (has_key Property.id (properties d) property_id); simpl;
      rewrite ?Hok; simpl; [|reflexivity].
    destruct (has_key Room.id (rooms d) room_id); simpl;
      rewrite ?Hok; simpl; [|reflexivity].
    destruct (has_key Customer.id _ (uuidv4 e 0)); simpl;
      rewrite ?Hok; simpl; reflexivity.
Qed.

End Admission.


(** ** Consequences for every request *)

Section Outcomes.

Variable e : env.
Variable body : Body.t.
Variable d : db.

Lemma fields_cases :
  (present (Body.property_id body) = None
   \/ present (Body.room_id body) = None
   \/ present (Body.start_date body) = None
   \/ present (Body.end_date body) = None
   \/ present (Body.customer body) = None)
  \/ exists property_id room_id start_date end_date customer,
      well_formed body property_id room_id start_date end_date customer.
Proof.
  unfold well_formed.
  destruct (present (Body.property_id body)) as [p|]; [|auto].
  destruct (present (Body.room_id body)) as [r|]; [|auto].
  destruct (present (Body.start_date body)) as [s|]; [|auto].
  destruct (present (Body.end_date body)) as [t|]; [|auto 6].
  destruct (present (Body.customer body)) as [c|]; [|auto 6].
  right. exists p, r, s, t, c. auto.
Qed.

(** A run either fails and leaves the committed state as it was, or
    commits on a well-formed body whose window met no conflict. *)
Lemma admission_outcome :
  (exists f, failure_of (fst (admission e body d)) = Some f
             /\ snd (admission e body d) = d)
  \/ (exists property_id room_id start_date end_date customer,
        well_formed body property_id room_id start_date end_date customer
        /\ Js.lt start_date end_date = true
        /\ conflicts room_id (date_in e start_date) (date_in e end_date) d = []
        /\ constraints_hold e property_id room_id customer d = true
        /\ admission e body d
           = (Send 201 (BookingCreated (new_booking_id e customer) (new_status body)),
              committed_state e body property_id room_id start_date end_date
                customer d)).
Proof.
  destruct fields_cases as [Hmiss | (p & r & s & t & c & Hwf)].
  - left. rewrite (admission_missing e body d Hmiss). exists MissingField. auto.
  - destruct (Js.lt s t) eqn:Hlt.
    + destruct (admission_valid_cases e body d p r s t c Hwf Hlt)
        as [H | [H | [[_ H] | (Hc & Hk & H)]]].
      * left. rewrite H. exists StorageFailure. auto.
      * left. rewrite H. exists StorageFailure. auto.
      * left. rewrite H. exists RoomUnavailable. auto.
      * right. exists p, r, s, t, c. auto.
    + left. rewrite (admission_invalid_range e body d p r s t c Hwf Hlt).
      exists InvalidRange. auto.
Qed.

End Outcomes.

(** ** Lists of bookings *)

Section Pairwise.

Context {A : Type}.
Variable ok : A -> A -> bool.

Lemma pairwise_snoc (l : list A) (x : A) :
  pairwise ok (l ++ [x]) = pairwise ok l && forallb (fun a => ok a x) l.
Proof.
  induction l as [|a l IH]; simpl; [reflexivity|].
  rewrite forallb_app, IH. simpl.
  destruct (forallb (ok a) l), (ok a x), (pairwise ok l); reflexivity.
Qed.

Lemma filter_nil_forallb (P : A -> bool) (l : list A) :
  List.filter P l = [] -> forallb (fun a => negb (P a)) l = true.
Proof.
  induction l as [|a l IH]; simpl; [reflexivity|].
  destruct (P a); [discriminate|]. exact IH.
Qed.

End Pairwise.

(** ** The non-overlap invariant *)

Section Invariant.

Lemma active_new_booking e body p r s t c :
  active (new_booking e body p r s t c) = true.
Proof.
  unfold active, new_booking, new_status. simpl.
  destruct (Js.truthy (Body.hold body)); reflexivity.
Qed.

Lemma active_bookings_committed_state e body p r s t c d room :
  active_bookings room (committed_state e body p r s t c d)
  = active_bookings room d
    ++ (if String.eqb r room then [new_booking e body p r s t c] else []).
Proof.
  unfold active_bookings, committed_state. simpl bookings.
  rewrite List.filter_app. f_equal. simpl.
  rewrite active_new_booking, andb_true_r.
  unfold of_room. simpl. reflexivity.
Qed.

End Invariant.

(** C1.  For every room, the admission transaction preserves the invariant
    that the room's bookings with status hold or confirmed are pairwise
    non-overlapping: if it holds of the state before an admission, whatever
    the admission's outcome, it holds of the state after. *)
Theorem admission_preserves_room_invariant (e : env) (body : Body.t) (d : db) (room : string) :
  room_invariant room d = true ->
  room_invariant room (snd (admission e body d)) = true.
Proof.
  intros Hinv.
  destruct (admission_outcome e body d)
    as [(f & _ & Hd) | (p & r & s & t & c & _ & _ & Hc & _ & H)].
  - rewrite Hd. exact Hinv.
  - rewrite H. simpl snd. unfold room_invariant in *.
    rewrite active_bookings_committed_state.
    destruct (String.eqb r room) eqn:Hr.
    + apply String.eqb_eq in Hr. subst room.
      rewrite pairwise_snoc, Hinv. simpl.
      apply (filter_nil_forallb _ _ Hc).
    + rewrite app_nil_r. exact Hinv.
Qed.

Lemma admission_preserves_room_invariant_witness :
  room_invariant "R" Sample.d0 = true
  /\ room_invariant "R" (snd (admission Sample.e0 Sample.touching Sample.d0)) = true.
Proof.
  split; [reflexivity|].
  apply (admission_preserves_room_invariant Sample.e0 Sample.touching Sample.d0 "R").
  reflexivity.
Defined.

(** ** Rejection and success *)

Section Conflict.

Variable d : db.
Variable room : string.
Variables from to : date.

Lemma of_room_true (b : Booking.t) :
  of_room room b = true <-> Booking.room_id b = Some room.
Proof.
  unfold of_room, Sql.eq_param.
  destruct (Booking.room_id b) as [k|]; split; intros H; try discriminate.
  - apply String.eqb_eq in H. subst. reflexivity.
  - injection H as ->. apply String.eqb_refl.
Qed.

Lemma In_conflicts (b : Booking.t) :
  In b (conflicts room from to d)
  <-> In b (bookings d) /\ Booking.room_id b = Some room /\ active b = true
      /\ date_overlap (Booking.start_date b) (Booking.end_date b) from to = true.
Proof.
  unfold conflicts, active_bookings, overlaps_window.
  rewrite !filter_In, andb_true_iff, of_room_true. tauto.
Qed.

Lemma conflicts_nil : conflicts room from to d = [] <-> ~ busy d room from to.
Proof.
  split.
  - intros H (b & Hb). apply In_conflicts in Hb. rewrite H in Hb. exact Hb.
  - intros H. destruct (conflicts room from to d) as [|b l] eqn:Hc; [reflexivity|].
    exfalso. apply H. exists b. apply In_conflicts. rewrite Hc. left. reflexivity.
Qed.

Lemma conflicts_cons : conflicts room from to d <> [] <-> busy d room from to.
Proof.
  split.
  - intros H. destruct (conflicts room from to d) as [|b l] eqn:Hc; [congruence|].
    exists b. apply In_conflicts. rewrite Hc. left. reflexivity.
  - intros Hb Hc. apply conflicts_nil in Hc. exact (Hc Hb).
Qed.

End Conflict.



(** Absent outside faults and constraint violations there is no storage
    failure: the hypothesis of C3 is met on every such run. *)
Lemma admission_storage_ok (e : env) (body : Body.t) (d : db)
    (property_id room_id start_date end_date : string) (customer : CustomerIn.t) :
  well_formed body property_id room_id start_date end_date customer ->
  Js.lt start_date end_date = true ->
  (forall n, fails e n = false) ->
  constraints_hold e property_id room_id customer d = true ->
  storage_failed (fst (admission e body d)) = false.
Proof.
  intros Hwf Hlt Hok Hk.
  rewrite (admission_no_fault e body d _ _ _ _ _ Hwf Hok Hlt), Hk.
  destruct (conflicts room_id (date_in e start_date) (date_in e end_date) d); reflexivity.
Qed.

(** C4.  On every failure path of the admission (missing fields, invalid
    range, RoomUnavailable, storage failure) the committed state is the one
    before the request: no booking row and no customer row becomes visible,
    the active bookings of every room are unchanged, and an availability
    query answers after the failed admission as it did before. *)
Theorem admission_failure_leaves_no_row (e : env) (body : Body.t) (d : db) (f : failure) :
  failure_of (fst (admission e body d)) = Some f ->
  snd (admission e body d) = d
  /\ bookings (snd (admission e body d)) = bookings d
  /\ customers (snd (admission e body d)) = customers d
  /\ (forall room, active_bookings room (snd (admission e body d)) = active_bookings room d)
  /\ (forall e' q, availability e' q (snd (admission e body d)) = availability e' q d).
Proof.
  intros Hf.
  assert (Hd : snd (admission e body d) = d).
  { destruct (admission_outcome e body d)
      as [(f' & _ & Hd) | (p & r & s & t & c & _ & _ & _ & _ & H)]; [exact Hd|].
    rewrite H in Hf. discriminate Hf. }
  rewrite Hd. auto.
Qed.

Lemma admission_failure_leaves_no_row_witness :
  snd (admission Sample.e0 Sample.overlapping Sample.d0) = Sample.d0
  /\ bookings (snd (admission Sample.e0 Sample.overlapping Sample.d0)) = bookings Sample.d0
  /\ customers (snd (admission Sample.e0 Sample.overlapping Sample.d0)) = customers Sample.d0
  /\ (forall room, active_bookings room (snd (admission Sample.e0 Sample.overlapping Sample.d0))
                   = active_bookings room Sample.d0)
  /\ (forall e' q, availability e' q (snd (admission Sample.e0 Sample.overlapping Sample.d0))
                   = availability e' q Sample.d0).
Proof.
  apply (admission_failure_leaves_no_row Sample.e0 Sample.overlapping Sample.d0 RoomUnavailable).
  reflexivity.
Defined.



(** C10 (as amended).  On every successful admission the created booking's
    [total_amount] is null when the field is omitted or is [0], and is the
    given amount otherwise; its [currency] is ['USD'] when the field is
    omitted or is the empty string, and is the given currency otherwise. *)
Theorem admission_monetary_fields (e : env) (body : Body.t) (d : db) (id status : string) :
  fst (admission e body d) = Send 201 (BookingCreated id status) ->
  exists b : Booking.t,
    bookings (snd (admission e body d)) = bookings d ++ [b]
    /\ Booking.id b = id
    /\ Booking.total_amount b
       = match Body.total_amount body with
         | Some n => if (n =? 0)%Z then None else Some n
         | None => None
         end
    /\ Booking.currency b
       = match Body.currency body with
         | Some c => if String.eqb c "" then Some "USD" else Some c
         | None => Some "USD"
         end.
Proof.
  intros Hr.
  destruct (admission_outcome e body d)
    as [(f & Hf & _) | (p & r & s & t & c & _ & _ & _ & _ & H)].
  { rewrite Hr in Hf. discriminate Hf. }
  rewrite H in *. simpl fst in Hr. simpl snd. injection Hr as Hid _.
  exists (new_booking e body p r s t c).
  split; [reflexivity|]. split; [exact Hid|].
  unfold new_booking. simpl. split.
  - unfold Js.or_null, Js.truthy, Js.truthy_option, Js.truthy, Js.truthy_number.
    destruct (Body.total_amount body) as [n|]; [|reflexivity].
    destruct (n =? 0)%Z; reflexivity.
  - unfold Js.or_else, Js.truthy, Js.truthy_string.
    destruct (Body.currency body) as [[|a cur]|]; reflexivity.
Qed.

Lemma admission_monetary_fields_witness :
  exists b : Booking.t,
    bookings (snd (admission Sample.e0 Sample.zero_amount Sample.d0)) = bookings Sample.d0 ++ [b]
    /\ Booking.id b = "0b5f1f0e-0000-4000-8000-000000000001"
    /\ Booking.total_amount b
       = match Body.total_amount Sample.zero_amount with
         | Some n => if (n =? 0)%Z then None else Some n
         | None => None
         end
    /\ Booking.currency b
       = match Body.currency Sample.zero_amount with
         | Some c => if String.eqb c "" then Some "USD" else Some c
         | None => Some "USD"
         end.
Proof.
  apply (admission_monetary_fields Sample.e0 Sample.zero_amount Sample.d0
           "0b5f1f0e-0000-4000-8000-000000000001" "hold").
  reflexivity.
Defined.

(** C10, the claim as written fails: an admission that supplies
    [total_amount = 0] and [currency = ''] succeeds and stores a null amount
    and the currency ['USD'], not the values given. *)
Lemma supplied_amount_not_stored :
  Body.total_amount Sample.zero_amount = Some 0%Z
  /\ Body.currency Sample.zero_amount = Some ""
  /\ fst (admission Sample.e0 Sample.zero_amount Sample.d0)
     = Send 201 (BookingCreated "0b5f1f0e-0000-4000-8000-000000000001" "hold")
  /\ map (fun b => (Booking.id b, Booking.total_amount b, Booking.currency b))
         (bookings (snd (admission Sample.e0 Sample.zero_amount Sample.d0)))
     = [("B", None, None);
        ("0b5f1f0e-0000-4000-8000-000000000001", None, Some "USD")].
Proof. repeat split; reflexivity. Qed.

(** ** The availability query *)

Section Availability.

Lemma blockedByRoom_fold (rows : list BookingRow.t) (m : gmap string bool) (k : string) :
  fold_left (fun m b => <[property_key (BookingRow.room_id b) := true]> m) rows m !! k
  = if existsb (fun b => String.eqb (property_key (BookingRow.room_id b)) k) rows
    then Some true else m !! k.
Proof.
  revert m. induction rows as [|b rows IH]; intros m; simpl; [reflexivity|].
  rewrite IH.
  destruct (existsb _ rows); [rewrite orb_true_r; reflexivity|].
  rewrite orb_false_r.
  destruct (String.eqb (property_key (BookingRow.room_id b)) k) eqn:Hk.
  - apply String.eqb_eq in Hk. subst k. apply lookup_insert_eq.
  - apply String.eqb_neq in Hk. apply lookup_insert_ne. exact Hk.
Qed.

Lemma blockedByRoom_lookup (rows : list BookingRow.t) (k : string) :
  Js.truthy (blockedByRoom rows !! k)
  = existsb (fun b => String.eqb (property_key (BookingRow.room_id b)) k) rows.
Proof.
  unfold blockedByRoom. rewrite blockedByRoom_fold, lookup_empty.
  destruct (existsb _ rows); reflexivity.
Qed.

Lemma existsb_map_filter {A B} (g : A -> B) (P : A -> bool) (Q : B -> bool) (l : list A) :
  existsb Q (map g (List.filter P l)) = existsb (fun a => P a && Q (g a)) l.
Proof.
  induction l as [|a l IH]; simpl; [reflexivity|].
  destruct (P a); simpl; rewrite IH; reflexivity.
Qed.

Lemma filter_map_filter {A B} (g : A -> B) (P : A -> bool) (Q : B -> bool) (l : list A) :
  List.filter Q (map g (List.filter P l))
  = map g (List.filter (fun a => P a && Q (g a)) l).
Proof.
  induction l as [|a l IH]; simpl; [reflexivity|].
  destruct (P a); simpl; [|exact IH].
  destruct (Q (g a)); simpl; rewrite IH; reflexivity.
Qed.

Variable e : env.
Variable q : Query.t.
Variable d : db.

(** A query with a missing or empty field is answered 400 before any
    read. *)
Lemma availability_missing :
  present (Query.propertyId q) = None
  \/ present (Query.from q) = None
  \/ present (Query.to q) = None ->
  serve (get_availability e q) d
  = (Send 400 (Error "propertyId, from, to required"), connect d).
Proof.
  unfold serve, get_availability. intros H.
  destruct (present (Query.propertyId q)); [|reflexivity].
  destruct (present (Query.from q)); [|reflexivity].
  destruct (present (Query.to q)); [|reflexivity].
  destruct H as [H|[H|H]]; discriminate H.
Qed.

Variables propertyId from to : string.
Hypothesis Hp : present (Query.propertyId q) = Some propertyId.
Hypothesis Hf : present (Query.from q) = Some from.
Hypothesis Ht : present (Query.to q) = Some to.

(** With the three fields present the handler makes its two reads,
    whatever the order of [from] and [to], and lists rooms. *)
Lemma availability_present :
  serve (get_availability e q) d
  = if fails e 0 then (Raised, mkconn d None [] 1 0)
    else if fails e 1 then (Raised, mkconn d None [] 2 0)
    else (Send 200 (Available from to (offered e d propertyId from to)),
          mkconn d None [] 2 0).
Proof.
  unfold serve, get_availability. rewrite Hp, Hf, Ht.
  unfold bind, ret, sql_select_rooms, sql_select_blocking, statement, connect, view,
    returned.
  simpl.
  destruct (fails e 0); [reflexivity|]. simpl.
  destruct (fails e 1); [reflexivity|]. simpl.
  unfold offered. do 3 f_equal. apply List.filter_ext. intros r. f_equal.
  rewrite blockedByRoom_lookup, existsb_arrange, existsb_map_filter. reflexivity.
Qed.

(** The list sent holds the rooms of [listed], in the order of the scan. *)
Lemma In_offered (row : RoomRow.t) :
  In row (offered e d propertyId from to)
  <-> In row (listed d propertyId (date_in e from) (date_in e to)).
Proof.
  unfold offered, listed.
  rewrite filter_In, In_arrange, !in_map_iff. split.
  - intros [(r & Hrow & Hin) Hkeep]. exists r. split; [exact Hrow|].
    apply filter_In in Hin. destruct Hin as [Hin Hp'].
    apply filter_In. split; [exact Hin|]. rewrite Hp'. subst row. exact Hkeep.
  - intros (r & Hrow & Hin). apply filter_In in Hin. destruct Hin as [Hin Hk].
    apply andb_true_iff in Hk. destruct Hk as [Hp' Hkeep].
    split; [|subst row; exact Hkeep].
    exists r. split; [exact Hrow|]. apply filter_In. auto.
Qed.

End Availability.

Section AvailabilityExact.

Variable d : db.
Variable property : string.
Variables from to : date.
Hypothesis Hcons : bookings_under_room_property d.

Lemma eq_param_true (col : option string) (p : string) :
  Sql.eq_param col p = true <-> col = Some p.
Proof.
  unfold Sql.eq_param. destruct col as [v|]; split; intros H; try discriminate.
  - apply String.eqb_eq in H. subst. reflexivity.
  - injection H as ->. apply String.eqb_refl.
Qed.

Lemma blocked_in_busy (r : Room.t) :
  In r (rooms d) -> Room.property_id r = Some property ->
  blocked_in d property from to (Room.id r) = true <-> busy d (Room.id r) from to.
Proof.
  intros Hr Hprop. unfold blocked_in, busy. rewrite existsb_exists.
  split.
  - intros (b & Hb & H).
    apply andb_true_iff in H. destruct H as [Hw Hk].
    apply String.eqb_eq in Hk.
    unfold blocking_where in Hw. rewrite window_filter_date_overlap in Hw.
    apply andb_true_iff in Hw. destruct Hw as [Hw Hact].
    apply andb_true_iff in Hw. destruct Hw as [_ Hov].
    destruct (Hcons b r Hb Hr Hact Hk) as [Hroom _].
    exists b. auto.
  - intros (b & Hb & Hroom & Hact & Hov).
    assert (Hk : property_key (Booking.room_id b) = Room.id r)
      by (rewrite Hroom; reflexivity).
    destruct (Hcons b r Hb Hr Hact Hk) as [_ Hbp].
    exists b. split; [exact Hb|].
    unfold blocking_where. rewrite window_filter_date_overlap, Hov.
    unfold active in Hact. rewrite Hact, Hk, String.eqb_refl, !andb_true_r.
    apply eq_param_true. rewrite Hbp. exact Hprop.
Qed.

(** On a state in which bookings are recorded under their room's property
    the handler lists exactly the rooms of the property that no active
    booking overlaps. *)
Lemma listed_exact (row : RoomRow.t) :
  In row (listed d property from to)
  <-> exists r, In r (rooms d)
                /\ Room.property_id r = Some property
                /\ row = RoomRow.mk (Room.id r) (Room.room_number r) (Room.room_type r)
                /\ ~ busy d (Room.id r) from to.
Proof.
  unfold listed. rewrite in_map_iff. split.
  - intros (r & Hrow & Hin). apply filter_In in Hin. destruct Hin as [Hin H].
    apply andb_true_iff in H. destruct H as [Hp Hnb].
    apply eq_param_true in Hp.
    exists r. repeat split; auto.
    intros Hbusy. apply (blocked_in_busy r Hin Hp) in Hbusy.
    rewrite Hbusy in Hnb. discriminate Hnb.
  - intros (r & Hin & Hp & Hrow & Hfree).
    exists r. split; [auto|]. apply filter_In. split; [exact Hin|].
    apply andb_true_iff. split; [apply eq_param_true; exact Hp|].
    destruct (blocked_in d property from to (Room.id r)) eqn:Hb; [|reflexivity].
    exfalso. apply Hfree. apply (blocked_in_busy r Hin Hp). exact Hb.
Qed.

End AvailabilityExact.

(** C7, at the failing input.  Room [R] of property [P] is admitted a
    booking under property [Q]; the admission succeeds, [R] then has an
    active booking on [[2025-09-20, 2025-09-22)], and the availability query
    of [P] for that window still lists [R]. *)
Theorem availability_lists_booked_room :
  fst (admission Sample.e0 Sample.other_property Sample.d0)
  = Send 201 (BookingCreated "0b5f1f0e-0000-4000-8000-000000000002" "confirmed")
  /\ busy Sample.d1 "R" (date_in Sample.e0 "2025-09-20") (date_in Sample.e0 "2025-09-22")
  /\ availability Sample.e0 Sample.booked_window Sample.d1
     = Send 200 (Available "2025-09-20" "2025-09-22"
                   [RoomRow.mk "R" "101" (Some "double")]).
Proof.
  split; [reflexivity|]. split.
  - exists (new_booking Sample.e0 Sample.other_property "Q" "R"
              "2025-09-20" "2025-09-22" Sample.guest).
    split; [vm_compute; right; left; reflexivity|].
    repeat split; reflexivity.
  - unfold availability.
    rewrite (availability_present Sample.e0 Sample.booked_window Sample.d1
               "P" "2025-09-20" "2025-09-22" eq_refl eq_refl eq_refl).
    reflexivity.
Qed.

(** C8, at the failing input.  For the inverted window
    [[2025-09-12, 2025-09-10)] the availability handler sends no error: it
    makes its two reads and answers 200 with a list of rooms. *)
Theorem availability_answers_inverted_window :
  Js.lt "2025-09-12" "2025-09-10" = false
  /\ serve (get_availability Sample.e0 Sample.inverted) Sample.d0
     = (Send 200 (Available "2025-09-12" "2025-09-10"
                    [RoomRow.mk "R" "101" (Some "double")]),
        mkconn Sample.d0 None [] 2 0)
  /\ failure_of (availability Sample.e0 Sample.inverted Sample.d0) = None.
Proof.
  unfold availability.
  rewrite (availability_present Sample.e0 Sample.inverted Sample.d0
             "P" "2025-09-12" "2025-09-10" eq_refl eq_refl eq_refl).
  repeat split; reflexivity.
Qed.

(** ** The end-to-end scenario of the spec

    Room [R] has a confirmed booking [[2025-09-10, 2025-09-12)]. *)

Example scenario_touching_admitted :
  fst (admission Sample.e0 Sample.touching Sample.d0)
  = Send 201 (BookingCreated "0b5f1f0e-0000-4000-8000-000000000002" "confirmed").
Proof. reflexivity. Qed.

Example scenario_overlapping_rejected :
  admission Sample.e0 Sample.overlapping Sample.d0
  = (Send 409 (Error "room not available for given dates"), Sample.d0).
Proof. reflexivity. Qed.

Example scenario_inverted_range_rejected :
  admission Sample.e0 (Sample.request "P" "2025-09-14" "2025-09-12") Sample.d0
  = (Send 400 (Error "start_date must be before end_date"), Sample.d0).
Proof. reflexivity. Qed.

Example scenario_availability_excludes :
  availability Sample.e0
    (Query.mk (Some "P") (Some "2025-09-11") (Some "2025-09-13")) Sample.d0
  = Send 200 (Available "2025-09-11" "2025-09-13" []).
Proof.
  unfold availability.
  rewrite (availability_present Sample.e0
             (Query.mk (Some "P") (Some "2025-09-11") (Some "2025-09-13")) Sample.d0
             "P" "2025-09-11" "2025-09-13" eq_refl eq_refl eq_refl).
  reflexivity.
Qed.

Example scenario_availability_includes :
  availability Sample.e0
    (Query.mk (Some "P") (Some "2025-09-12") (Some "2025-09-20")) Sample.d0
  = Send 200 (Available "2025-09-12" "2025-09-20"
                [RoomRow.mk "R" "101" (Some "double")]).
Proof.
  unfold availability.
  rewrite (availability_present Sample.e0
             (Query.mk (Some "P") (Some "2025-09-12") (Some "2025-09-20")) Sample.d0
             "P" "2025-09-12" "2025-09-20" eq_refl eq_refl eq_refl).
  reflexivity.
Qed.

(** * Further properties of the code *)

(** ** The order on strings *)

Section StringOrderTrans.

Lemma ascii_compare_refl (c : ascii) : Ascii.compare c c = Eq.
Proof. unfold Ascii.compare. apply N.compare_refl. Qed.

Lemma ascii_compare_lt_trans (x y z : ascii) :
  Ascii.compare x y = Lt -> Ascii.compare y z = Lt -> Ascii.compare x z = Lt.
Proof.
  unfold Ascii.compare. rewrite !N.compare_lt_iff. apply N.lt_trans.
Qed.

Lemma compare_lt_trans (a b c : string) :
  String.compare a b = Lt -> String.compare b c = Lt -> String.compare a c = Lt.
Proof.
  revert b c. induction a as [|x a IH]; intros [|y b] [|z c]; simpl;
    try discriminate; try reflexivity.
  destruct (Ascii.compare x y) eqn:Hxy; try discriminate;
    destruct (Ascii.compare y z) eqn:Hyz; try discriminate; intros H1 H2.
  - apply Ascii.compare_eq_iff in Hxy, Hyz. subst.
    rewrite ascii_compare_refl. eapply IH; eassumption.
  - apply Ascii.compare_eq_iff in Hxy. subst. rewrite Hyz. reflexivity.
  - apply Ascii.compare_eq_iff in Hyz. subst. rewrite Hxy. reflexivity.
  - rewrite (ascii_compare_lt_trans x y z Hxy Hyz). reflexivity.
Qed.

Lemma ltb_lt (a b : string) : String.ltb a b = true <-> String.compare a b = Lt.
Proof.
  unfold String.ltb. destruct (String.compare a b); split; congruence.
Qed.

Lemma leb_ltb_trans (a b c : string) :
  String.leb a b = true -> String.ltb b c = true -> String.ltb a c = true.
Proof.
  intros Hab Hbc. apply ltb_lt in Hbc. apply ltb_lt.
  unfold String.leb in Hab. destruct (String.compare a b) eqn:Hc; try discriminate.
  - apply String.compare_eq_iff in Hc. subst. exact Hbc.
  - eapply compare_lt_trans; eassumption.
Qed.

Lemma leb_refl (a : string) : String.leb a a = true.
Proof. rewrite leb_negb_ltb, ltb_irrefl. reflexivity. Qed.

Lemma ltb_leb (a b : string) : String.ltb a b = true -> String.leb a b = true.
Proof.
  intros H. apply ltb_lt in H. unfold String.leb. rewrite H. reflexivity.
Qed.

End StringOrderTrans.

(** X1.  Two non-empty intervals overlap, by [datesOverlap], exactly when
    some string lies in both half-open intervals. *)
Theorem datesOverlap_shared_point (a1 a2 b1 b2 : string) :
  Js.lt a1 a2 = true -> Js.lt b1 b2 = true ->
  (datesOverlap a1 a2 b1 b2 = true
   <-> exists x, Js.le a1 x = true /\ Js.lt x a2 = true
                 /\ Js.le b1 x = true /\ Js.lt x b2 = true).
Proof.
  intros Ha Hb. unfold datesOverlap, Js.gt, Js.le, Js.lt in *. split.
  - intros H. apply andb_true_iff in H. destruct H as [H1 H2].
    destruct (String.ltb a1 b1) eqn:Hab.
    + exists b1. rewrite <- !leb_negb_ltb. repeat split; auto using ltb_leb, leb_refl.
    + exists a1. rewrite <- (leb_negb_ltb a1 a1), Hab.
      repeat split; auto using leb_refl.
  - intros (x & H1 & H2 & H3 & H4). rewrite <- leb_negb_ltb in H1, H3.
    apply andb_true_iff. split.
    + exact (leb_ltb_trans a1 x b2 H1 H4).
    + exact (leb_ltb_trans b1 x a2 H3 H2).
Qed.

Lemma datesOverlap_shared_point_witness :
  datesOverlap "2025-09-10" "2025-09-12" "2025-09-11" "2025-09-13" = true
  <-> exists x, Js.le "2025-09-10" x = true /\ Js.lt x "2025-09-12" = true
                /\ Js.le "2025-09-11" x = true /\ Js.lt x "2025-09-13" = true.
Proof.
  apply (datesOverlap_shared_point "2025-09-10" "2025-09-12" "2025-09-11" "2025-09-13");
    reflexivity.
Defined.

(** X2.  The overlap test does not depend on the order of its two
    intervals, and an interval overlaps itself exactly when it is
    non-empty ([start < end]). *)
Theorem datesOverlap_symmetric_self (a1 a2 b1 b2 : string) :
  datesOverlap a1 a2 b1 b2 = datesOverlap b1 b2 a1 a2
  /\ datesOverlap a1 a2 a1 a2 = Js.lt a1 a2.
Proof.
  unfold datesOverlap, Js.gt. split; [apply andb_comm|].
  destruct (Js.lt a1 a2); reflexivity.
Qed.

(** ** How the admission handler leaves its connection *)

Section Exits.

Variable e : env.
Variable body : Body.t.
Variable d : db.

Lemma fst_admission :
  fst (admission e body d) = fst (serve (post_bookings e body) d).
Proof. unfold admission. destruct (serve (post_bookings e body) d). reflexivity. Qed.

Lemma snd_admission :
  snd (admission e body d) = committed (snd (serve (post_bookings e body) d)).
Proof. unfold admission. destruct (serve (post_bookings e body) d). reflexivity. Qed.

Lemma serve_missing :
  present (Body.property_id body) = None
  \/ present (Body.room_id body) = None
  \/ present (Body.start_date body) = None
  \/ present (Body.end_date body) = None
  \/ present (Body.customer body) = None ->
  serve (post_bookings e body) d = (Send 400 (Error "missing fields"), connect d).
Proof.
  unfold serve, post_bookings. intros H.
  destruct (present (Body.property_id body)); [|reflexivity].
  destruct (present (Body.room_id body)); [|reflexivity].
  destruct (present (Body.start_date body)); [|reflexivity].
  destruct (present (Body.end_date body)); [|reflexivity].
  destruct (present (Body.customer body)); [|reflexivity].
  destruct H as [H|[H|[H|[H|H]]]]; discriminate H.
Qed.

Variables property_id room_id start_date end_date : string.
Variable customer : CustomerIn.t.
Hypothesis Hwf : well_formed body property_id room_id start_date end_date customer.

Lemma serve_invalid_range :
  Js.lt start_date end_date = false ->
  serve (post_bookings e body) d
  = (Send 400 (Error "start_date must be before end_date"), connect d).
Proof.
  intros Hlt. unfold serve.
  rewrite (post_bookings_well_formed e body _ _ _ _ _ Hwf), Hlt. reflexivity.
Qed.

#[local] Arguments Nat.ltb : simpl never.

(** One step of the case analysis of a run: the next call fails or not,
    the next constraint holds or not. *)
Ltac run_step :=
  simpl;
  match goal with
  | |- context [fails e ?n] =>
      let F := fresh "F" in destruct (fails e n) eqn:F
  | |- context [(0 <? ?n)%nat] => destruct (0 <? n)%nat
  | |- context [has_key ?k ?rows ?x] => destruct (has_key k rows x)
  | |- context [present (CustomerIn.id customer)] =>
      destruct (present (CustomerIn.id customer))
  end.

Ltac escaped :=
  left; split; [reflexivity|];
  match goal with
  | F1 : fails e ?n = true |- _ => exists n; split; [lia | exact F1]
  end.

(** A run on a well-formed body with [start_date < end_date] either lets
    an exception escape, which takes a call that fails for an outside
    reason ([pool.connect], or the ROLLBACK of the [catch] block), or sends
    a reply other than 400 on a connection with no open transaction and no
    advisory lock. *)
Lemma serve_valid_exits :
  Js.lt start_date end_date = true ->
  (fst (serve (post_bookings e body) d) = Raised
   /\ exists n, (n <= 7)%nat /\ fails e n = true)
  \/ (exists code p,
        fst (serve (post_bookings e body) d) = Send code p
        /\ code <> 400%Z
        /\ pending (snd (serve (post_bookings e body) d)) = None
        /\ held (snd (serve (post_bookings e body) d)) = []
        /\ (3 <= sent (snd (serve (post_bookings e body) d)) <= 8)%nat
        /\ (drawn (snd (serve (post_bookings e body) d)) <= 2)%nat).
Proof.
  intros Hlt. unfold serve.
  rewrite (post_bookings_well_formed e body _ _ _ _ _ Hwf), Hlt.
  unfold admission_try, admission_catch, customer_id_for, try_catch, bind, ret, throw,
    pool_connect, sql_begin, sql_advisory_xact_lock, sql_select_conflicts,
    sql_rollback, sql_commit, sql_insert_customer, sql_insert_booking, uuid,
    statement, connect, view, write.
  repeat run_step; simpl;
    first [ escaped
          | right; do 2 eexists; split; [reflexivity|];
            split; [discriminate|]; simpl; repeat split; lia ].
Qed.

End Exits.

Section Replies.

Lemma present_some {A} `{Js.Truthy A} (x : option A) (a : A) :
  present x = Some a -> x = Some a /\ Js.truthy x = true.
Proof.
  unfold present, Js.or_null. destruct (Js.truthy x); [auto | discriminate].
Qed.

Lemma present_none {A} `{Js.Truthy A} (x : option A) :
  present x = None -> Js.truthy x = false.
Proof.
  unfold present, Js.or_null. destruct (Js.truthy x) eqn:Hx; [|reflexivity].
  intros ->. discriminate Hx.
Qed.

End Replies.

(** X3.  The 400 replies of [POST /bookings], completely.  A 400 reply is
    sent before any call to the pool or the database, so the connection is
    untouched, and its message is one of two.  It is 'missing fields'
    exactly when one of the five required fields is absent or empty.  It is
    'start_date must be before end_date' exactly when all five are there
    and [start_date < end_date], on the strings, is false. *)
Theorem post_bookings_client_error (e : env) (body : Body.t) (d : db) :
  (forall msg, fst (serve (post_bookings e body) d) = Send 400 (Error msg) ->
     snd (serve (post_bookings e body) d) = connect d
     /\ (msg = "missing fields" \/ msg = "start_date must be before end_date"))
  /\ (fst (serve (post_bookings e body) d) = Send 400 (Error "missing fields")
      <-> Js.truthy (Body.property_id body) && Js.truthy (Body.room_id body)
          && Js.truthy (Body.start_date body) && Js.truthy (Body.end_date body)
          && Js.truthy (Body.customer body) = false)
  /\ (fst (serve (post_bookings e body) d)
      = Send 400 (Error "start_date must be before end_date")
      <-> Js.truthy (Body.property_id body) && Js.truthy (Body.room_id body)
          && Js.truthy (Body.start_date body) && Js.truthy (Body.end_date body)
          && Js.truthy (Body.customer body) = true
          /\ exists s t, Body.start_date body = Some s /\ Body.end_date body = Some t
                         /\ Js.lt s t = false).
Proof.
  destruct (fields_cases body) as [Hmiss | (p & r & s & t & c & Hwf)].
  - rewrite (serve_missing e body d Hmiss). simpl.
    assert (Hfalse : Js.truthy (Body.property_id body) && Js.truthy (Body.room_id body)
                     && Js.truthy (Body.start_date body) && Js.truthy (Body.end_date body)
                     && Js.truthy (Body.customer body) = false).
    { destruct Hmiss as [H|[H|[H|[H|H]]]]; apply present_none in H; rewrite H;
        rewrite ?andb_false_r; reflexivity. }
    rewrite Hfalse. split; [|split; split].
    + intros msg H. injection H as <-. auto.
    + reflexivity.
    + reflexivity.
    + discriminate.
    + intros [H _]. discriminate H.
  - pose proof Hwf as (Hp & Hr & Hs & Ht & Hc).
    apply present_some in Hp, Hr, Hs, Ht, Hc.
    destruct Hp as [_ Hp], Hr as [_ Hr], Hs as [Hs Hs'], Ht as [Ht Ht'], Hc as [_ Hc].
    rewrite Hp, Hr, Hs', Ht', Hc. simpl.
    destruct (Js.lt s t) eqn:Hlt.
    + destruct (serve_valid_exits e body d p r s t c Hwf Hlt)
        as [[H _] | (code & pl & H & Hcode & _)]; rewrite H.
      * split; [|split; split]; try discriminate.
        intros (_ & s' & t' & Hs0 & Ht0 & Hlt0).
        assert (s' = s) by congruence. assert (t' = t) by congruence. subst.
        rewrite Hlt in Hlt0. discriminate Hlt0.
      * split; [|split; split].
        -- intros msg Hm. injection Hm as -> _. contradiction.
        -- intros Hm. injection Hm as -> _. contradiction.
        -- discriminate.
        -- intros Hm. injection Hm as -> _. contradiction.
        -- intros (_ & s' & t' & Hs0 & Ht0 & Hlt0).
           assert (s' = s) by congruence. assert (t' = t) by congruence. subst.
           rewrite Hlt in Hlt0. discriminate Hlt0.
    + rewrite (serve_invalid_range e body d p r s t c Hwf Hlt). simpl.
      split; [|split; split].
      * intros msg H. injection H as <-. auto.
      * discriminate.
      * discriminate.
      * intros _. split; [reflexivity|]. exists s, t. auto.
      * reflexivity.
Qed.

(** X4.  Whenever [POST /bookings] sends a reply, of any status, the
    connection it hands back has no open transaction and holds no advisory
    lock, and the handler has made at most eight calls and drawn at most two
    uuids. *)
Theorem post_bookings_reply_closes_transaction (e : env) (body : Body.t) (d : db)
    (code : Z) (p : payload) :
  fst (serve (post_bookings e body) d) = Send code p ->
  pending (snd (serve (post_bookings e body) d)) = None
  /\ held (snd (serve (post_bookings e body) d)) = []
  /\ (sent (snd (serve (post_bookings e body) d)) <= 8)%nat
  /\ (drawn (snd (serve (post_bookings e body) d)) <= 2)%nat.
Proof.
  intros Hr.
  destruct (fields_cases body) as [Hmiss | (pid & r & s & t & c & Hwf)].
  - rewrite (serve_missing e body d Hmiss). simpl. repeat split; lia.
  - destruct (Js.lt s t) eqn:Hlt.
    + destruct (serve_valid_exits e body d pid r s t c Hwf Hlt)
        as [[H _] | (code' & pl & _ & _ & Hp & Hh & Hs & Hd)].
      * rewrite H in Hr. discriminate Hr.
      * repeat split; auto; lia.
    + rewrite (serve_invalid_range e body d pid r s t c Hwf Hlt). simpl.
      repeat split; lia.
Qed.

Lemma post_bookings_reply_closes_transaction_witness :
  pending (snd (serve (post_bookings Sample.e0 Sample.touching) Sample.d0)) = None
  /\ held (snd (serve (post_bookings Sample.e0 Sample.touching) Sample.d0)) = []
  /\ (sent (snd (serve (post_bookings Sample.e0 Sample.touching) Sample.d0)) <= 8)%nat
  /\ (drawn (snd (serve (post_bookings Sample.e0 Sample.touching) Sample.d0)) <= 2)%nat.
Proof.
  apply (post_bookings_reply_closes_transaction Sample.e0 Sample.touching Sample.d0
           201 (BookingCreated "0b5f1f0e-0000-4000-8000-000000000002" "confirmed")).
  reflexivity.
Defined.

(** X5.  When an exception escapes [POST /bookings]: the request has no
    body, so that reading its fields on line 73, before the [try], throws
    with no call made; or some call fails for a reason outside the program.
    A request with a body, under no such failure, is always answered,
    constraint violations included. *)
Theorem post_bookings_raises_only_on_fault (e : env) (body : option Body.t) (d : db) :
  (fst (serve (post_bookings_request e body) d) = Raised ->
   body = None \/ exists n, (n <= 7)%nat /\ fails e n = true)
  /\ serve (post_bookings_request e None) d = (Raised, connect d)
  /\ ((forall n, fails e n = false) ->
      forall b, exists code p,
        fst (serve (post_bookings_request e (Some b)) d) = Send code p).
Proof.
  assert (Hsome : forall b, fst (serve (post_bookings e b) d) = Raised ->
                            exists n, (n <= 7)%nat /\ fails e n = true).
  { intros b Hr.
    destruct (fields_cases b) as [Hmiss | (pid & r & s & t & c & Hwf)].
    - rewrite (serve_missing e b d Hmiss) in Hr. discriminate Hr.
    - destruct (Js.lt s t) eqn:Hlt.
      + destruct (serve_valid_exits e b d pid r s t c Hwf Hlt)
          as [[_ H] | (code' & pl & H & _)]; [exact H|].
        rewrite H in Hr. discriminate Hr.
      + rewrite (serve_invalid_range e b d pid r s t c Hwf Hlt) in Hr.
        discriminate Hr. }
  split; [|split].
  - destruct body as [b|]; [|auto]. intros Hr. right. exact (Hsome b Hr).
  - reflexivity.
  - intros Hok b. simpl.
    destruct (fst (serve (post_bookings e b) d)) as [code p|] eqn:Hr; [eauto|].
    destruct (Hsome b Hr) as (n & _ & Hn). rewrite Hok in Hn. discriminate Hn.
Qed.


(** ** What a committed admission stores, and what it leaves alone *)

Section Committed.

Variable e : env.
Variable body : Body.t.
Variable d : db.

Lemma well_formed_fields (p r s t : string) (c : CustomerIn.t) :
  well_formed body p r s t c ->
  Body.property_id body = Some p /\ Body.room_id body = Some r
  /\ Body.start_date body = Some s /\ Body.end_date body = Some t
  /\ Body.customer body = Some c.
Proof.
  intros (H1 & H2 & H3 & H4 & H5).
  apply present_some in H1, H2, H3, H4, H5. tauto.
Qed.

(** An admitted request was well formed, met no conflict and no constraint
    violation, and left the committed state of [committed_state]. *)
Lemma admitted_outcome :
  admitted (fst (admission e body d)) = true ->
  exists p r s t c,
    well_formed body p r s t c
    /\ Js.lt s t = true
    /\ conflicts r (date_in e s) (date_in e t) d = []
    /\ constraints_hold e p r c d = true
    /\ admission e body d
       = (Send 201 (BookingCreated (new_booking_id e c) (new_status body)),
          committed_state e body p r s t c d).
Proof.
  intros Ha.
  destruct (admission_outcome e body d)
    as [(f & Hf & _) | (p & r & s & t & c & H)].
  - destruct (fst (admission e body d)) as [code [msg|id st|f' t' l]|];
      simpl in *; try discriminate.
  - exists p, r, s, t, c. exact H.
Qed.

(** A request that is not admitted leaves the committed state as it was. *)
Lemma not_admitted_unchanged :
  admitted (fst (admission e body d)) = false -> snd (admission e body d) = d.
Proof.
  intros Ha.
  destruct (admission_outcome e body d)
    as [(f & _ & Hd) | (p & r & s & t & c & _ & _ & _ & _ & H)]; [exact Hd|].
  rewrite H in Ha. discriminate Ha.
Qed.

End Committed.



(** A window that is in order as strings and not as dates: the request
    from ['2025-09-10'] to ['2025-09-9'] passes the range check, meets no
    conflict with the booking [[2025-09-10, 2025-09-12)], and is stored from
    the tenth to the ninth. *)
Example unpadded_window_stored_backwards :
  Js.lt "2025-09-10" "2025-09-9" = true
  /\ fst (admission Sample.e0 (Sample.request "P" "2025-09-10" "2025-09-9") Sample.d0)
     = Send 201 (BookingCreated "0b5f1f0e-0000-4000-8000-000000000002" "confirmed")
  /\ map (fun b => (Booking.start_date b, Booking.end_date b))
       (bookings (snd (admission Sample.e0 (Sample.request "P" "2025-09-10" "2025-09-9")
                         Sample.d0)))
     = [(20250910, 20250912); (20250910, 20250909)]%Z.
Proof. repeat split; vm_compute; reflexivity. Qed.

(** X7.  An admission only appends: the rows of [properties] and [rooms]
    are untouched, the old rows of [customers] and [bookings] stay in place
    and in order, at most one row is added to each, a customer row is never
    added without a booking row, and a booking row is added exactly when the
    reply reports a created booking. *)
Theorem admission_append_only (e : env) (body : Body.t) (d : db) :
  exists cs bs,
    customers (snd (admission e body d)) = customers d ++ cs
    /\ bookings (snd (admission e body d)) = bookings d ++ bs
    /\ (length cs <= length bs)%nat
    /\ length bs = (if admitted (fst (admission e body d)) then 1 else 0)%nat
    /\ rooms (snd (admission e body d)) = rooms d
    /\ properties (snd (admission e body d)) = properties d.
Proof.
  destruct (admitted (fst (admission e body d))) eqn:Ha.
  - destruct (admitted_outcome e body d Ha)
      as (p & r & s & t & c & _ & _ & _ & _ & H).
    rewrite H. simpl snd.
    exists (new_customers e c), [new_booking e body p r s t c].
    unfold committed_state, new_customers. simpl.
    destruct (present (CustomerIn.id c)); simpl; repeat split; lia.
  - rewrite (not_admitted_unchanged e body d Ha).
    exists [], []. rewrite !app_nil_r. simpl. repeat split; lia.
Qed.

(** ** Requests one after the other *)

Section Sequences.

(** A request for a room that is busy on the requested window is not
    admitted, whatever else happens to it. *)
Lemma busy_not_admitted (e : env) (body : Body.t) (d : db)
    (p r s t : string) (c : CustomerIn.t) :
  well_formed body p r s t c -> busy d r (date_in e s) (date_in e t) ->
  admitted (fst (admission e body d)) = false.
Proof.
  intros Hwf Hb.
  destruct (admitted (fst (admission e body d))) eqn:Ha; [|reflexivity].
  destruct (admitted_outcome e body d Ha)
    as (p' & r' & s' & t' & c' & Hwf' & _ & Hc & _).
  apply well_formed_fields in Hwf, Hwf'.
  destruct Hwf as (_ & Hr & Hs & Ht & _), Hwf' as (_ & Hr' & Hs' & Ht' & _).
  assert (r' = r) by congruence. assert (s' = s) by congruence.
  assert (t' = t) by congruence. subst.
  apply conflicts_nil in Hc. contradiction.
Qed.

(** The bookings of a state are still there after any admission. *)
Lemma bookings_kept (e : env) (body : Body.t) (d : db) (b : Booking.t) :
  In b (bookings d) -> In b (bookings (snd (admission e body d))).
Proof.
  intros Hin. destruct (admitted (fst (admission e body d))) eqn:Ha.
  - destruct (admitted_outcome e body d Ha)
      as (p & r & s & t & c & _ & _ & _ & _ & H).
    rewrite H. simpl. apply in_or_app. left. exact Hin.
  - rewrite (not_admitted_unchanged e body d Ha). exact Hin.
Qed.

Lemma busy_after_admission (e : env) (body : Body.t) (d : db) (r : string) (f t : date) :
  busy d r f t -> busy (snd (admission e body d)) r f t.
Proof.
  intros (b & Hin & H). exists b. split; [|exact H].
  apply bookings_kept. exact Hin.
Qed.

(** After an admission the room is busy on every window that overlaps the
    admitted one. *)
Lemma admitted_makes_busy (e : env) (body : Body.t) (d : db) (r s t : string)
    (f u : date) :
  admitted (fst (admission e body d)) = true ->
  Body.room_id body = Some r -> Body.start_date body = Some s ->
  Body.end_date body = Some t ->
  date_overlap (date_in e s) (date_in e t) f u = true ->
  busy (snd (admission e body d)) r f u.
Proof.
  intros Ha Hr Hs Ht Hov.
  destruct (admitted_outcome e body d Ha)
    as (p' & r' & s' & t' & c' & Hwf & _ & _ & _ & H).
  apply well_formed_fields in Hwf. destruct Hwf as (_ & Hr' & Hs' & Ht' & _).
  assert (r' = r) by congruence. assert (s' = s) by congruence.
  assert (t' = t) by congruence. subst.
  rewrite H. simpl snd. exists (new_booking e body p' r s t c').
  split; [simpl; apply in_or_app; right; left; reflexivity|].
  rewrite active_new_booking. simpl. auto.
Qed.

Lemma rivals_fields (q1 q2 : env * Body.t) :
  rivals q1 q2 = true ->
  exists r s1 t1 s2 t2,
    Body.room_id (snd q1) = Some r /\ Body.start_date (snd q1) = Some s1
    /\ Body.end_date (snd q1) = Some t1
    /\ Body.room_id (snd q2) = Some r /\ Body.start_date (snd q2) = Some s2
    /\ Body.end_date (snd q2) = Some t2
    /\ date_overlap (date_in (fst q1) s1) (date_in (fst q1) t1)
                    (date_in (fst q2) s2) (date_in (fst q2) t2) = true.
Proof.
  unfold rivals.
  destruct (Body.room_id (snd q1)) as [r1|]; [|discriminate].
  destruct (Body.start_date (snd q1)) as [s1|]; [|discriminate].
  destruct (Body.end_date (snd q1)) as [t1|]; [|discriminate].
  destruct (Body.room_id (snd q2)) as [r2|]; [|discriminate].
  destruct (Body.start_date (snd q2)) as [s2|]; [|discriminate].
  destruct (Body.end_date (snd q2)) as [t2|]; [|discriminate].
  intros H. apply andb_true_iff in H. destruct H as [Hr Hov].
  apply String.eqb_eq in Hr. subst. exists r2, s1, t1, s2, t2. auto 10.
Qed.

Lemma blocked_not_admitted (e : env) (body : Body.t) (d : db) :
  blocked (e, body) d -> admitted (fst (admission e body d)) = false.
Proof.
  intros (r & s & t & Hr & Hs & Ht & Hb). simpl in *.
  destruct (fields_cases body) as [Hmiss | (p & r' & s' & t' & c & Hwf)].
  - rewrite (admission_missing e body d Hmiss). reflexivity.
  - pose proof (well_formed_fields body _ _ _ _ _ Hwf) as (_ & Hr' & Hs' & Ht' & _).
    assert (r' = r) by congruence. assert (s' = s) by congruence.
    assert (t' = t) by congruence. subst.
    exact (busy_not_admitted e body d p r s t c Hwf Hb).
Qed.

Lemma blocked_after_admission (e : env) (body : Body.t) (q : env * Body.t) (d : db) :
  blocked q d -> blocked q (snd (admission e body d)).
Proof.
  intros (r & s & t & Hr & Hs & Ht & Hb).
  exists r, s, t. auto using busy_after_admission.
Qed.

Lemma admitted_blocks_rival (e : env) (body : Body.t) (q : env * Body.t) (d : db) :
  admitted (fst (admission e body d)) = true ->
  rivals (e, body) q = true ->
  blocked q (snd (admission e body d)).
Proof.
  intros Ha Hriv.
  destruct (rivals_fields (e, body) q Hriv)
    as (r & s1 & t1 & s2 & t2 & Hr1 & Hs1 & Ht1 & Hr2 & Hs2 & Ht2 & Hov).
  simpl in *. exists r, s2, t2. repeat split; auto.
  exact (admitted_makes_busy e body d r s1 t1 _ _ Ha Hr1 Hs1 Ht1 Hov).
Qed.

Lemma admissions_cons (e : env) (body : Body.t) (rest : list (env * Body.t)) (d : db) :
  admissions ((e, body) :: rest) d
  = (fst (admission e body d) :: fst (admissions rest (snd (admission e body d))),
     snd (admissions rest (snd (admission e body d)))).
Proof.
  simpl. destruct (admission e body d) as [r d1]. simpl.
  destruct (admissions rest d1). reflexivity.
Qed.

(** Requests that are all blocked stay blocked and none is admitted. *)
Lemma admissions_all_blocked (reqs : list (env * Body.t)) (d : db) :
  Forall (fun q => blocked q d) reqs ->
  List.filter admitted (fst (admissions reqs d)) = [].
Proof.
  revert d. induction reqs as [|[e body] rest IH]; intros d Hall; [reflexivity|].
  rewrite admissions_cons. simpl fst.
  inversion Hall as [|q l Hb Hrest]; subst.
  simpl. rewrite (blocked_not_admitted e body d Hb).
  apply IH. eapply Forall_impl; [exact Hrest|].
  intros q Hq. apply blocked_after_admission. exact Hq.
Qed.

End Sequences.

(** X8.  No double booking by a later request: once a request is admitted,
    any later request for the same room on a window that overlaps the
    admitted one, both read as dates, is not admitted and changes nothing,
    whatever the outside world does; the same request sent again is such a
    rival exactly when its window, read as dates, is non-empty. *)
Theorem later_rival_not_admitted (e e' : env) (body body' : Body.t) (d : db) :
  admitted (fst (admission e body d)) = true ->
  rivals (e, body) (e', body') = true ->
  admitted (fst (admission e' body' (snd (admission e body d)))) = false
  /\ snd (admission e' body' (snd (admission e body d))) = snd (admission e body d)
  /\ (forall s t, Body.start_date body = Some s -> Body.end_date body = Some t ->
                  rivals (e, body) (e, body) = (date_in e s <? date_in e t)%Z).
Proof.
  intros Ha Hriv.
  assert (Hn : admitted (fst (admission e' body' (snd (admission e body d)))) = false).
  { apply blocked_not_admitted. apply admitted_blocks_rival; assumption. }
  split; [exact Hn|]. split; [apply not_admitted_unchanged; exact Hn|].
  intros s t Hs Ht.
  destruct (admitted_outcome e body d Ha) as (p & r & s' & t' & c & Hwf & _).
  apply well_formed_fields in Hwf. destruct Hwf as (_ & Hr & _).
  unfold rivals. simpl. rewrite Hr, Hs, Ht, String.eqb_refl. simpl.
  unfold date_overlap. destruct (date_in e s <? date_in e t)%Z; reflexivity.
Qed.

Lemma later_rival_not_admitted_witness :
  admitted (fst (admission Cases.e1 Cases.late
                   (snd (admission Sample.e0 Sample.touching Sample.d0)))) = false
  /\ snd (admission Cases.e1 Cases.late
            (snd (admission Sample.e0 Sample.touching Sample.d0)))
     = snd (admission Sample.e0 Sample.touching Sample.d0)
  /\ (forall s t, Body.start_date Sample.touching = Some s ->
                  Body.end_date Sample.touching = Some t ->
                  rivals (Sample.e0, Sample.touching) (Sample.e0, Sample.touching)
                  = (date_in Sample.e0 s <? date_in Sample.e0 t)%Z).
Proof.
  apply (later_rival_not_admitted Sample.e0 Cases.e1 Sample.touching Cases.late Sample.d0);
    reflexivity.
Defined.

(** X9.  Of any number of requests for one room whose windows, read as
    dates, pairwise overlap, served one after the other from any state and
    under any outside worlds, at most one is admitted. *)
Theorem rivals_at_most_one_admitted (reqs : list (env * Body.t)) (d : db) :
  pairwise rivals reqs = true ->
  (length (List.filter admitted (fst (admissions reqs d))) <= 1)%nat.
Proof.
  revert d. induction reqs as [|[e body] rest IH]; intros d Hp; [simpl; lia|].
  simpl in Hp. apply andb_true_iff in Hp. destruct Hp as [Hhead Hrest].
  rewrite admissions_cons. simpl fst. simpl List.filter.
  destruct (admitted (fst (admission e body d))) eqn:Ha.
  - rewrite admissions_all_blocked; [simpl; lia|].
    rewrite forallb_forall in Hhead. apply Forall_forall. intros q Hin.
    apply list_elem_of_In in Hin.
    apply admitted_blocks_rival; [exact Ha|]. apply Hhead. exact Hin.
  - apply IH. exact Hrest.
Qed.

Lemma rivals_at_most_one_admitted_witness :
  (length (List.filter admitted
             (fst (admissions [(Sample.e0, Sample.touching); (Cases.e1, Cases.late)]
                     Sample.d0))) <= 1)%nat.
Proof.
  apply (rivals_at_most_one_admitted
           [(Sample.e0, Sample.touching); (Cases.e1, Cases.late)] Sample.d0).
  reflexivity.
Defined.

(** ** Requests that do not compete *)

Section Frame.

Variable e : env.
Variable body : Body.t.
Variable d : db.

(** The conflict check for room [r'] and window [[f, u)] finds the same
    rows after an admission that is for another room or for a window that
    does not overlap [[f, u)]. *)
Lemma conflicts_frame (r' : string) (f u : date) :
  (forall r s t, Body.room_id body = Some r -> Body.start_date body = Some s ->
                 Body.end_date body = Some t ->
                 r <> r' \/ date_overlap (date_in e s) (date_in e t) f u = false) ->
  conflicts r' f u (snd (admission e body d)) = conflicts r' f u d.
Proof.
  intros Hapart. destruct (admitted (fst (admission e body d))) eqn:Ha.
  - destruct (admitted_outcome e body d Ha)
      as (p & r & s & t & c & Hwf & _ & _ & _ & H).
    apply well_formed_fields in Hwf. destruct Hwf as (_ & Hr & Hs & Ht & _).
    rewrite H. simpl snd. unfold conflicts.
    rewrite active_bookings_committed_state, List.filter_app.
    destruct (String.eqb r r') eqn:Hrr; [|simpl; apply app_nil_r].
    apply String.eqb_eq in Hrr.
    destruct (Hapart r s t Hr Hs Ht) as [Hne | Hov]; [contradiction|].
    simpl. unfold overlaps_window at 2. simpl. rewrite Hov. apply app_nil_r.
  - rewrite (not_admitted_unchanged e body d Ha). reflexivity.
Qed.

Lemma admissible_spec (q : env * Body.t) (d0 : db) :
  admissible q d0 = true
  <-> exists p r s t c, well_formed (snd q) p r s t c /\ Js.lt s t = true
                        /\ conflicts r (date_in (fst q) s) (date_in (fst q) t) d0 = [].
Proof.
  unfold admissible, well_formed. split.
  - destruct (present (Body.property_id (snd q))) as [p|]; [|discriminate].
    destruct (present (Body.room_id (snd q))) as [r|]; [|discriminate].
    destruct (present (Body.start_date (snd q))) as [s|]; [|discriminate].
    destruct (present (Body.end_date (snd q))) as [t|]; [|discriminate].
    destruct (present (Body.customer (snd q))) as [c|]; [|discriminate].
    intros H. apply andb_true_iff in H. destruct H as [Hlt Hc].
    exists p, r, s, t, c.
    destruct (conflicts r _ _ d0); [auto 10 | discriminate].
  - intros (p & r & s & t & c & (-> & -> & -> & -> & ->) & -> & ->). reflexivity.
Qed.

Lemma admissible_kept (q : env * Body.t) :
  admissible q d = true -> rivals (e, body) q = false ->
  admissible q (snd (admission e body d)) = true.
Proof.
  intros Hb Hriv. apply admissible_spec in Hb.
  destruct Hb as (p & r' & s' & t' & c & Hwf & Hlt & Hc).
  apply admissible_spec. exists p, r', s', t', c. split; [exact Hwf|].
  split; [exact Hlt|]. rewrite conflicts_frame; [exact Hc|].
  intros r s t Hr Hs Ht.
  apply well_formed_fields in Hwf. destruct Hwf as (_ & Hr' & Hs' & Ht' & _).
  unfold rivals in Hriv. simpl in Hriv. rewrite Hr, Hs, Ht, Hr', Hs', Ht' in Hriv.
  apply andb_false_iff in Hriv. destruct Hriv as [Hne | Hov]; [left | right; exact Hov].
  apply String.eqb_neq. exact Hne.
Qed.

Lemma admissible_admitted :
  admissible (e, body) d = true ->
  storage_failed (fst (admission e body d)) = false ->
  admitted (fst (admission e body d)) = true.
Proof.
  intros Hb Hsf. apply admissible_spec in Hb.
  destruct Hb as (p & r & s & t & c & Hwf & Hlt & Hc). simpl in *.
  destruct (admission_valid_cases e body d _ _ _ _ _ Hwf Hlt)
    as [H | [H | [[Hc' H] | (_ & _ & H)]]]; rewrite H in *; simpl in *;
    try discriminate Hsf; [contradiction | reflexivity].
Qed.

End Frame.





(** ** More on the availability handler *)

Section Listing.

Variable d : db.
Variable property : string.
Variables from to : date.

Lemma blocked_in_blocks (k : string) :
  blocked_in d property from to k = true <-> blocks d property from to k.
Proof.
  unfold blocked_in, blocks. rewrite existsb_exists. split.
  - intros (b & Hb & H).
    apply andb_true_iff in H. destruct H as [Hw Hk].
    apply String.eqb_eq in Hk.
    unfold blocking_where in Hw. rewrite window_filter_date_overlap in Hw.
    apply andb_true_iff in Hw. destruct Hw as [Hw Hact].
    apply andb_true_iff in Hw. destruct Hw as [Hp Hov].
    apply eq_param_true in Hp. exists b. auto 6.
  - intros (b & Hb & Hp & Hk & Hact & Hov). exists b. split; [exact Hb|].
    unfold blocking_where. rewrite window_filter_date_overlap, Hov, Hk.
    unfold active in Hact. rewrite Hact, String.eqb_refl, !andb_true_r.
    apply eq_param_true. exact Hp.
Qed.

Lemma In_listed (row : RoomRow.t) :
  In row (listed d property from to)
  <-> exists r, In r (rooms d)
                /\ Room.property_id r = Some property
                /\ row = room_row r
                /\ ~ blocks d property from to (Room.id r).
Proof.
  unfold listed. rewrite in_map_iff. split.
  - intros (r & Hrow & Hin). apply filter_In in Hin. destruct Hin as [Hin H].
    apply andb_true_iff in H. destruct H as [Hp Hnb].
    apply eq_param_true in Hp. exists r. repeat split; auto.
    intros Hb. apply blocked_in_blocks in Hb. rewrite Hb in Hnb. discriminate Hnb.
  - intros (r & Hin & Hp & Hrow & Hfree).
    exists r. split; [auto|]. apply filter_In. split; [exact Hin|].
    apply andb_true_iff. split; [apply eq_param_true; exact Hp|].
    destruct (blocked_in d property from to (Room.id r)) eqn:Hb; [|reflexivity].
    exfalso. apply Hfree. apply blocked_in_blocks. exact Hb.
Qed.

End Listing.

Section AvailabilityReply.

Variable e : env.
Variable q : Query.t.
Variable d : db.

Lemma query_cases :
  (present (Query.propertyId q) = None
   \/ present (Query.from q) = None
   \/ present (Query.to q) = None)
  \/ exists p f t, present (Query.propertyId q) = Some p
                   /\ present (Query.from q) = Some f
                   /\ present (Query.to q) = Some t.
Proof.
  destruct (present (Query.propertyId q)) as [p|]; [|auto].
  destruct (present (Query.from q)) as [f|]; [|auto].
  destruct (present (Query.to q)) as [t|]; [|auto].
  right. exists p, f, t. auto.
Qed.

(** A 200 reply echoes the window of the query and carries the list in
    closed form. *)
Lemma availability_ok (f t : string) (l : list RoomRow.t) :
  availability e q d = Send 200 (Available f t l) ->
  exists p, present (Query.propertyId q) = Some p
            /\ present (Query.from q) = Some f
            /\ present (Query.to q) = Some t
            /\ fails e 0 = false /\ fails e 1 = false
            /\ l = offered e d p f t.
Proof.
  unfold availability. intros H.
  destruct query_cases as [Hm | (p & f' & t' & Hp & Hf & Ht)].
  - rewrite (availability_missing e q d Hm) in H. discriminate H.
  - rewrite (availability_present e q d p f' t' Hp Hf Ht) in H.
    destruct (fails e 0); [discriminate H|].
    destruct (fails e 1); [discriminate H|].
    simpl in H. injection H as H1 H2 H3. subst f' t' l. exists p. auto 10.
Qed.

End AvailabilityReply.



(** X13.  [GET /availability] only reads: whatever the query and whatever
    fails, the committed state is the one it started from, no transaction
    is opened, no lock is taken and no uuid drawn; it makes at most two
    calls, and none at all when it answers 400. *)
Theorem availability_read_only (e : env) (q : Query.t) (d : db) :
  committed (snd (serve (get_availability e q) d)) = d
  /\ pending (snd (serve (get_availability e q) d)) = None
  /\ held (snd (serve (get_availability e q) d)) = []
  /\ drawn (snd (serve (get_availability e q) d)) = 0%nat
  /\ (sent (snd (serve (get_availability e q) d)) <= 2)%nat
  /\ (forall msg, fst (serve (get_availability e q) d) = Send 400 (Error msg) ->
                  sent (snd (serve (get_availability e q) d)) = 0%nat).
Proof.
  destruct (query_cases q) as [Hm | (p & f & t & Hp & Hf & Ht)].
  - rewrite (availability_missing e q d Hm). simpl. repeat split; auto.
  - rewrite (availability_present e q d p f t Hp Hf Ht).
    destruct (fails e 0); [|destruct (fails e 1)]; simpl;
      repeat split; auto; intros msg H; discriminate H.
Qed.

(** ** The room list *)

Section RoomList.

Variable e : env.
Variable d : db.
Variable propertyId : string.

Lemma room_list_run :
  room_list e propertyId d
  = if fails e 0 then None
    else Some (arrange (scan e 1)
                 (List.filter (fun r => Sql.eq_param (Room.property_id r) propertyId)
                              (rooms d))).
Proof.
  unfold room_list, get_rooms, bind, ret, sql_select_all_rooms, statement, connect, view,
    returned.
  simpl. destruct (fails e 0); reflexivity.
Qed.

Lemma filter_permutation {A} (f : A -> bool) (l l' : list A) :
  Permutation l l' -> Permutation (List.filter f l) (List.filter f l').
Proof.
  induction 1 as [|x l l' _ IH|x y l|l l' l'' _ IH1 _ IH2]; simpl.
  - reflexivity.
  - destruct (f x); [apply perm_skip|]; exact IH.
  - destruct (f x), (f y); try reflexivity. apply perm_swap.
  - etransitivity; eassumption.
Qed.

Lemma offered_from_rooms (from to : string) :
  Permutation
    (offered e d propertyId from to)
    (map room_row
       (List.filter
          (fun r => negb (blocked_in d propertyId (date_in e from) (date_in e to) (Room.id r)))
          (List.filter (fun r => Sql.eq_param (Room.property_id r) propertyId) (rooms d)))).
Proof.
  unfold offered.
  set (own := List.filter (fun r => Sql.eq_param (Room.property_id r) propertyId) (rooms d)).
  etransitivity; [apply filter_permutation, arrange_permutation|].
  change (fun r => RoomRow.mk (Room.id r) (Room.room_number r) (Room.room_type r))
    with room_row.
  induction own as [|r l IH]; simpl; [reflexivity|].
  destruct (negb (blocked_in d propertyId _ _ (Room.id r))); simpl;
    [apply perm_skip|]; exact IH.
Qed.

End RoomList.



(** X15.  The rooms that [GET /availability] lists for a property are,
    up to the order in which the reads deliver rows, rooms of that
    property's room list with the three selected columns: the list is a
    rearrangement of a selection from the room list. *)
Theorem available_rooms_from_room_list (e e' : env) (q : Query.t) (d : db)
    (p f t : string) (l : list RoomRow.t) (rows : list Room.t) :
  availability e q d = Send 200 (Available f t l) ->
  Query.propertyId q = Some p ->
  room_list e' p d = Some rows ->
  exists keep, Permutation l (map room_row (List.filter keep rows)).
Proof.
  intros Hav Hq Hrows.
  destruct (availability_ok e q d f t l Hav) as (p' & Hp & _ & _ & _ & _ & Hl).
  apply present_some in Hp. destruct Hp as [Hp _].
  assert (p' = p) by congruence. subst p'.
  rewrite room_list_run in Hrows. destruct (fails e' 0); [discriminate Hrows|].
  injection Hrows as <-.
  exists (fun r => negb (blocked_in d p (date_in e f) (date_in e t) (Room.id r))).
  rewrite Hl. etransitivity; [apply offered_from_rooms|].
  apply Permutation_map, filter_permutation. symmetry. apply arrange_permutation.
Qed.

Lemma available_rooms_from_room_list_witness :
  exists keep,
    Permutation [RoomRow.mk "R" "101" (Some "double")]
      (map room_row (List.filter keep (rooms Sample.d0))).
Proof.
  apply (available_rooms_from_room_list Sample.e0 Sample.e0 Sample.booked_window
           Sample.d0 "P" "2025-09-20" "2025-09-22").
  - unfold availability.
    rewrite (availability_present Sample.e0 Sample.booked_window Sample.d0
               "P" "2025-09-20" "2025-09-22" eq_refl eq_refl eq_refl).
    reflexivity.
  - reflexivity.
  - reflexivity.
Defined.

(** ** Admission and availability together *)

Section AdmissionThenAvailability.

Variable e : env.
Variable body : Body.t.
Variable d : db.

Lemma rooms_kept : rooms (snd (admission e body d)) = rooms d.
Proof.
  destruct (admitted (fst (admission e body d))) eqn:Ha.
  - destruct (admitted_outcome e body d Ha)
      as (p & r & s & t & c & _ & _ & _ & _ & H).
    rewrite H. reflexivity.
  - rewrite (not_admitted_unchanged e body d Ha). reflexivity.
Qed.

Lemma blocks_after_admission (p : string) (f t : date) (k : string) :
  blocks d p f t k -> blocks (snd (admission e body d)) p f t k.
Proof.
  intros (b & Hin & H). exists b. split; [|exact H].
  apply bookings_kept. exact Hin.
Qed.

End AdmissionThenAvailability.

(** X16.  An admission request never makes a room available: for the same
    query and the same outside world, every room listed after the request,
    admitted or not, was listed before it. *)
Theorem availability_shrinks (e : env) (body : Body.t) (d : db)
    (e' : env) (q : Query.t) (f t : string) (l' : list RoomRow.t) :
  availability e' q (snd (admission e body d)) = Send 200 (Available f t l') ->
  exists l, availability e' q d = Send 200 (Available f t l)
            /\ forall row, In row l' -> In row l.
Proof.
  intros Hav.
  destruct (availability_ok e' q _ f t l' Hav) as (p & Hp & Hf & Ht & F0 & F1 & Hl).
  exists (offered e' d p f t). split.
  - unfold availability. rewrite (availability_present e' q d p f t Hp Hf Ht), F0, F1.
    reflexivity.
  - intros row Hin. rewrite Hl in Hin. apply In_offered, In_listed in Hin.
    destruct Hin as (r & Hr & Hprop & Hrow & Hfree).
    apply In_offered, In_listed. exists r. rewrite rooms_kept in Hr.
    repeat split; auto.
    intros Hb. apply Hfree. apply blocks_after_admission. exact Hb.
Qed.

Lemma availability_shrinks_witness :
  exists l, availability Sample.e0 Sample.booked_window Sample.d0
            = Send 200 (Available "2025-09-20" "2025-09-22" l)
            /\ forall row, In row [RoomRow.mk "R" "101" (Some "double")] -> In row l.
Proof.
  apply (availability_shrinks Sample.e0 Sample.touching Sample.d0
           Sample.e0 Sample.booked_window).
  unfold availability.
  rewrite (availability_present Sample.e0 Sample.booked_window
             (snd (admission Sample.e0 Sample.touching Sample.d0))
             "P" "2025-09-20" "2025-09-22" eq_refl eq_refl eq_refl).
  reflexivity.
Defined.

(** X17.  After a request is admitted, an availability query for the
    property named in that request, on any window that overlaps the admitted
    one, both read as dates, does not list the admitted room. *)
Theorem admitted_room_not_listed (e : env) (body : Body.t) (d : db)
    (e' : env) (q : Query.t) (r s t f u : string) (l : list RoomRow.t) :
  admitted (fst (admission e body d)) = true ->
  Body.room_id body = Some r ->
  Body.start_date body = Some s -> Body.end_date body = Some t ->
  Query.propertyId q = Body.property_id body ->
  date_overlap (date_in e s) (date_in e t) (date_in e' f) (date_in e' u) = true ->
  availability e' q (snd (admission e body d)) = Send 200 (Available f u l) ->
  existsb (fun row => String.eqb (RoomRow.id row) r) l = false.
Proof.
  intros Ha Hr Hs Ht Hq Hov Hav.
  destruct (existsb (fun row => String.eqb (RoomRow.id row) r) l) eqn:Hex;
    [exfalso | reflexivity].
  apply existsb_exists in Hex. destruct Hex as (row & Hin & Hid).
  apply String.eqb_eq in Hid.
  destruct (availability_ok e' q _ f u l Hav) as (p & Hp & _ & _ & _ & _ & Hl).
  apply present_some in Hp. destruct Hp as [Hp _].
  rewrite Hl in Hin. apply In_offered, In_listed in Hin.
  destruct Hin as (room & _ & _ & Hrow & Hfree). apply Hfree.
  destruct (admitted_outcome e body d Ha)
    as (p' & r' & s' & t' & c & Hwf & _ & _ & _ & H).
  apply well_formed_fields in Hwf. destruct Hwf as (Hp' & Hr' & Hs' & Ht' & _).
  assert (Er : r' = r) by congruence. assert (Es : s' = s) by congruence.
  assert (Et : t' = t) by congruence. assert (Ep : p' = p) by congruence.
  subst r' s' t' p'.
  assert (Hroom : Room.id room = r) by (rewrite <- Hid, Hrow; reflexivity).
  rewrite H. simpl snd. exists (new_booking e body p r s t c).
  split; [simpl; apply in_or_app; right; left; reflexivity|].
  rewrite active_new_booking, Hroom. simpl. auto.
Qed.

Lemma admitted_room_not_listed_witness :
  existsb (fun row => String.eqb (RoomRow.id row) "R") [] = false.
Proof.
  apply (admitted_room_not_listed Sample.e0 Sample.touching Sample.d0
           Sample.e0 (Query.mk (Some "P") (Some "2025-09-13") (Some "2025-09-15"))
           "R" "2025-09-12" "2025-09-14" "2025-09-13" "2025-09-15");
    vm_compute; reflexivity.
Defined.

(** X18.  The blocked-room table built from the rows of the blocking query
    holds [true] at exactly the room keys that occur in some row and nothing
    elsewhere, whatever the order and the repetitions of the rows. *)
Theorem blockedByRoom_keys (rows : list BookingRow.t) (k : string) :
  (blockedByRoom rows !! k = Some true
   <-> exists row, In row rows /\ property_key (BookingRow.room_id row) = k)
  /\ (blockedByRoom rows !! k = None
      <-> forall row, In row rows -> property_key (BookingRow.room_id row) <> k).
Proof.
  unfold blockedByRoom. rewrite blockedByRoom_fold, lookup_empty.
  destruct (existsb _ rows) eqn:Hex.
  - apply existsb_exists in Hex. destruct Hex as (row & Hin & Hk).
    apply String.eqb_eq in Hk. split; split; intros H; eauto; try discriminate.
    exfalso. exact (H row Hin Hk).
  - split; split; intros H; try discriminate; try reflexivity.
    + destruct H as (row & Hin & Hk).
      assert (Ht : existsb (fun b => String.eqb (property_key (BookingRow.room_id b)) k)
                     rows = true).
      { apply existsb_exists. exists row. split; [exact Hin|].
        apply String.eqb_eq. exact Hk. }
      rewrite Ht in Hex. discriminate Hex.
    + intros row Hin Hk.
      assert (Ht : existsb (fun b => String.eqb (property_key (BookingRow.room_id b)) k)
                     rows = true).
      { apply existsb_exists. exists row. split; [exact Hin|].
        apply String.eqb_eq. exact Hk. }
      rewrite Ht in Hex. discriminate Hex.
Qed.

(** ** The key constraints of the schema *)

Section SchemaKeys.

Lemma has_key_forallb {R} (key : R -> string) (rows : list R) (x : R) :
  forallb (fun a => negb (String.eqb (key a) (key x))) rows
  = negb (has_key key rows (key x)).
Proof.
  unfold has_key. induction rows as [|a rows IH]; simpl; [reflexivity|].
  rewrite IH, negb_orb. reflexivity.
Qed.

Lemma primary_key_snoc {R} (key : R -> string) (rows : list R) (x : R) :
  primary_key key rows = true -> has_key key rows (key x) = false ->
  primary_key key (rows ++ [x]) = true.
Proof.
  unfold primary_key. intros Hpk Hfresh.
  rewrite pairwise_snoc, Hpk, has_key_forallb, Hfresh. reflexivity.
Qed.

Lemma has_key_app {R} (key : R -> string) (rows more : list R) (k : string) :
  has_key key rows k = true -> has_key key (rows ++ more) k = true.
Proof.
  unfold has_key. rewrite existsb_app. intros ->. reflexivity.
Qed.

Lemma references_app {R} (key : R -> string) (rows more : list R) (col : option string) :
  references key rows col = true -> references key (rows ++ more) col = true.
Proof.
  destruct col as [k|]; simpl; [apply has_key_app | reflexivity].
Qed.

End SchemaKeys.

(** X19.  Admission keeps the key constraints of the schema: if ids are
    unique in each table and every reference of a room or a booking
    resolves, the same holds after any admission request; in particular a
    created booking refers to a property, a room and a customer that
    exist. *)
Theorem admission_keeps_schema_keys (e : env) (body : Body.t) (d : db) :
  schema_keys d = true -> schema_keys (snd (admission e body d)) = true.
Proof.
  intros Hk. destruct (admitted (fst (admission e body d))) eqn:Ha.
  2:{ rewrite (not_admitted_unchanged e body d Ha). exact Hk. }
  destruct (admitted_outcome e body d Ha)
    as (p & r & s & t & c & _ & _ & _ & Hc & H).
  rewrite H. simpl snd. clear H Ha.
  unfold schema_keys, foreign_keys in *. unfold committed_state. simpl.
  unfold constraints_hold in Hc.
  repeat match goal with
         | H : _ && _ = true |- _ => apply andb_true_iff in H; destruct H
         end.
  repeat (apply andb_true_iff; split); auto.
  - unfold new_customers in *. destruct (present (CustomerIn.id c)); simpl in *.
    + rewrite app_nil_r. assumption.
    + apply primary_key_snoc; [assumption|]. simpl.
      destruct (has_key Customer.id (customers d) (uuidv4 e 0)); [discriminate | reflexivity].
  - apply primary_key_snoc; [assumption|]. simpl.
    destruct (has_key Booking.id (bookings d) (new_booking_id e c));
      [discriminate | reflexivity].
  - rewrite forallb_app. apply andb_true_iff. split.
    + match goal with
      | Hb : forallb _ (bookings d) = true |- _ =>
          rewrite forallb_forall in Hb; apply forallb_forall; intros b Hin;
          specialize (Hb b Hin)
      end.
      repeat (match goal with
              | Hb : _ && _ = true |- _ => apply andb_true_iff in Hb; destruct Hb
              end).
      repeat (apply andb_true_iff; split); auto using references_app.
    + simpl. rewrite andb_true_r.
      repeat (apply andb_true_iff; split); assumption.
Qed.

Lemma admission_keeps_schema_keys_witness :
  schema_keys (snd (admission Sample.e0 Sample.touching Sample.d0)) = true.
Proof.
  apply (admission_keeps_schema_keys Sample.e0 Sample.touching Sample.d0).
  reflexivity.
Defined.

(** ** Histories of requests *)

Section Histories.

Lemma room_invariant_step (e : env) (body : Body.t) (d : db) (room : string) :
  room_invariant room d = true ->
  room_invariant room (snd (admission e body d)) = true.
Proof.
  intros Hinv. destruct (admitted (fst (admission e body d))) eqn:Ha.
  - destruct (admitted_outcome e body d Ha)
      as (p & r & s & t & c & _ & _ & Hc & _ & H).
    rewrite H. simpl snd. unfold room_invariant in *.
    rewrite active_bookings_committed_state.
    destruct (String.eqb r room) eqn:Hr; [|rewrite app_nil_r; exact Hinv].
    apply String.eqb_eq in Hr. subst room.
    rewrite pairwise_snoc, Hinv. simpl. apply (filter_nil_forallb _ _ Hc).
  - rewrite (not_admitted_unchanged e body d Ha). exact Hinv.
Qed.

End Histories.

(** X20.  The non-overlap invariant of a room survives every history: after
    any sequence of admission requests, under any outside worlds, served from
    a state in which the room's active bookings are pairwise non-overlapping,
    they still are; so they are in every state reached from an empty
    [bookings] table. *)
Theorem admissions_keep_room_invariant (reqs : list (env * Body.t)) (d : db)
    (room : string) :
  room_invariant room d = true ->
  room_invariant room (snd (admissions reqs d)) = true.
Proof.
  revert d. induction reqs as [|[e body] rest IH]; intros d Hinv; [exact Hinv|].
  rewrite admissions_cons. simpl snd.
  apply IH. apply room_invariant_step. exact Hinv.
Qed.

Lemma admissions_keep_room_invariant_witness :
  room_invariant "R"
    (snd (admissions [(Sample.e0, Sample.touching); (Cases.e1, Cases.late)]
            (mkdb (properties Sample.d0) (rooms Sample.d0) (customers Sample.d0) [])))
  = true.
Proof.
  apply (admissions_keep_room_invariant
           [(Sample.e0, Sample.touching); (Cases.e1, Cases.late)]
           (mkdb (properties Sample.d0) (rooms Sample.d0) (customers Sample.d0) []) "R").
  reflexivity.
Defined.



Ltac settle :=
  repeat match goal with
         | H : _ /\ _ |- _ => destruct H
         | H : exists _, _ |- _ => destruct H
         end;
  try discriminate; try reflexivity; eauto.

(** X22.  The replies of [GET /availability], completely: 400 exactly when
    [propertyId], [from] or [to] is absent or empty; otherwise an escaped
    exception exactly when one of its two reads fails; otherwise 200 with
    the window echoed.  The order of [from] and [to] plays no part. *)
Theorem availability_replies (e : env) (q : Query.t) (d : db) :
  (availability e q d = Send 400 (Error "propertyId, from, to required")
   <-> Js.truthy (Query.propertyId q) && Js.truthy (Query.from q)
       && Js.truthy (Query.to q) = false)
  /\ (availability e q d = Raised
      <-> Js.truthy (Query.propertyId q) && Js.truthy (Query.from q)
          && Js.truthy (Query.to q) = true
          /\ fails e 0 || fails e 1 = true)
  /\ ((exists l, availability e q d = Send 200 (Available (default "" (Query.from q))
                                                  (default "" (Query.to q)) l))
      <-> Js.truthy (Query.propertyId q) && Js.truthy (Query.from q)
          && Js.truthy (Query.to q) = true
          /\ fails e 0 || fails e 1 = false).
Proof.
  unfold availability.
  destruct (query_cases q) as [Hm | (p & f & t & Hp & Hf & Ht)].
  - rewrite (availability_missing e q d Hm). simpl.
    assert (Hfalse : Js.truthy (Query.propertyId q) && Js.truthy (Query.from q)
                     && Js.truthy (Query.to q) = false).
    { destruct Hm as [H|[H|H]]; apply present_none in H; rewrite H;
        rewrite ?andb_false_r; reflexivity. }
    rewrite Hfalse. repeat split; intros; settle.
  - rewrite (availability_present e q d p f t Hp Hf Ht).
    apply present_some in Hp, Hf, Ht.
    destruct Hp as [Hp Hp'], Hf as [Hf Hf'], Ht as [Ht Ht'].
    rewrite Hp', Hf', Ht', Hf, Ht. simpl.
    destruct (fails e 0); [|destruct (fails e 1)]; simpl;
      repeat split; intros; settle.
Qed.

(** * Admission transactions in flight together *)

(** ** One call *)

Section OneCall.

Lemma in_delete {A} (l : list A) (i : nat) (y : A) :
  In y (delete i l) <-> exists j, j <> i /\ l !! j = Some y.
Proof.
  rewrite <- list_elem_of_In, list_elem_of_lookup. split.
  - intros (k & Hk). rewrite list_lookup_delete in Hk.
    destruct (decide (k < i)%nat); eexists; (split; [|exact Hk]); lia.
  - intros (j & Hne & Hj).
    destruct (decide (j < i)%nat).
    + exists j. rewrite list_lookup_delete_lt by assumption. exact Hj.
    + exists (pred j). rewrite list_lookup_delete_ge by lia.
      replace (S (pred j)) with j by lia. exact Hj.
Qed.

Lemma existsb_eqb_Z (k : Z) (l : list Z) : existsb (Z.eqb k) l = true <-> In k l.
Proof.
  rewrite existsb_exists. split.
  - intros (k' & Hin & Heq). apply Z.eqb_eq in Heq. subst. exact Hin.
  - intros Hin. exists k. split; [exact Hin | apply Z.eqb_refl].
Qed.

Lemma existsb_eqb_string (k : string) (l : list string) :
  existsb (String.eqb k) l = true <-> In k l.
Proof.
  rewrite existsb_exists. split.
  - intros (k' & Hin & Heq). apply String.eqb_eq in Heq. subst. exact Hin.
  - intros Hin. exists k. split; [exact Hin | apply String.eqb_refl].
Qed.

End OneCall.

Lemma validation_sends (b : Body.t) (r : reply) :
  Tx.validation b = Some r -> exists msg, r = Send 400 (Error msg).
Proof.
  unfold Tx.validation. intros H.
  repeat match type of H with
         | context [match ?c with _ => _ end] => destruct c
         end;
    try discriminate H; injection H as <-; eauto.
Qed.

Section Static.

Variables x x' : Tx.t.
Hypothesis Hworld : Tx.world x' = Tx.world x.
Hypothesis Hbody : Tx.body x' = Tx.body x.

(** What a request asks for does not change while it is served. *)
Lemma static_request :
  Tx.key x' = Tx.key x /\ Tx.room_id x' = Tx.room_id x
  /\ Tx.from x' = Tx.from x /\ Tx.to x' = Tx.to x.
Proof.
  unfold Tx.key, Tx.from, Tx.to, Tx.room_id, Tx.start_date, Tx.end_date.
  rewrite Hworld, Hbody. auto.
Qed.

End Static.

(** The cases of one call: where the request was, how each test of the
    call went, and what the request is afterwards, field by field. *)
Ltac step_cases H :=
  let Hd := fresh "Hd" in
  let Hx := fresh "Hx" in
  let Hworld := fresh "Hworld" in
  let Hbody := fresh "Hbody" in
  let Hat := fresh "Hat" in
  let Hheld := fresh "Hheld" in
  let Hsent := fresh "Hsent" in
  let Hdrawn := fresh "Hdrawn" in
  let Hwc := fresh "Hwc" in
  let Hwb := fresh "Hwb" in
  let Hkey := fresh "Hkey" in
  let Hroom := fresh "Hroom" in
  let Hfrom := fresh "Hfrom" in
  let Hto := fresh "Hto" in
  unfold Tx.step in H; cbv zeta in H;
  repeat match type of H with
         | context [match ?c with _ => _ end] => destruct c eqn:?
         end;
  try discriminate H;
  unfold Tx.throws, Tx.ends, Tx.returns in H;
  injection H as Hd Hx;
  pose proof (f_equal Tx.world Hx) as Hworld;
  pose proof (f_equal Tx.body Hx) as Hbody;
  pose proof (f_equal Tx.at_ Hx) as Hat;
  pose proof (f_equal Tx.held Hx) as Hheld;
  pose proof (f_equal Tx.sent Hx) as Hsent;
  pose proof (f_equal Tx.drawn Hx) as Hdrawn;
  pose proof (f_equal Tx.written_customers Hx) as Hwc;
  pose proof (f_equal Tx.written_bookings Hx) as Hwb;
  simpl in Hworld, Hbody, Hat, Hheld, Hsent, Hdrawn, Hwc, Hwb;
  symmetry in Hworld, Hbody, Hat, Hheld, Hsent, Hdrawn, Hwc, Hwb;
  clear Hx;
  match type of Hworld with
  | Tx.world ?y = Tx.world ?z =>
      destruct (static_request z y Hworld Hbody) as (Hkey & Hroom & Hfrom & Hto)
  end;
  symmetry in Hd; try subst.

Section OneCallFacts.

Variables (d d' : db) (others : list Tx.t) (x x' : Tx.t).
Hypothesis Hstep : Tx.step d others x = Some (d', x').

Lemma step_static : Tx.world x' = Tx.world x /\ Tx.body x' = Tx.body x.
Proof. clear - Hstep. step_cases Hstep; split; assumption. Qed.

Lemma step_unfinished : Tx.reply_of x = None.
Proof.
  clear - Hstep. unfold Tx.reply_of, Tx.step in *.
  destruct (Tx.at_ x); try reflexivity. discriminate Hstep.
Qed.

Lemma step_rank : (Tx.rank (Tx.at_ x) < Tx.rank (Tx.at_ x'))%nat.
Proof.
  clear - Hstep. step_cases Hstep; rewrite Hat;
    simpl; lia.
Qed.

Lemma status_is_active (hold : option bool) :
  Sql.status_active (if Js.truthy hold then "hold" else "confirmed") = true.
Proof. destruct (Js.truthy hold); reflexivity. Qed.

Lemma step_shape : Tx.shape x -> Tx.shape x'.
Proof.
  clear - Hstep. intros (Hkeys & Hans & Hhold).
  unfold Tx.shape, Tx.own_keys, Tx.answered, Tx.holding, Tx.written_row in *.
  destruct Hkeys as [Hkc Hkb].
  step_cases Hstep;
    rewrite Hat, Hheld, Hwc, Hwb, ?Hkey, ?Hroom, ?Hfrom, ?Hto, Hworld, Hbody;
    try match goal with H : Tx.at_ x = _ |- _ => rewrite H in * end;
    (split; [split|split]);
    try assumption;
    try solve
      [ intros r0 Hr0; discriminate Hr0
      | intros r0 Hr0; injection Hr0 as <-; auto
      | intros r0 Hr0; injection Hr0 as <-; right; left; reflexivity
      | intros r0 Hr0; injection Hr0 as <-; do 3 right; eauto
      | intros c0 Hc0; contradiction
      | intros b0 Hb0; contradiction
      | intros c0 Hc0; apply in_app_or in Hc0; destruct Hc0 as [Hc0 | [<- | []]];
        simpl; eauto
      | tauto
      | destruct Hhold as (-> & _); simpl; auto
      | destruct Hhold as [-> | ->]; simpl; eauto
      | intuition (subst; simpl; eauto) ].
  - destruct (validation_sends _ _ Heqo) as (msg & ->). exact Hhold.
  - destruct Hhold as (-> & ? & ?). auto.
  - destruct Hhold as (? & ->). split; [assumption|].
    eexists. split; [reflexivity|]. simpl. auto 6.
  - destruct Hhold as (? & ->). split; [assumption|].
    eexists. split; [reflexivity|]. simpl. auto 6.
Qed.

(** A call changes the tables only when it is a COMMIT that succeeds. *)
Lemma step_store :
  (d' = d /\ Tx.created x' = false)
  \/ (exists bookingId status,
        Tx.at_ x = Tx.Commit bookingId status
        /\ Tx.at_ x' = Tx.Replied (Send 201 (BookingCreated bookingId status))
        /\ d' = Tx.view d x).
Proof.
  clear - Hstep. unfold Tx.created.
  step_cases Hstep; rewrite Hat; try solve [left; split; reflexivity].
  - destruct (validation_sends _ _ Heqo) as (msg & ->). left. split; reflexivity.
  - right. eauto.
Qed.

(** A call takes a lock only at line 89, and only a key that no other
    request holds. *)
Lemma step_held (k : Z) :
  In k (Tx.held x') ->
  In k (Tx.held x)
  \/ (Tx.at_ x = Tx.Lock /\ k = Tx.key x /\ ~ In k (Tx.locked others)).
Proof.
  clear - Hstep.
  step_cases Hstep; rewrite Hheld; auto; try contradiction.
  intros [<- | Hin]; [|auto]. right. repeat split.
  intros Hin. apply existsb_eqb_Z in Hin. congruence.
Qed.

(** A request gets past its conflict check only if the check finds no
    conflict in the tables. *)
Lemma step_passed :
  Tx.shape x -> Tx.passed x' ->
  Tx.passed x \/ conflicts (Tx.room_id x) (Tx.from x) (Tx.to x) d = [].
Proof.
  clear - Hstep. intros (_ & _ & Hhold). unfold Tx.passed, Tx.holding in *.
  step_cases Hstep; rewrite Hat;
    try match goal with H : Tx.at_ x = _ |- _ => rewrite H in * end;
    try contradiction; auto.
  all: right; destruct Hhold as (_ & _ & Hwb0);
    match goal with
    | H : (0 <? _)%nat = false |- _ =>
        rewrite length_arrange, length_map, filter_conflict_where in H;
        unfold Tx.view in H; simpl in H; rewrite Hwb0, app_nil_r in H;
        apply Nat.ltb_ge in H
    end;
    unfold conflicts, active_bookings;
    match goal with |- ?l = [] => destruct l; [reflexivity | simpl in *; lia] end.
Qed.

(** A request is turned away only if its conflict check finds a conflict
    in the tables. *)
Lemma step_turned_away :
  Tx.shape x -> Tx.turned_away x' ->
  Tx.turned_away x \/ busy d (Tx.room_id x) (Tx.from x) (Tx.to x).
Proof.
  clear - Hstep. intros (_ & _ & Hhold) Hta.
  unfold Tx.turned_away, Tx.unavailable, Tx.holding in *.
  step_cases Hstep; rewrite Hat in Hta;
    try match goal with H : Tx.at_ x = _ |- _ => rewrite H in * end;
    try solve [destruct Hta as [Hta | Hta]; discriminate Hta]; auto.
  - destruct (validation_sends _ _ Heqo) as (msg & ->).
    destruct Hta as [Hta | Hta]; discriminate Hta.
  - right. destruct Hhold as (_ & _ & Hwb0).
    match goal with
    | H : (0 <? _)%nat = true |- _ =>
        rewrite length_arrange, length_map, filter_conflict_where in H;
        unfold Tx.view in H; simpl in H; rewrite Hwb0, app_nil_r in H;
        apply Nat.ltb_lt in H
    end.
    apply conflicts_cons. unfold conflicts, active_bookings.
    intros Hnil. rewrite Hnil in *. simpl in *. lia.
Qed.


End OneCallFacts.

(** ** What every schedule keeps *)

Section Growth.

Variables d d' : db.
Variable more : list Booking.t.
Hypothesis Hgrow : bookings d' = bookings d ++ more.

Lemma busy_grows (r : string) (f t : date) : busy d r f t -> busy d' r f t.
Proof.
  intros (b & Hin & H). exists b. split; [|exact H].
  rewrite Hgrow. apply in_or_app. left. exact Hin.
Qed.

Lemma committed_in_grows (x : Tx.t) : Tx.committed_in d x -> Tx.committed_in d' x.
Proof.
  intros (bid & st & b & Hat & Hin & H). exists bid, st, b.
  split; [exact Hat|]. split; [|exact H].
  rewrite Hgrow. apply in_or_app. left. exact Hin.
Qed.

(** Rows of other rooms do not change the conflicts of a room. *)
Lemma conflicts_other_rooms (r : string) (f t : date) :
  (forall b, In b more -> Booking.room_id b <> Some r) ->
  conflicts r f t d' = conflicts r f t d.
Proof.
  intros Hother. unfold conflicts, active_bookings.
  rewrite Hgrow, !List.filter_app.
  replace (List.filter (fun b => of_room r b && active b) more) with (@nil Booking.t);
    [simpl; apply app_nil_r|].
  symmetry. clear Hgrow. induction more as [|b l IH]; [reflexivity|]. simpl.
  destruct (of_room r b) eqn:Hr.
  - apply of_room_true in Hr. exfalso. apply (Hother b); [left; reflexivity | exact Hr].
  - simpl. apply IH. intros b' Hb'. apply Hother. right. exact Hb'.
Qed.

End Growth.

Lemma free_no_overlap (d : db) (r : string) (f t : date) (b : Booking.t) :
  conflicts r f t d = [] ->
  In b (bookings d) -> Booking.room_id b = Some r -> active b = true ->
  date_overlap (Booking.start_date b) (Booking.end_date b) f t = false.
Proof.
  intros Hc Hin Hr Hact.
  destruct (date_overlap _ _ f t) eqn:Hov; [exfalso | reflexivity].
  apply conflicts_nil in Hc. apply Hc. exists b. auto.
Qed.

Section Reach.

Variable d0 : db.
Variable reqs : list (env * Body.t).
Hypothesis Hserver : one_server reqs.

Lemma start_lookup (i : nat) (x : Tx.t) :
  Tx.txs (Tx.start d0 reqs) !! i = Some x ->
  Tx.at_ x = Tx.Connect /\ Tx.held x = []
  /\ Tx.written_customers x = [] /\ Tx.written_bookings x = [].
Proof.
  unfold Tx.start. simpl.
  change (map ?f reqs) with (f <$> reqs). rewrite list_lookup_fmap.
  destruct (reqs !! i); simpl; intros H; [injection H as <-; auto | discriminate H].
Qed.

Lemma start_invariant : Tx.invariant d0 reqs (Tx.start d0 reqs).
Proof.
  constructor.
  - unfold Tx.start. simpl. rewrite map_map. simpl.
    clear. induction reqs as [|[e b] l IH]; simpl; [reflexivity | rewrite IH; reflexivity].
  - intros i x Hx. apply start_lookup in Hx. destruct Hx as (Hat & Hh & Hc & Hb).
    unfold Tx.shape, Tx.own_keys, Tx.answered, Tx.holding.
    rewrite Hat, Hh, Hc, Hb. repeat split; try contradiction. discriminate.
  - intros i j x y k _ Hx _ Hk _. apply start_lookup in Hx.
    destruct Hx as (_ & Hh & _). rewrite Hh in Hk. exact Hk.
  - intros i x Hx Hp. apply start_lookup in Hx. destruct Hx as (Hat & _).
    unfold Tx.passed in Hp. rewrite Hat in Hp. contradiction.
  - intros i x Hx Hc. apply start_lookup in Hx. destruct Hx as (Hat & _).
    unfold Tx.created in Hc. rewrite Hat in Hc. discriminate Hc.
  - intros i x Hx Hta. apply start_lookup in Hx. destruct Hx as (Hat & _).
    unfold Tx.turned_away, Tx.unavailable in Hta. rewrite Hat in Hta.
    destruct Hta as [H | H]; discriminate H.
  - intros b Hb. left. exact Hb.
  - intros i j x y _ Hx _ Hc. apply start_lookup in Hx. destruct Hx as (Hat & _).
    unfold Tx.created in Hc. rewrite Hat in Hc. discriminate Hc.
Qed.

Lemma fire_cases (i : nat) (cfg cfg' : Tx.config) :
  Tx.fire i cfg = Some cfg' ->
  exists x d' x',
    Tx.txs cfg !! i = Some x
    /\ Tx.step (Tx.store cfg) (delete i (Tx.txs cfg)) x = Some (d', x')
    /\ cfg' = Tx.mkconfig d' (<[i := x']> (Tx.txs cfg)).
Proof.
  unfold Tx.fire. destruct (Tx.txs cfg !! i) as [x|]; [|discriminate].
  destruct (Tx.step _ _ x) as [[d' x']|] eqn:Hs; [|discriminate].
  intros H. injection H as <-. exists x, d', x'. auto.
Qed.

Lemma request_of (cfg : Tx.config) (i : nat) (x : Tx.t) :
  Tx.invariant d0 reqs cfg -> Tx.txs cfg !! i = Some x ->
  reqs !! i = Some (Tx.world x, Tx.body x).
Proof.
  intros Inv Hx. rewrite <- (Tx.inv_static _ _ _ Inv).
  change (map ?f ?l) with (f <$> l). rewrite list_lookup_fmap, Hx. reflexivity.
Qed.

Lemma same_hashtext (cfg : Tx.config) (i j : nat) (x y : Tx.t) (r : string) :
  Tx.invariant d0 reqs cfg ->
  Tx.txs cfg !! i = Some x -> Tx.txs cfg !! j = Some y ->
  hashtext (Tx.world x) r = hashtext (Tx.world y) r.
Proof.
  intros Inv Hx Hy.
  apply (Hserver (Tx.world x, Tx.body x) (Tx.world y, Tx.body y));
    apply list_elem_of_In; eapply list_elem_of_lookup_2; eapply request_of; eassumption.
Qed.

Lemma created_replied (x : Tx.t) : Tx.created x = true -> Tx.reply_of x <> None.
Proof.
  unfold Tx.created, Tx.reply_of. destruct (Tx.at_ x); discriminate.
Qed.

(** Every call keeps the invariant. *)
Lemma fire_invariant (i : nat) (cfg cfg' : Tx.config) :
  Tx.invariant d0 reqs cfg -> Tx.fire i cfg = Some cfg' -> Tx.invariant d0 reqs cfg'.
Proof.
  intros Inv Hf.
  destruct (fire_cases i cfg cfg' Hf) as (x & d' & x' & Hx & Hstep & ->).
  pose proof (Tx.inv_shape _ _ _ Inv i x Hx) as Hsh.
  destruct (step_static _ _ _ _ _ Hstep) as [Hw Hb].
  destruct (static_request x x' Hw Hb) as (Hkey & Hroom & Hfrom & Hto).
  pose proof (step_shape _ _ _ _ _ Hstep Hsh) as Hsh'.
  pose proof (step_store _ _ _ _ _ Hstep) as Hst.
  pose proof (step_unfinished _ _ _ _ _ Hstep) as Hun.
  assert (Hi : (i < length (Tx.txs cfg))%nat) by (eapply lookup_lt_Some; exact Hx).
  assert (Hlook : forall j y, <[i := x']> (Tx.txs cfg) !! j = Some y ->
                              (j = i /\ y = x') \/ (j <> i /\ Tx.txs cfg !! j = Some y)).
  { intros j y Hy. apply list_lookup_insert_Some in Hy.
    destruct Hy as [(<- & <- & _) | (Hne & Hy)]; auto. }
  assert (Hgrow : exists more, bookings d' = bookings (Tx.store cfg) ++ more).
  { destruct Hst as [[-> _] | (bid & st & _ & _ & ->)].
    - exists []. rewrite app_nil_r. reflexivity.
    - exists (Tx.written_bookings x). reflexivity. }
  destruct Hgrow as (more & Hgrow).
  assert (Hothers : forall j y, j <> i -> Tx.txs cfg !! j = Some y ->
                                In y (delete i (Tx.txs cfg))).
  { intros j y Hne Hy. apply in_delete. eauto. }
  constructor; simpl.
  - (* the requests *)
    rewrite <- (Tx.inv_static _ _ _ Inv).
    change (map ?f ?l) with (f <$> l). rewrite list_fmap_insert, Hw, Hb.
    apply list_insert_id. rewrite list_lookup_fmap, Hx. reflexivity.
  - (* shape *)
    intros j y Hy. destruct (Hlook j y Hy) as [[-> ->] | [Hne Hy']]; [exact Hsh'|].
    exact (Tx.inv_shape _ _ _ Inv j y Hy').
  - (* one holder for each key *)
    assert (Hnew : forall j y k, j <> i -> Tx.txs cfg !! j = Some y ->
                                 In k (Tx.held x') -> In k (Tx.held y) -> False).
    { intros j y k Hne Hy Hk Hky.
      destruct (step_held _ _ _ _ _ Hstep k Hk) as [Hold | (_ & _ & Hfree)].
      - exact (Tx.inv_mutex _ _ _ Inv i j x y k (not_eq_sym Hne) Hx Hy Hold Hky).
      - apply Hfree. unfold Tx.locked. apply in_flat_map. exists y. eauto. }
    intros j1 j2 y1 y2 k Hne Hy1 Hy2 Hk1 Hk2.
    destruct (Hlook j1 y1 Hy1) as [[-> ->] | [Hne1 Hy1']];
      destruct (Hlook j2 y2 Hy2) as [[-> ->] | [Hne2 Hy2']].
    + congruence.
    + exact (Hnew j2 y2 k Hne2 Hy2' Hk1 Hk2).
    + exact (Hnew j1 y1 k Hne1 Hy1' Hk2 Hk1).
    + exact (Tx.inv_mutex _ _ _ Inv j1 j2 y1 y2 k Hne Hy1' Hy2' Hk1 Hk2).
  - (* no conflict behind a passed check *)
    intros j y Hy Hp. destruct (Hlook j y Hy) as [[-> ->] | [Hne Hy']].
    + destruct Hst as [[-> _] | (bid & st & _ & Hat' & _)].
      * rewrite Hroom, Hfrom, Hto.
        destruct (step_passed _ _ _ _ _ Hstep Hsh Hp) as [Hp0 | Hc]; [|exact Hc].
        exact (Tx.inv_clear _ _ _ Inv i x Hx Hp0).
      * unfold Tx.passed in Hp. rewrite Hat' in Hp. contradiction.
    + pose proof (Tx.inv_clear _ _ _ Inv j y Hy' Hp) as Hc.
      destruct Hst as [[-> _] | (bid & st & Hat & _ & ->)]; [exact Hc|].
      rewrite <- Hc.
      apply (conflicts_other_rooms (Tx.store cfg) (Tx.view (Tx.store cfg) x)
               (Tx.written_bookings x) eq_refl).
      intros b Hin Hroom_b.
      destruct Hsh as (_ & _ & Hhold). unfold Tx.holding in Hhold. rewrite Hat in Hhold.
      destruct Hhold as (Hheld & b0 & Hwb & _ & Hb0 & _).
      rewrite Hwb in Hin. destruct Hin as [<- | []].
      assert (Hsame : Tx.room_id x = Tx.room_id y) by congruence.
      assert (Hheld_y : Tx.held y = [Tx.key y]).
      { destruct (Tx.inv_shape _ _ _ Inv j y Hy') as (_ & _ & Hhy).
        unfold Tx.holding, Tx.passed in *.
        destruct (Tx.at_ y); try contradiction; tauto. }
      apply (Tx.inv_mutex _ _ _ Inv i j x y (Tx.key x) (not_eq_sym Hne) Hx Hy').
      * rewrite Hheld. left. reflexivity.
      * rewrite Hheld_y. left. unfold Tx.key. rewrite Hsame.
        symmetry. exact (same_hashtext cfg i j x y _ Inv Hx Hy').
  - (* a 201 has its row in the tables *)
    intros j y Hy Hc. destruct (Hlook j y Hy) as [[-> ->] | [Hne Hy']].
    + destruct Hst as [[_ Hno] | (bid & st & Hat & Hat' & ->)]; [congruence|].
      destruct Hsh as (_ & _ & Hhold). unfold Tx.holding in Hhold. rewrite Hat in Hhold.
      destruct Hhold as (_ & b0 & Hwb & Hid & Hr0 & Hf0 & Ht0 & Hact).
      exists bid, st, b0. rewrite Hroom, Hfrom, Hto.
      repeat split; try assumption.
      unfold Tx.view. simpl. rewrite Hwb. apply in_or_app. right. left. reflexivity.
    + apply (committed_in_grows _ _ more Hgrow).
      exact (Tx.inv_created _ _ _ Inv j y Hy' Hc).
  - (* a request turned away has a conflict in the tables *)
    intros j y Hy Hta. apply (busy_grows _ _ more Hgrow).
    destruct (Hlook j y Hy) as [[-> ->] | [Hne Hy']].
    + rewrite Hroom, Hfrom, Hto.
      destruct (step_turned_away _ _ _ _ _ Hstep Hsh Hta) as [Hta0 | Hbusy]; [|exact Hbusy].
      exact (Tx.inv_turned_away _ _ _ Inv i x Hx Hta0).
    + exact (Tx.inv_turned_away _ _ _ Inv j y Hy' Hta).
  - (* where the rows come from *)
    assert (Hold : forall b, In b (bookings (Tx.store cfg)) ->
                     In b (bookings d0)
                     \/ exists j y, <[i := x']> (Tx.txs cfg) !! j = Some y
                                    /\ Tx.created y = true
                                    /\ Booking.room_id b = Some (Tx.room_id y)
                                    /\ Booking.start_date b = Tx.from y
                                    /\ Booking.end_date b = Tx.to y).
    { intros b Hin.
      destruct (Tx.inv_provenance _ _ _ Inv b Hin) as [H | (j & y & Hy & Hc & H)];
        [left; exact H|].
      right. exists j, y. split; [|auto].
      rewrite list_lookup_insert_ne; [exact Hy|].
      intros <-. assert (y = x) by congruence. subst y.
      exact (created_replied x Hc Hun). }
    intros b Hin.
    destruct Hst as [[-> _] | (bid & st & Hat & Hat' & ->)]; [exact (Hold b Hin)|].
    unfold Tx.view in Hin. simpl in Hin. apply in_app_or in Hin.
    destruct Hin as [Hin | Hin]; [exact (Hold b Hin)|].
    destruct Hsh as (_ & _ & Hhold). unfold Tx.holding in Hhold. rewrite Hat in Hhold.
    destruct Hhold as (_ & b0 & Hwb & Hid & Hr0 & Hf0 & Ht0 & Hact).
    rewrite Hwb in Hin. destruct Hin as [<- | []].
    right. exists i, x'. rewrite list_lookup_insert_eq by exact Hi.
    rewrite Hroom, Hfrom, Hto. unfold Tx.created. rewrite Hat'. auto.
  - (* the windows of two 201s for one room do not overlap *)
    assert (Hnew : forall j y, j <> i -> Tx.txs cfg !! j = Some y ->
                     Tx.created x' = true -> Tx.created y = true ->
                     Tx.room_id x = Tx.room_id y ->
                     date_overlap (Tx.from y) (Tx.to y) (Tx.from x) (Tx.to x) = false).
    { intros j y Hne Hy Hc Hcy Hsame.
      destruct Hst as [[_ Hno] | (bid & st & Hat & _ & _)]; [congruence|].
      assert (Hp : Tx.passed x) by (unfold Tx.passed; rewrite Hat; exact I).
      pose proof (Tx.inv_clear _ _ _ Inv i x Hx Hp) as Hclear.
      destruct (Tx.inv_created _ _ _ Inv j y Hy Hcy)
        as (bid' & st' & b & _ & Hin & _ & Hrb & Hfb & Htb & Hact).
      rewrite <- Hfb, <- Htb.
      apply (free_no_overlap (Tx.store cfg) (Tx.room_id x)); try assumption.
      congruence. }
    intros j1 j2 y1 y2 Hne Hy1 Hy2 Hc1 Hc2 Hsame.
    destruct (Hlook j1 y1 Hy1) as [[-> ->] | [Hne1 Hy1']];
      destruct (Hlook j2 y2 Hy2) as [[-> ->] | [Hne2 Hy2']].
    + congruence.
    + rewrite Hfrom, Hto, date_overlap_sym.
      apply (Hnew j2 y2 Hne2 Hy2' Hc1 Hc2). congruence.
    + rewrite Hfrom, Hto.
      apply (Hnew j1 y1 Hne1 Hy1' Hc2 Hc1). congruence.
    + exact (Tx.inv_separation _ _ _ Inv j1 j2 y1 y2 Hne Hy1' Hy2' Hc1 Hc2 Hsame).
Qed.

Lemma run_invariant (sched : list nat) (cfg cfg' : Tx.config) :
  Tx.invariant d0 reqs cfg -> Tx.run sched cfg = Some cfg' -> Tx.invariant d0 reqs cfg'.
Proof.
  revert cfg. induction sched as [|i rest IH]; intros cfg Inv H; simpl in H.
  - injection H as <-. exact Inv.
  - destruct (Tx.fire i cfg) as [cfg1|] eqn:Hf; [|discriminate H].
    exact (IH cfg1 (fire_invariant i cfg cfg1 Inv Hf) H).
Qed.

End Reach.

(** ** Waiting and progress *)

Section Waiting.

Lemma sum_rank_insert {A} (f : A -> nat) (l : list A) (i : nat) (x x' : A) :
  l !! i = Some x ->
  (list_sum (map f (<[i := x']> l)) + f x = list_sum (map f l) + f x')%nat.
Proof.
  revert i. induction l as [|a l IH]; intros [|i] H; simpl in *; try discriminate.
  - injection H as ->. lia.
  - specialize (IH i H). lia.
Qed.

Lemma rank_bound (p : Tx.phase) : (Tx.rank p <= 9)%nat.
Proof. destruct p; simpl; lia. Qed.

Lemma sum_rank_bound (l : list Tx.t) :
  (list_sum (map (fun x => Tx.rank (Tx.at_ x)) l) <= 9 * length l)%nat.
Proof.
  induction l as [|x l IH]; simpl; [lia|].
  pose proof (rank_bound (Tx.at_ x)). lia.
Qed.

Lemma fire_length (i : nat) (cfg cfg' : Tx.config) :
  Tx.fire i cfg = Some cfg' -> length (Tx.txs cfg') = length (Tx.txs cfg).
Proof.
  unfold Tx.fire. destruct (Tx.txs cfg !! i) as [x|]; [|discriminate].
  destruct (Tx.step _ _ x) as [[d' x']|]; [|discriminate].
  intros H. injection H as <-. simpl. apply length_insert.
Qed.

Lemma fire_rank (i : nat) (cfg cfg' : Tx.config) :
  Tx.fire i cfg = Some cfg' ->
  (list_sum (map (fun x => Tx.rank (Tx.at_ x)) (Tx.txs cfg))
   < list_sum (map (fun x => Tx.rank (Tx.at_ x)) (Tx.txs cfg')))%nat.
Proof.
  unfold Tx.fire. destruct (Tx.txs cfg !! i) as [x|] eqn:Hx; [|discriminate].
  destruct (Tx.step _ _ x) as [[d' x']|] eqn:Hs; [|discriminate].
  intros H. injection H as <-. simpl.
  pose proof (sum_rank_insert (fun x => Tx.rank (Tx.at_ x)) _ i x x' Hx).
  pose proof (step_rank _ _ _ _ _ Hs). simpl in *. lia.
Qed.

(** Every call moves its request on, so a schedule is short. *)
Lemma run_length (sched : list nat) (cfg cfg' : Tx.config) :
  Tx.run sched cfg = Some cfg' ->
  length (Tx.txs cfg') = length (Tx.txs cfg)
  /\ (length sched
      + list_sum (map (fun x => Tx.rank (Tx.at_ x)) (Tx.txs cfg))
      <= list_sum (map (fun x => Tx.rank (Tx.at_ x)) (Tx.txs cfg')))%nat.
Proof.
  revert cfg. induction sched as [|i rest IH]; intros cfg H; simpl in H.
  - injection H as <-. simpl. lia.
  - destruct (Tx.fire i cfg) as [cfg1|] eqn:Hf; [|discriminate H].
    destruct (IH cfg1 H) as [Hlen Hsum].
    pose proof (fire_length i cfg cfg1 Hf). pose proof (fire_rank i cfg cfg1 Hf).
    simpl. split; [congruence | lia].
Qed.

(** A call waits only at the advisory lock, for a key that another
    request holds, or at an INSERT, for a primary key that another open
    transaction has written. *)
Lemma step_waits (d : db) (others : list Tx.t) (x : Tx.t) :
  Tx.step d others x = None -> Tx.reply_of x = None ->
  (Tx.at_ x = Tx.Lock /\ In (Tx.key x) (Tx.locked others))
  \/ (Tx.at_ x = Tx.InsertCustomer
      /\ In (uuidv4 (Tx.world x) (Tx.drawn x)) (Tx.customer_keys others))
  \/ (exists customerId,
        Tx.at_ x = Tx.InsertBooking customerId
        /\ In (uuidv4 (Tx.world x) (Tx.drawn x)) (Tx.booking_keys others)).
Proof.
  unfold Tx.step, Tx.reply_of. cbv zeta. intros H Hun.
  repeat match type of H with
         | context [match ?c with _ => _ end] => destruct c eqn:?
         end;
    try discriminate H; try discriminate Hun.
  - left. split; [reflexivity|]. apply existsb_eqb_Z. assumption.
  - right. left. split; [reflexivity|]. apply existsb_eqb_string. assumption.
  - right. right. eexists. split; [reflexivity|]. apply existsb_eqb_string. assumption.
Qed.

Lemma fire_waits (i : nat) (cfg : Tx.config) (x : Tx.t) :
  Tx.txs cfg !! i = Some x -> Tx.reply_of x = None -> Tx.fire i cfg = None ->
  exists j y,
    j <> i /\ Tx.txs cfg !! j = Some y
    /\ ((Tx.at_ x = Tx.Lock /\ In (Tx.key x) (Tx.held y))
        \/ (Tx.at_ x = Tx.InsertCustomer
            /\ exists c, In c (Tx.written_customers y)
                         /\ Customer.id c = uuidv4 (Tx.world x) (Tx.drawn x))
        \/ (exists customerId,
              Tx.at_ x = Tx.InsertBooking customerId
              /\ exists b, In b (Tx.written_bookings y)
                           /\ Booking.id b = uuidv4 (Tx.world x) (Tx.drawn x))).
Proof.
  intros Hx Hun Hf. unfold Tx.fire in Hf. rewrite Hx in Hf.
  destruct (Tx.step _ _ x) as [[d' x']|] eqn:Hs; [discriminate Hf|].
  destruct (step_waits _ _ _ Hs Hun) as [[Hat Hin] | [[Hat Hin] | (cid & Hat & Hin)]].
  - unfold Tx.locked in Hin. apply in_flat_map in Hin. destruct Hin as (y & Hy & Hk).
    apply in_delete in Hy. destruct Hy as (j & Hne & Hy). exists j, y. auto.
  - unfold Tx.customer_keys in Hin. apply in_map_iff in Hin.
    destruct Hin as (c & Hid & Hin). apply in_flat_map in Hin.
    destruct Hin as (y & Hy & Hc).
    apply in_delete in Hy. destruct Hy as (j & Hne & Hy). exists j, y.
    split; [exact Hne|]. split; [exact Hy|]. right. left. eauto.
  - unfold Tx.booking_keys in Hin. apply in_map_iff in Hin.
    destruct Hin as (b & Hid & Hin). apply in_flat_map in Hin.
    destruct Hin as (y & Hy & Hb).
    apply in_delete in Hy. destruct Hy as (j & Hne & Hy). exists j, y.
    split; [exact Hne|]. split; [exact Hy|]. right. right. eauto.
Qed.

Variable d0 : db.
Variable reqs : list (env * Body.t).
Variable cfg : Tx.config.
Hypothesis Inv : Tx.invariant d0 reqs cfg.

(** A request that need not wait for another: its lock key is not the
    other's, and they draw different uuids. *)
Lemma fire_apart (i : nat) (x : Tx.t) :
  Tx.txs cfg !! i = Some x -> Tx.reply_of x = None ->
  (forall j y, j <> i -> Tx.txs cfg !! j = Some y ->
               Tx.key x <> Tx.key y
               /\ forall m n, uuidv4 (Tx.world x) m <> uuidv4 (Tx.world y) n) ->
  exists cfg', Tx.fire i cfg = Some cfg'.
Proof.
  intros Hx Hun Hapart.
  destruct (Tx.fire i cfg) as [cfg'|] eqn:Hf; [eauto|]. exfalso.
  destruct (fire_waits i cfg x Hx Hun Hf) as (j & y & Hne & Hy & Hwait).
  destruct (Hapart j y Hne Hy) as [Hkey Huuid].
  destruct (Tx.inv_shape _ _ _ Inv j y Hy) as ((Hkc & Hkb) & _ & Hhold).
  destruct Hwait as [[_ Hin] | [(_ & c & Hin & Hid) | (cid & _ & b & Hin & Hid)]].
  - assert (Hsub : Tx.held y = [] \/ Tx.held y = [Tx.key y]).
    { revert Hhold. unfold Tx.holding.
      destruct (Tx.at_ y) as [| | | | | | | | |[]]; tauto. }
    destruct Hsub as [H | H]; rewrite H in Hin; simpl in Hin; intuition congruence.
  - destruct (Hkc c Hin) as (n & Hn). apply (Huuid (Tx.drawn x) n). congruence.
  - destruct (Hkb b Hin) as (n & Hn). apply (Huuid (Tx.drawn x) n). congruence.
Qed.

Hypothesis Hok : forall q n, In q reqs -> fails (fst q) n = false.

Lemma no_fault (i : nat) (x : Tx.t) (n : nat) :
  Tx.txs cfg !! i = Some x -> fails (Tx.world x) n = false.
Proof.
  intros Hx. apply (Hok (Tx.world x, Tx.body x)).
  apply list_elem_of_In. eapply list_elem_of_lookup_2.
  rewrite <- (Tx.inv_static _ _ _ Inv).
  change (map ?f ?l) with (f <$> l). rewrite list_lookup_fmap, Hx. reflexivity.
Qed.

(** With no outside failure, a request waits only for a request that is
    further on, and not yet answered. *)
Lemma waits_for_later (i : nat) (x : Tx.t) :
  Tx.txs cfg !! i = Some x -> Tx.reply_of x = None -> Tx.fire i cfg = None ->
  exists j y, Tx.txs cfg !! j = Some y /\ Tx.reply_of y = None
              /\ (Tx.rank (Tx.at_ x) < Tx.rank (Tx.at_ y))%nat.
Proof.
  intros Hx Hun Hf.
  destruct (fire_waits i cfg x Hx Hun Hf) as (j & y & Hne & Hy & Hwait).
  exists j, y. split; [exact Hy|].
  destruct (Tx.inv_shape _ _ _ Inv j y Hy) as (_ & _ & Hhold).
  pose proof (fun n => no_fault j y n Hy) as Hnf.
  unfold Tx.holding, Tx.reply_of in *.
  destruct Hwait as [[Hat Hin] | [(Hat & c & Hin & _) | (cid & Hat & b & Hin & _)]];
    rewrite Hat; simpl;
    destruct (Tx.at_ y) as [| | | | | | | | |[]]; simpl;
    try (split; [reflexivity | lia]);
    try (destruct Hhold as (_ & n & Hn); rewrite Hnf in Hn; discriminate Hn);
    exfalso;
    repeat match goal with
           | H : _ /\ _ |- _ => destruct H
           | H : Tx.held y = [] |- _ => rewrite H in *
           | H : Tx.written_customers y = [] |- _ => rewrite H in *
           | H : Tx.written_bookings y = [] |- _ => rewrite H in *
           end;
    assumption.
Qed.

(** With no outside failure, some request can make its next call as long
    as one is unanswered. *)
Lemma some_request_moves (n : nat) (i : nat) (x : Tx.t) :
  Tx.txs cfg !! i = Some x -> Tx.reply_of x = None ->
  (9 <= n + Tx.rank (Tx.at_ x))%nat ->
  exists j cfg', Tx.fire j cfg = Some cfg'.
Proof.
  revert i x. induction n as [|n IH]; intros i x Hx Hun Hn.
  - exfalso. unfold Tx.reply_of in Hun.
    destruct (Tx.at_ x); simpl in Hn; try lia. discriminate Hun.
  - destruct (Tx.fire i cfg) as [cfg'|] eqn:Hf; [eauto|].
    destruct (waits_for_later i x Hx Hun Hf) as (j & y & Hy & Huny & Hlt).
    apply (IH j y Hy Huny). lia.
Qed.

Lemma unfinished_request :
  Tx.finished cfg = false ->
  exists i x, Tx.txs cfg !! i = Some x /\ Tx.reply_of x = None.
Proof.
  unfold Tx.finished. intros H.
  induction (Tx.txs cfg) as [|x l IH]; simpl in H; [discriminate H|].
  destruct (Tx.reply_of x) eqn:Hr.
  - simpl in H. destruct (IH H) as (i & y & Hy & Hun). exists (S i), y. auto.
  - exists 0%nat, x. auto.
Qed.

Lemma no_deadlock :
  Tx.finished cfg = true \/ exists i cfg', Tx.fire i cfg = Some cfg'.
Proof.
  destruct (Tx.finished cfg) eqn:Hfin; [left; reflexivity | right].
  destruct (unfinished_request Hfin) as (i & x & Hx & Hun).
  apply (some_request_moves 9 i x Hx Hun). lia.
Qed.

End Waiting.

(** ** Requests for one room *)

Section OneRoom.

Lemma pairwise_lookup {A} (ok : A -> A -> bool) (l : list A) (i j : nat) (a b : A) :
  pairwise ok l = true -> (i < j)%nat -> l !! i = Some a -> l !! j = Some b ->
  ok a b = true.
Proof.
  revert i j. induction l as [|c l IH]; intros i j Hp Hlt Ha Hb; [discriminate Ha|].
  simpl in Hp. apply andb_true_iff in Hp. destruct Hp as [Hhead Hrest].
  destruct j as [|j]; [lia|]. simpl in Hb. destruct i as [|i].
  - injection Ha as ->. rewrite forallb_forall in Hhead. apply Hhead.
    apply list_elem_of_In. eapply list_elem_of_lookup_2. exact Hb.
  - simpl in Ha. apply (IH i j Hrest); [lia | exact Ha | exact Hb].
Qed.

(** What a request that passes validation asks for. *)
Lemma valid_request (x : Tx.t) (p r s t : string) (c : CustomerIn.t) :
  well_formed (Tx.body x) p r s t c -> Js.lt s t = true ->
  Tx.validation (Tx.body x) = None
  /\ Tx.room_id x = r
  /\ Tx.from x = date_in (Tx.world x) s /\ Tx.to x = date_in (Tx.world x) t.
Proof.
  intros (Hp & Hr & Hs & Ht & Hc) Hlt.
  unfold Tx.validation, Tx.room_id, Tx.from, Tx.to, Tx.start_date, Tx.end_date.
  rewrite Hp, Hr, Hs, Ht, Hc, Hlt. auto.
Qed.

Lemma rivals_windows (x y : Tx.t) (p p' r s t s' t' : string) (c c' : CustomerIn.t) :
  well_formed (Tx.body x) p r s t c -> Js.lt s t = true ->
  well_formed (Tx.body y) p' r s' t' c' -> Js.lt s' t' = true ->
  rivals (Tx.world x, Tx.body x) (Tx.world y, Tx.body y)
  = date_overlap (Tx.from x) (Tx.to x) (Tx.from y) (Tx.to y).
Proof.
  intros Hx Hlt Hy Hlt'.
  destruct (valid_request x _ _ _ _ _ Hx Hlt) as (_ & _ & -> & ->).
  destruct (valid_request y _ _ _ _ _ Hy Hlt') as (_ & _ & -> & ->).
  destruct Hx as (_ & Hr & Hs & Ht & _), Hy as (_ & Hr' & Hs' & Ht' & _).
  apply present_some in Hr, Hs, Ht, Hr', Hs', Ht'.
  unfold rivals. simpl.
  destruct Hr as [-> _], Hs as [-> _], Ht as [-> _],
           Hr' as [-> _], Hs' as [-> _], Ht' as [-> _].
  rewrite String.eqb_refl. reflexivity.
Qed.

Variable d0 : db.
Variable reqs : list (env * Body.t).
Variable room : string.
Variable cfg : Tx.config.
Hypothesis Inv : Tx.invariant d0 reqs cfg.
Hypothesis Hfree : Forall (asks_free room d0) reqs.
Hypothesis Hfin : Tx.finished cfg = true.
Hypothesis Hnsf : Tx.no_storage_failure cfg = true.

Lemma asks (i : nat) (x : Tx.t) :
  Tx.txs cfg !! i = Some x -> asks_free room d0 (Tx.world x, Tx.body x).
Proof.
  intros Hx. rewrite Forall_forall in Hfree. apply Hfree.
  eapply list_elem_of_lookup_2. eapply request_of; eassumption.
Qed.

Lemma room_of (i : nat) (x : Tx.t) : Tx.txs cfg !! i = Some x -> Tx.room_id x = room.
Proof.
  intros Hx. destruct (asks i x Hx) as (p & s & t & c & Hwf & Hlt & _).
  simpl in *. exact (proj1 (proj2 (valid_request x _ _ _ _ _ Hwf Hlt))).
Qed.

Lemma free_at_start (i : nat) (x : Tx.t) :
  Tx.txs cfg !! i = Some x -> ~ busy d0 room (Tx.from x) (Tx.to x).
Proof.
  intros Hx. destruct (asks i x Hx) as (p & s & t & c & Hwf & Hlt & Hnb).
  simpl in *. destruct (valid_request x _ _ _ _ _ Hwf Hlt) as (_ & _ & -> & ->).
  exact Hnb.
Qed.

Lemma rivals_of (i j : nat) (x y : Tx.t) :
  Tx.txs cfg !! i = Some x -> Tx.txs cfg !! j = Some y ->
  rivals (Tx.world x, Tx.body x) (Tx.world y, Tx.body y)
  = date_overlap (Tx.from x) (Tx.to x) (Tx.from y) (Tx.to y).
Proof.
  intros Hx Hy.
  destruct (asks i x Hx) as (p & s & t & c & Hwf & Hlt & _).
  destruct (asks j y Hy) as (p' & s' & t' & c' & Hwf' & Hlt' & _).
  simpl in *. eapply rivals_windows; eassumption.
Qed.

(** Each request was answered 201 or 409. *)
Lemma created_or_unavailable (i : nat) (x : Tx.t) :
  Tx.txs cfg !! i = Some x -> Tx.created x = true \/ Tx.unavailable x.
Proof.
  intros Hx.
  assert (Hin : In x (Tx.txs cfg)).
  { apply list_elem_of_In. eapply list_elem_of_lookup_2. exact Hx. }
  unfold Tx.finished, Tx.no_storage_failure in *.
  rewrite forallb_forall in Hfin, Hnsf.
  specialize (Hfin x Hin). specialize (Hnsf x Hin).
  destruct (Tx.inv_shape _ _ _ Inv i x Hx) as (_ & Hans & _).
  destruct (asks i x Hx) as (p & s & t & c & Hwf & Hlt & _). simpl in *.
  destruct (valid_request x _ _ _ _ _ Hwf Hlt) as (Hval & _).
  unfold Tx.reply_of, Tx.created, Tx.unavailable, Tx.answered in *.
  destruct (Tx.at_ x) as [| | | | | | | | |r]; try discriminate Hfin.
  destruct (Hans r eq_refl) as [H | [H | [-> | (bid & st & ->)]]]; auto.
  - congruence.
  - rewrite H in Hnsf. discriminate Hnsf.
Qed.

Lemma unavailable_not_created (x : Tx.t) : Tx.unavailable x -> Tx.created x = false.
Proof. unfold Tx.unavailable, Tx.created. intros ->. reflexivity. Qed.

(** A request that was turned away met the row of a request that was
    answered 201. *)
Lemma unavailable_met (i : nat) (x : Tx.t) :
  Tx.txs cfg !! i = Some x -> Tx.unavailable x ->
  exists j y, j <> i /\ Tx.txs cfg !! j = Some y /\ Tx.created y = true
              /\ date_overlap (Tx.from y) (Tx.to y) (Tx.from x) (Tx.to x) = true.
Proof.
  intros Hx Hun.
  assert (Hta : Tx.turned_away x) by (right; exact Hun).
  destruct (Tx.inv_turned_away _ _ _ Inv i x Hx Hta) as (b & Hin & Hr & Hact & Hov).
  destruct (Tx.inv_provenance _ _ _ Inv b Hin) as [H0 | (j & y & Hy & Hc & _ & Hf & Ht)].
  - exfalso. apply (free_at_start i x Hx).
    exists b. rewrite <- (room_of i x Hx). auto.
  - exists j, y. rewrite <- Hf, <- Ht. repeat split; try assumption.
    intros ->. assert (y = x) by congruence. subst y.
    rewrite (unavailable_not_created x Hun) in Hc. discriminate Hc.
Qed.

(** Windows that pairwise overlap: one request is answered 201, with its
    row in the tables, and every other request 409. *)
Lemma one_created :
  reqs <> [] -> pairwise rivals reqs = true ->
  exists i x, Tx.txs cfg !! i = Some x /\ Tx.committed_in (Tx.store cfg) x
              /\ forall j y, j <> i -> Tx.txs cfg !! j = Some y -> Tx.unavailable y.
Proof.
  intros Hne Hriv.
  assert (Hsome : exists i x, Tx.txs cfg !! i = Some x /\ Tx.created x = true).
  { destruct (Tx.txs cfg) as [|x0 l] eqn:Htxs.
    - exfalso. apply Hne. rewrite <- (Tx.inv_static _ _ _ Inv), Htxs. reflexivity.
    - assert (H0 : Tx.txs cfg !! 0%nat = Some x0) by (rewrite Htxs; reflexivity).
      rewrite <- Htxs.
      destruct (created_or_unavailable 0 x0 H0) as [Hc | Hun]; [eauto|].
      destruct (unavailable_met 0 x0 H0 Hun) as (j & y & _ & Hy & Hc & _). eauto. }
  destruct Hsome as (i & x & Hx & Hc). exists i, x.
  split; [exact Hx|]. split; [exact (Tx.inv_created _ _ _ Inv i x Hx Hc)|].
  intros j y Hji Hy.
  destruct (created_or_unavailable j y Hy) as [Hcy | Hun]; [exfalso | exact Hun].
  assert (Hroom : Tx.room_id x = Tx.room_id y)
    by (rewrite (room_of i x Hx), (room_of j y Hy); reflexivity).
  pose proof (Tx.inv_separation _ _ _ Inv i j x y (not_eq_sym Hji) Hx Hy Hc Hcy Hroom)
    as Hsep.
  pose proof (request_of d0 reqs cfg i x Inv Hx) as Hqx.
  pose proof (request_of d0 reqs cfg j y Inv Hy) as Hqy.
  destruct (Nat.lt_total i j) as [Hlt | [Heq | Hlt]]; [| congruence |].
  - pose proof (pairwise_lookup rivals reqs i j _ _ Hriv Hlt Hqx Hqy) as H.
    rewrite (rivals_of i j x y Hx Hy) in H. congruence.
  - pose proof (pairwise_lookup rivals reqs j i _ _ Hriv Hlt Hqy Hqx) as H.
    rewrite (rivals_of j i y x Hy Hx), date_overlap_sym in H. congruence.
Qed.

(** Windows that are pairwise disjoint: every request is answered 201,
    with its row in the tables. *)
Lemma all_created :
  pairwise (fun a b => negb (rivals a b)) reqs = true ->
  forall i x, Tx.txs cfg !! i = Some x -> Tx.committed_in (Tx.store cfg) x.
Proof.
  intros Hapart i x Hx.
  destruct (created_or_unavailable i x Hx) as [Hc | Hun];
    [exact (Tx.inv_created _ _ _ Inv i x Hx Hc) | exfalso].
  destruct (unavailable_met i x Hx Hun) as (j & y & Hji & Hy & Hcy & Hov).
  pose proof (request_of d0 reqs cfg i x Inv Hx) as Hqx.
  pose proof (request_of d0 reqs cfg j y Inv Hy) as Hqy.
  destruct (Nat.lt_total i j) as [Hlt | [Heq | Hlt]]; [| congruence |].
  - pose proof (pairwise_lookup _ reqs i j _ _ Hapart Hlt Hqx Hqy) as H.
    simpl in H. rewrite (rivals_of i j x y Hx Hy), date_overlap_sym, Hov in H.
    discriminate H.
  - pose proof (pairwise_lookup _ reqs j i _ _ Hapart Hlt Hqy Hqx) as H.
    simpl in H. rewrite (rivals_of j i y x Hy Hx), Hov in H. discriminate H.
Qed.

End OneRoom.




(** The scenario, interleaved: two requests for room [R] on overlapping
    windows, in either order, and two on disjoint windows. *)
Example race_first_wins :
  option_map (fun cfg => map Tx.at_ (Tx.txs cfg))
    (Tx.run Race.in_turn (Tx.start Sample.d0 Race.rivals))
  = Some [Tx.Replied (Send 201 (BookingCreated "0b5f1f0e-0000-4000-8000-000000000002"
                                  "confirmed"));
          Tx.Replied (Send 409 (Error "room not available for given dates"))].
Proof. vm_compute. reflexivity. Qed.

Example race_second_wins :
  option_map (fun cfg => map Tx.at_ (Tx.txs cfg))
    (Tx.run Race.second_first (Tx.start Sample.d0 Race.rivals))
  = Some [Tx.Replied (Send 409 (Error "room not available for given dates"));
          Tx.Replied (Send 201 (BookingCreated "0b5f1f0e-0000-4000-8000-000000000004"
                                  "confirmed"))].
Proof. vm_compute. reflexivity. Qed.

Example race_apart_both :
  option_map (fun cfg => map Tx.at_ (Tx.txs cfg))
    (Tx.run Race.in_turn_apart (Tx.start Sample.d0 Race.apart))
  = Some [Tx.Replied (Send 201 (BookingCreated "0b5f1f0e-0000-4000-8000-000000000002"
                                  "confirmed"));
          Tx.Replied (Send 201 (BookingCreated "0b5f1f0e-0000-4000-8000-000000000004"
                                  "confirmed"))].
Proof. vm_compute. reflexivity. Qed.

(** ** One request alone *)

Section Alone.

Variable e : env.
Variable body : Body.t.
Variable d : db.

Lemma validation_missing :
  present (Body.property_id body) = None
  \/ present (Body.room_id body) = None
  \/ present (Body.start_date body) = None
  \/ present (Body.end_date body) = None
  \/ present (Body.customer body) = None ->
  Tx.validation body = Some (Send 400 (Error "missing fields")).
Proof.
  unfold Tx.validation. intros H.
  destruct (present (Body.property_id body)); [|reflexivity].
  destruct (present (Body.room_id body)); [|reflexivity].
  destruct (present (Body.start_date body)); [|reflexivity].
  destruct (present (Body.end_date body)); [|reflexivity].
  destruct (present (Body.customer body)); [|reflexivity].
  destruct H as [H|[H|[H|[H|H]]]]; discriminate H.
Qed.

#[local] Arguments Nat.ltb : simpl never.
#[local] Arguments present : simpl never.
#[local] Arguments Tx.validation : simpl never.

Ltac both_step :=
  simpl; rewrite ?app_nil_r;
  match goal with
  | |- context [fails e ?n] =>
      let F := fresh "F" in destruct (fails e n) eqn:F
  | |- context [(0 <? ?n)%nat] => destruct (0 <? n)%nat
  | |- context [has_key ?k ?rows ?x] => destruct (has_key k rows x)
  | |- context [present (CustomerIn.id ?c)] => destruct (present (CustomerIn.id c))
  end.

(** Served alone, call by call, a request gets the reply of
    [post_bookings], leaves the tables that [post_bookings] leaves, and has
    made the same calls, drawn the same uuids and kept the same locks. *)
Lemma alone_as_served :
  exists x,
    Tx.solo 9 (Tx.start d [(e, body)])
    = Tx.mkconfig (committed (snd (serve (post_bookings e body) d))) [x]
    /\ Tx.world x = e /\ Tx.body x = body
    /\ Tx.at_ x = Tx.Replied (fst (serve (post_bookings e body) d))
    /\ Tx.held x = held (snd (serve (post_bookings e body) d))
    /\ Tx.sent x = sent (snd (serve (post_bookings e body) d))
    /\ Tx.drawn x = drawn (snd (serve (post_bookings e body) d)).
Proof.
  destruct (fields_cases body) as [Hmiss | (p & r & s & t & c & Hwf)].
  { rewrite (serve_missing e body d Hmiss).
    unfold Tx.solo, Tx.fire, Tx.start, Tx.step. simpl.
    rewrite (validation_missing Hmiss). simpl.
    eexists. repeat split. }
  destruct (Js.lt s t) eqn:Hlt.
  2:{ rewrite (serve_invalid_range e body d p r s t c Hwf Hlt).
      assert (Hval : Tx.validation body
                     = Some (Send 400 (Error "start_date must be before end_date"))).
      { destruct Hwf as (Hp & Hr & Hs & Ht & Hc).
        unfold Tx.validation. rewrite Hp, Hr, Hs, Ht, Hc, Hlt. reflexivity. }
      unfold Tx.solo, Tx.fire, Tx.start, Tx.step. simpl.
      rewrite Hval. simpl. eexists. repeat split. }
  unfold serve. rewrite (post_bookings_well_formed e body _ _ _ _ _ Hwf), Hlt.
  assert (Hval : Tx.validation body = None).
  { destruct Hwf as (Hp & Hr & Hs & Ht & Hc).
    unfold Tx.validation. rewrite Hp, Hr, Hs, Ht, Hc, Hlt. reflexivity. }
  destruct Hwf as (Hp & Hr & Hs & Ht & Hc).
  unfold Tx.solo, Tx.fire, Tx.start, Tx.step, Tx.failed, Tx.throws, Tx.ends, Tx.returns,
    Tx.view, Tx.key, Tx.from, Tx.to, Tx.room_id, Tx.property_id, Tx.start_date,
    Tx.end_date, Tx.customer, Tx.locked, Tx.customer_keys, Tx.booking_keys.
  simpl. rewrite Hval. simpl.
  unfold admission_try, admission_catch, customer_id_for, try_catch, bind, ret, throw,
    pool_connect, sql_begin, sql_advisory_xact_lock, sql_select_conflicts,
    sql_rollback, sql_commit, sql_insert_customer, sql_insert_booking, uuid,
    statement, connect, view, write, returned.
  repeat (rewrite ?Hp, ?Hr, ?Hs, ?Ht, ?Hc; both_step);
    simpl; rewrite ?Hp, ?Hr, ?Hs, ?Ht, ?Hc; simpl;
    try (eexists; repeat split; reflexivity).
Qed.

End Alone.

(** ** Lock keys *)

Section LockKeys.

(** More pigeons than holes. *)
Lemma pigeonhole (n : nat) (f : nat -> nat) :
  (forall i, (i <= n)%nat -> (f i < n)%nat) ->
  exists i j, (i < j <= n)%nat /\ f i = f j.
Proof.
  revert f. induction n as [|n IH]; intros f Hf.
  - specialize (Hf 0%nat (Nat.le_refl 0)). lia.
  - assert (Hdec : (exists i, (i <= n)%nat /\ f i = f (S n))
                   \/ (forall i, (i <= n)%nat -> f i <> f (S n))).
    { clear IH Hf. generalize (f (S n)) as v. intros v.
      induction n as [|m IHm].
      - destruct (Nat.eq_dec (f 0%nat) v) as [H | H].
        + left. exists 0%nat. auto.
        + right. intros i Hi. replace i with 0%nat by lia. exact H.
      - destruct IHm as [(i & Hi & H) | Hnone].
        + left. exists i. split; [lia | exact H].
        + destruct (Nat.eq_dec (f (S m)) v) as [H | H].
          * left. exists (S m). auto.
          * right. intros i Hi. destruct (Nat.eq_dec i (S m)) as [-> | Hne];
              [exact H | apply Hnone; lia]. }
    destruct Hdec as [(i & Hi & H) | Hnone].
    + exists i, (S n). split; [lia | exact H].
    + destruct (IH (fun i => if (f i <? f (S n))%nat then f i else pred (f i)))
        as (i & j & Hij & H).
      * intros i Hi. pose proof (Hf i ltac:(lia)). pose proof (Hf (S n) ltac:(lia)).
        pose proof (Hnone i Hi).
        destruct (Nat.ltb_spec (f i) (f (S n))); lia.
      * exists i, j. split; [lia|].
        pose proof (Hnone i ltac:(lia)). pose proof (Hnone j ltac:(lia)).
        destruct (Nat.ltb_spec (f i) (f (S n))), (Nat.ltb_spec (f j) (f (S n))); lia.
Qed.

Lemma length_iter_String (n : nat) :
  String.length (Nat.iter n (String "a") "") = n.
Proof. induction n as [|n IH]; simpl; [reflexivity | rewrite IH; reflexivity]. Qed.

(** [hashtext] returns a 32-bit integer, and there are more room ids than
    that: some two rooms share a lock key. *)
Lemma hashtext_collides (e : env) :
  (forall r, (- 2 ^ 31 <= hashtext e r < 2 ^ 31)%Z) ->
  exists r r', r <> r' /\ hashtext e r = hashtext e r'.
Proof.
  intros Hrange.
  destruct (pigeonhole (Z.to_nat (2 ^ 32))
              (fun i => Z.to_nat (hashtext e (Nat.iter i (String "a") "") + 2 ^ 31)))
    as (i & j & Hij & H).
  - intros i _. specialize (Hrange (Nat.iter i (String "a") "")). lia.
  - exists (Nat.iter i (String "a") ""), (Nat.iter j (String "a") ""). split.
    + intros Heq. apply (f_equal String.length) in Heq.
      rewrite !length_iter_String in Heq. lia.
    + pose proof (Hrange (Nat.iter i (String "a") "")).
      pose proof (Hrange (Nat.iter j (String "a") "")). lia.
Qed.

End LockKeys.
